(** * Session lifecycle and event delivery of the resume-analyzer backend

    A shallow embedding of the Event Broadcaster
    (services/eventBroadcaster.js) and of the SSE routes (routes/sse.js),
    over models of the two services they call, the Session Store
    (services/sessionManager.js) and the Connection Registry
    (services/sseManager.js).

    JavaScript values are an inductive type, objects used as records are
    Rocq records, the two process-wide [Map]s are [gmap]s, response objects
    live in a heap indexed by reference, and code that may raise runs in a
    state-and-exception monad over the whole process state. *)

From Stdlib Require Import ZArith Lia.
From stdpp Require Import base option list strings pretty gmap.

Local Open Scope Z_scope.
Set Warnings "-register-all,-clear-no-such-hyp".

(** ** JavaScript values *)

(** The values that flow through the broadcaster. Numbers are the integers
    the code uses (counts, sizes, indices); [JDate t] is a [Date] at
    instant [t] (milliseconds); [JIso t] is the string
    [new Date(t).toISOString()]; [JError m ps] is an [Error] with message
    [m] and own properties [ps]. *)
Inductive JsVal : Type :=
| JUndefined
| JNull
| JBool (b : bool)
| JNum (n : Z)
| JStr (s : string)
| JDate (t : Z)
| JIso (t : Z)
| JError (message : string) (props : list (string * JsVal))
| JObj (props : list (string * JsVal)).

(** Truthiness, as [||], [&&] and [if] see it. An ISO date string is
    never empty. *)
Definition truthy (v : JsVal) : bool :=
  match v with
  | JUndefined | JNull => false
  | JBool b => b
  | JNum n => negb (n =? 0)
  | JStr s => negb (String.eqb s "")
  | JDate _ | JIso _ | JError _ _ | JObj _ => true
  end.

(** [a || b]. *)
Definition js_or (a b : JsVal) : JsVal := if truthy a then a else b.

(** Own-property lookup in an object literal. *)
Fixpoint assoc (k : string) (ps : list (string * JsVal)) : JsVal :=
  match ps with
  | [] => JUndefined
  | (k', v) :: ps' => if String.eqb k k' then v else assoc k ps'
  end.

(** Whether an object has an own property [k]. *)
Definition hasOwn (k : string) (ps : list (string * JsVal)) : bool :=
  existsb (λ kv, String.eqb k kv.1) ps.

(** Whether [ToString(v)], as a template literal applies it, returns. No
    value here is a function, so an object with an own [toString] cannot be
    converted: [OrdinaryToPrimitive] finds no callable [toString] and the
    inherited [valueOf] gives the object back, a [TypeError]. An [Error]
    without one is printed by [Error.prototype.toString], which converts
    its own [name], if it has one, in the same way. *)
Fixpoint printable (v : JsVal) : bool :=
  match v with
  | JObj ps => negb (hasOwn "toString" ps)
  | JError _ ps =>
      negb (hasOwn "toString" ps)
      && (fix ownName (ps : list (string * JsVal)) : bool :=
            match ps with
            | [] => true
            | (k, x) :: ps' => if String.eqb "name" k then printable x else ownName ps'
            end) ps
  | _ => true
  end.

(** A property of a JavaScript object that holds a [T], [null] or nothing. *)
Inductive Nullable (T : Type) : Type :=
| Undefined
| Null
| Val (x : T).
Arguments Undefined {T}.
Arguments Null {T}.
Arguments Val {T} x.

(** [n || 0] on a count. *)
Definition or_zero (n : Nullable Z) : Z :=
  match n with
  | Val k => if k =? 0 then 0 else k
  | _ => 0
  end.

(** [s || ''] on a text. *)
Definition or_empty (s : Nullable string) : string :=
  match s with
  | Val t => if String.eqb t "" then "" else t
  | _ => ""
  end.

Definition num_val (n : Nullable Z) : JsVal :=
  match n with
  | Undefined => JUndefined
  | Null => JNull
  | Val k => JNum k
  end.

(** A count inside a template literal. *)
Definition num_text (n : Nullable Z) : string :=
  match n with
  | Undefined => "undefined"
  | Null => "null"
  | Val k => pretty k
  end.

(** ** Sessions *)

(** A session object. The fields the code computes with are typed as the
    data model types them; every other property ([fileInfo], [feedback],
    [completedAt], [lastError], [errorCode], ...) is kept in [other]. *)
Record Session : Type := mkSession {
  sessionId : string;
  status : string;
  createdAt : Z;
  updatedAt : Z;
  expiresAt : option Z;
  retryCount : Nullable Z;
  streamingContent : Nullable string;
  other : gmap string JsVal
}.

(** [session.k] for a free-form property. *)
Definition prop (s : Session) (k : string) : JsVal :=
  default JUndefined (other s !! k).

(** An object literal passed to [createSession] or [updateSession]: which
    of the typed properties it names, and its remaining properties. *)
Record SessionPatch : Type := mkPatch {
  p_sessionId : option string;
  p_status : option string;
  p_retryCount : option (Nullable Z);
  p_streamingContent : option (Nullable string);
  p_other : gmap string JsVal
}.

Definition emptyPatch : SessionPatch := mkPatch None None None None ∅.

(** ** Response objects, the registry and the process state *)

(** What has been written to a response: a JSON body, or one server-sent
    event [event: e\ndata: JSON.stringify(d)\n\n]. *)
Inductive Chunk : Type :=
| JsonBody (v : JsVal)
| SseEvent (event : string) (data : JsVal).

(** An HTTP response object; [alive] is false once the socket is destroyed
    or finished, and then writing to it fails. *)
Record Response : Type := mkResponse {
  alive : bool;
  statusCode : Z;
  headers : list (string * string);
  headersSent : bool;
  written : list Chunk;
  ended : bool
}.

Definition freshResponse : Response := mkResponse true 200 [] false [] false.

(** The process: the clock, the session manager's map and timeouts, the
    SSE manager's map from session id to its set of response objects, and
    the heap of response objects. A call runs at one instant: every
    [new Date()] in it reads the same clock. *)
Record World : Type := mkWorld {
  clock : Z;
  sessions : gmap string Session;
  sessionTimeout : Z;
  connections : gmap string (gset nat);
  responses : gmap nat Response
}.

Definition set_sessions (m : gmap string Session) (w : World) : World :=
  mkWorld (clock w) m (sessionTimeout w) (connections w) (responses w).

Definition set_connections (c : gmap string (gset nat)) (w : World) : World :=
  mkWorld (clock w) (sessions w) (sessionTimeout w) c (responses w).

Definition set_responses (r : gmap nat Response) (w : World) : World :=
  mkWorld (clock w) (sessions w) (sessionTimeout w) (connections w) r.

(** ** Computations that may throw *)

Inductive Outcome (A : Type) : Type :=
| Ret (a : A) (w : World)
| Throw (e : string) (w : World).
Arguments Ret {A} a w.
Arguments Throw {A} e w.

Definition M (A : Type) : Type := World → Outcome A.

Definition ret {A} (a : A) : M A := λ w, Ret a w.

Definition bind {A B} (m : M A) (k : A → M B) : M B :=
  λ w, match m w with
       | Ret a w' => k a w'
       | Throw e w' => Throw e w'
       end.

Definition throw {A} (e : string) : M A := λ w, Throw e w.

(** [try { m } catch (e) { h e }]. *)
Definition try_catch {A} (m : M A) (h : string → M A) : M A :=
  λ w, match m w with
       | Ret a w' => Ret a w'
       | Throw e w' => h e w'
       end.

Definition get_world : M World := λ w, Ret w w.
Definition modify (f : World → World) : M unit := λ w, Ret tt (f w).

Declare Scope js_scope.
Delimit Scope js_scope with js.
Notation "x <~ m ;; k" := (bind m (λ x, k))
  (at level 100, m at next level, right associativity) : js_scope.
Notation "m ;; k" := (bind m (λ _, k))
  (at level 100, right associativity) : js_scope.
Local Open Scope js_scope.

(** [for (const x of xs) body(x)]. *)
Fixpoint for_each {A} (xs : list A) (body : A → M unit) : M unit :=
  match xs with
  | [] => ret tt
  | x :: xs' => body x ;; for_each xs' body
  end.

(** The state a computation leaves, however it ends. *)
Definition final {A} (o : Outcome A) : World :=
  match o with Ret _ w => w | Throw _ w => w end.

(** [v.k]: a [TypeError] on [undefined] and [null], the property of an
    object or an error, [undefined] on the other values. *)
Definition js_get (v : JsVal) (k : string) : M JsVal :=
  match v with
  | JUndefined | JNull => throw "TypeError"
  | JObj ps => ret (assoc k ps)
  | JError m ps => ret (if String.eqb k "message" then JStr m else assoc k ps)
  | _ => ret JUndefined
  end.

(** A parameter with the default value [{}]. *)
Definition or_default (v : JsVal) : JsVal :=
  match v with JUndefined => JObj [] | _ => v end.

(** ** The Session Store (services/sessionManager.js) *)

Module SessionManager.

(** Modelled from the spec: the body of sessionManager.js is not among the
    sources. An id is usable when it is a non-empty string. *)
Definition validId (v : JsVal) : option string :=
  match v with
  | JStr s => if String.eqb s "" then None else Some s
  | _ => None
  end.

(** Modelled from the spec: sessionManager.js is missing. A session is
    expired when [expiresAt] is missing or [now > expiresAt]. *)
Definition isExpired (now : Z) (s : Session) : bool :=
  match expiresAt s with
  | None => true
  | Some e => e <? now
  end.

(** Modelled from the spec: sessionManager.js is missing. The stored
    session a read sees: none for an unusable id, an id that is not
    stored, or an expired session. *)
Definition lookupLive (w : World) (sid : JsVal) : option Session :=
  id ← validId sid;
  s ← sessions w !! id;
  if isExpired (clock w) s then None else Some s.

(** Modelled from the spec: sessionManager.js is missing. [get] returns a
    copy of the live session or absent, and deletes nothing. *)
Definition getSession (sid : JsVal) : M (option Session) :=
  w <~ get_world ;; ret (lookupLive w sid).

(** Modelled from the spec: sessionManager.js is missing. [exists]. *)
Definition sessionExists (sid : JsVal) : M bool :=
  s <~ getSession sid ;; ret (bool_decide (is_Some s)).

(** Modelled from the spec: sessionManager.js is missing. The merge of
    [update]: the named fields replace the stored ones, [sessionId] is
    kept whatever the patch says, [updatedAt] is bumped. *)
Definition mergeSession (now : Z) (s : Session) (p : SessionPatch) : Session :=
  {| sessionId := sessionId s;
     status := default (status s) (p_status p);
     createdAt := createdAt s;
     updatedAt := now;
     expiresAt := expiresAt s;
     retryCount := default (retryCount s) (p_retryCount p);
     streamingContent := default (streamingContent s) (p_streamingContent p);
     other := p_other p ∪ other s |}.

(** Modelled from the spec: sessionManager.js is missing. [update] merges
    the fields into the stored session; it returns [false], without
    throwing, when the id is unusable or nothing is stored under it. *)
Definition updateSession (sid : JsVal) (p : SessionPatch) : M bool :=
  w <~ get_world ;;
  match validId sid with
  | None => ret false
  | Some id =>
      match sessions w !! id with
      | None => ret false
      | Some s =>
          modify (set_sessions (<[id := mergeSession (clock w) s p]> (sessions w))) ;;
          ret true
      end
  end.

(** Modelled from the spec: sessionManager.js is missing. [updateStatus]
    is [update] with the one field [status]. *)
Definition updateStatus (sid : JsVal) (st : string) : M bool :=
  updateSession sid (mkPatch None (Some st) None None ∅).

(** Modelled from the spec: sessionManager.js is missing. [create] with
    the id the generator produced: status [created], no retries, expiry one
    timeout away, then the initial data, which cannot replace the id. *)
Definition createSession (fresh : string) (init : SessionPatch) : M string :=
  w <~ get_world ;;
  let s0 := {| sessionId := fresh; status := "created";
               createdAt := clock w; updatedAt := clock w;
               expiresAt := Some (clock w + sessionTimeout w);
               retryCount := Val 0; streamingContent := Undefined;
               other := ∅ |} in
  modify (set_sessions (<[fresh := mergeSession (clock w) s0 init]> (sessions w))) ;;
  ret fresh.

(** Modelled from the spec: sessionManager.js is missing. [extend] pushes
    [expiresAt] forward by [extra], by the timeout when [extra] is omitted. *)
Definition extendSession (sid : JsVal) (extra : option Z) : M bool :=
  w <~ get_world ;;
  match validId sid with
  | None => ret false
  | Some id =>
      match sessions w !! id with
      | None => ret false
      | Some s =>
          let s' := {| sessionId := sessionId s; status := status s;
                       createdAt := createdAt s; updatedAt := clock w;
                       expiresAt := (λ e, e + default (sessionTimeout w) extra) <$> expiresAt s;
                       retryCount := retryCount s;
                       streamingContent := streamingContent s;
                       other := other s |} in
          modify (set_sessions (<[id := s']> (sessions w))) ;;
          ret true
      end
  end.

(** Modelled from the spec: sessionManager.js is missing. [delete]. *)
Definition deleteSession (sid : JsVal) : M bool :=
  w <~ get_world ;;
  match validId sid with
  | None => ret false
  | Some id =>
      match sessions w !! id with
      | None => ret false
      | Some _ => modify (set_sessions (delete id (sessions w))) ;; ret true
      end
  end.

(** Modelled from the spec: sessionManager.js is missing. [clearAll]. *)
Definition clearAllSessions : M unit :=
  modify (set_sessions ∅).

(** Modelled from the spec: sessionManager.js is missing. The sweep
    deletes every expired session and returns how many it removed. *)
Definition cleanupExpiredSessions : M nat :=
  w <~ get_world ;;
  let keep := filter (λ kv, isExpired (clock w) kv.2 = false) (sessions w) in
  modify (set_sessions keep) ;;
  ret (size (sessions w) - size keep)%nat.

End SessionManager.

(** ** Response objects of the HTTP platform *)

Module Http.

Definition update (r : nat) (f : Response → Response) : M unit :=
  modify (λ w, set_responses (alter f r (responses w)) w).

(** [res.setHeader(k, v)]. *)
Definition setHeader (r : nat) (k v : string) : M unit :=
  update r (λ x, mkResponse (alive x) (statusCode x) (headers x ++ [(k, v)])
                   (headersSent x) (written x) (ended x)).

(** [res.flushHeaders()]. *)
Definition flushHeaders (r : nat) : M unit :=
  update r (λ x, mkResponse (alive x) (statusCode x) (headers x) true
                   (written x) (ended x)).

(** [res.status(code)]. *)
Definition setStatus (r : nat) (code : Z) : M unit :=
  update r (λ x, mkResponse (alive x) code (headers x) (headersSent x)
                   (written x) (ended x)).

(** [res.json(body)]: the body is sent and the response is finished. *)
Definition json (r : nat) (body : JsVal) : M unit :=
  update r (λ x, mkResponse false (statusCode x) (headers x) true
                   (written x ++ [JsonBody body]) true).

(** [res.write(chunk)]. A write that fails is an exception here: it
    throws when the response is closed or gone. *)
Definition write (r : nat) (c : Chunk) : M unit :=
  w <~ get_world ;;
  match responses w !! r with
  | Some x =>
      if alive x
      then modify (set_responses
             (<[r := mkResponse (alive x) (statusCode x) (headers x) true
                        (written x ++ [c]) (ended x)]> (responses w)))
      else throw "write after end"
  | None => throw "write after end"
  end.

(** [res.end()]. *)
Definition finish (r : nat) : M unit :=
  update r (λ x, mkResponse false (statusCode x) (headers x) (headersSent x)
                   (written x) true).

End Http.

(** ** The Connection Registry (services/sseManager.js) *)

Module SseManager.

(** Modelled from the spec: the body of sseManager.js is not among the
    sources. The key under which a session id is registered; an id that is
    not a string has no entry. *)
Definition registryKey (v : JsVal) : option string :=
  match v with
  | JStr s => Some s
  | _ => None
  end.

(** Modelled from the spec: sseManager.js is missing. The response objects
    registered for a session id, none when the id has no entry. *)
Definition channelsOf (w : World) (sid : JsVal) : gset nat :=
  default ∅ (k ← registryKey sid; connections w !! k).

(** Modelled from the spec: sseManager.js is missing. The handshake of a
    text-event-stream: status 200, the framing headers, flush; it fails on
    a closed response. *)
Definition handshake (r : nat) : M unit :=
  w <~ get_world ;;
  match responses w !! r with
  | Some x =>
      if alive x
      then modify (set_responses
             (<[r := mkResponse (alive x) 200
                        (headers x ++ [("Content-Type", "text/event-stream");
                                       ("Cache-Control", "no-cache");
                                       ("Connection", "keep-alive")])
                        true (written x) (ended x)]> (responses w)))
      else throw "channel closed"
  | None => throw "channel closed"
  end.

(** Modelled from the spec: sseManager.js is missing. [createConnection]
    registers the channel under the session id and immediately performs
    the handshake; it returns [false] when the handshake fails. *)
Definition createConnection (sid : JsVal) (r : nat) : M bool :=
  match registryKey sid with
  | None => ret false
  | Some k =>
      modify (λ w, set_connections
                     (<[k := {[r]} ∪ default ∅ (connections w !! k)]> (connections w)) w) ;;
      try_catch (handshake r ;; ret true) (λ _, ret false)
  end.

(** Modelled from the spec: sseManager.js is missing. [removeConnection]
    drops one channel from the session's set, and the session's key when
    the set becomes empty. *)
Definition removeConnection (sid : JsVal) (r : nat) : M unit :=
  match registryKey sid with
  | None => ret tt
  | Some k =>
      modify (λ w,
        match connections w !! k with
        | None => w
        | Some l =>
            let l' := l ∖ {[r]} in
            set_connections
              (if decide (l' = ∅)
               then delete k (connections w)
               else <[k := l']> (connections w)) w
        end)
  end.

(** Modelled from the spec: sseManager.js is missing. The name under
    which the routes call [removeConnection] on client disconnect. *)
Definition removeClient := removeConnection.

(** Modelled from the spec: sseManager.js is missing. One delivery: a
    write that fails is caught and treated as a disconnect. *)
Definition sendTo (sid : JsVal) (c : Chunk) (r : nat) : M unit :=
  try_catch (Http.write r c) (λ _, removeConnection sid r).

(** Modelled from the spec: sseManager.js is missing. [broadcastToSession]
    writes the one serialized event to every channel registered for the
    session; a write that fails removes that channel and the loop goes on. *)
Definition broadcastToSession (sid : JsVal) (event : string) (data : JsVal) : M unit :=
  w <~ get_world ;;
  for_each (elements (channelsOf w sid)) (sendTo sid (SseEvent event data)).

(** Modelled from the spec: sseManager.js is missing.
    [closeSessionConnections] closes every channel of the session and
    clears its set. *)
Definition closeSessionConnections (sid : JsVal) : M unit :=
  w <~ get_world ;;
  for_each (elements (channelsOf w sid)) Http.finish ;;
  match registryKey sid with
  | None => ret tt
  | Some k => modify (λ w, set_connections (delete k (connections w)) w)
  end.

(** Modelled from the spec: sseManager.js is missing. [getConnectionCount]. *)
Definition getConnectionCount (sid : JsVal) : M nat :=
  w <~ get_world ;; ret (size (channelsOf w sid)).

End SseManager.

(** ** The Event Broadcaster (services/eventBroadcaster.js) *)

(** The methods in the order of the source; what they print with
    [console.log] is left out. *)

Module EventBroadcaster.

Import SessionManager SseManager.

(** [this.eventTypes]. *)
Definition UPLOAD_STARTED : string := "upload.started".
Definition UPLOAD_COMPLETED : string := "upload.completed".
Definition EXTRACTION_STARTED : string := "extraction.started".
Definition EXTRACTION_COMPLETED : string := "extraction.completed".
Definition ANALYSIS_STARTED : string := "analysis.started".
Definition ANALYSIS_STREAMING : string := "analysis.streaming".
Definition ANALYSIS_COMPLETED : string := "analysis.completed".
Definition ERROR_OCCURRED : string := "error.occurred".
Definition RETRY_STARTED : string := "retry.started".

(** [new Date()] and [new Date().toISOString()]. *)
Definition newDate : M JsVal := w <~ get_world ;; ret (JDate (clock w)).
Definition isoNow : M JsVal := w <~ get_world ;; ret (JIso (clock w)).

(** [v.k1 || v.k2], the second read only when the first is falsy. *)
Definition get_or (v : JsVal) (k1 k2 : string) : M JsVal :=
  a <~ js_get v k1 ;;
  if truthy a then ret a else js_get v k2.

(** [v.k || d]. *)
Definition get_or_else (v : JsVal) (k : string) (d : JsVal) : M JsVal :=
  a <~ js_get v k ;; ret (js_or a d).

Definition broadcastUploadStarted (sessionId fileInfo0 : JsVal) : M unit :=
  let fileInfo := or_default fileInfo0 in
  name <~ get_or fileInfo "originalName" "name" ;;
  size <~ js_get fileInfo "size" ;;
  type <~ get_or fileInfo "mimetype" "type" ;;
  let eventData := JObj [
    ("status", JStr "uploading");
    ("message", JStr "File upload started");
    ("fileInfo", JObj [("name", name); ("size", size); ("type", type)])] in
  updateStatus sessionId "uploading" ;;
  updateSession sessionId (mkPatch None None None None {["fileInfo" := fileInfo]}) ;;
  broadcastToSession sessionId UPLOAD_STARTED eventData.

Definition broadcastUploadCompleted (sessionId fileInfo0 : JsVal) : M unit :=
  let fileInfo := or_default fileInfo0 in
  name <~ get_or fileInfo "originalName" "name" ;;
  size <~ js_get fileInfo "size" ;;
  type <~ get_or fileInfo "mimetype" "type" ;;
  given <~ js_get fileInfo "uploadedAt" ;;
  iso <~ isoNow ;;
  let eventData := JObj [
    ("status", JStr "uploaded");
    ("message", JStr "File uploaded successfully");
    ("fileInfo", JObj [("name", name); ("size", size); ("type", type);
                       ("uploadedAt", js_or given iso)])] in
  updateStatus sessionId "uploaded" ;;
  d <~ newDate ;;
  updateSession sessionId
    (mkPatch None None None None (<["fileInfo" := fileInfo]> {["uploadedAt" := d]})) ;;
  broadcastToSession sessionId UPLOAD_COMPLETED eventData.

Definition broadcastExtractionStarted (sessionId : JsVal) : M unit :=
  let eventData := JObj [
    ("status", JStr "extracting");
    ("message", JStr "Extracting text from PDF...");
    ("stage", JStr "extraction")] in
  updateStatus sessionId "extracting" ;;
  broadcastToSession sessionId EXTRACTION_STARTED eventData.

Definition broadcastExtractionCompleted (sessionId extractionResult0 : JsVal) : M unit :=
  let extractionResult := or_default extractionResult0 in
  textLength <~ get_or_else extractionResult "textLength" (JNum 0) ;;
  pageCount <~ get_or_else extractionResult "pageCount" (JNum 0) ;;
  hasText <~ get_or_else extractionResult "hasText" (JBool false) ;;
  let extractionInfo := JObj [("textLength", textLength);
                              ("pageCount", pageCount);
                              ("hasText", hasText)] in
  let eventData := JObj [
    ("status", JStr "extracted");
    ("message", JStr "Text extraction completed");
    ("stage", JStr "extraction");
    ("extractionInfo", extractionInfo)] in
  updateStatus sessionId "extracted" ;;
  text <~ js_get extractionResult "text" ;;
  updateSession sessionId
    (mkPatch None None None None
       (<["extractedText" := text]> {["extractionInfo" := extractionInfo]})) ;;
  broadcastToSession sessionId EXTRACTION_COMPLETED eventData.

Definition broadcastAnalysisStarted (sessionId : JsVal) : M unit :=
  let eventData := JObj [
    ("status", JStr "analyzing");
    ("message", JStr "AI analysis started...");
    ("stage", JStr "analysis")] in
  updateStatus sessionId "analyzing" ;;
  broadcastToSession sessionId ANALYSIS_STARTED eventData.

(** The payload of one streamed chunk. *)
Definition streamingEvent (content : string) (chunkIndex isComplete section : JsVal) : JsVal :=
  JObj [
    ("status", JStr "streaming");
    ("message", JStr "Receiving AI feedback...");
    ("stage", JStr "analysis");
    ("content", JStr content);
    ("metadata", JObj [("chunkIndex", chunkIndex);
                       ("isComplete", isComplete);
                       ("section", section)])].

Definition broadcastAnalysisStreaming (sessionId : JsVal) (content : string)
    (metadata0 : JsVal) : M unit :=
  let metadata := or_default metadata0 in
  chunkIndex <~ get_or_else metadata "chunkIndex" (JNum 0) ;;
  isComplete <~ get_or_else metadata "isComplete" (JBool false) ;;
  section <~ get_or_else metadata "section" (JStr "general") ;;
  let eventData := streamingEvent content chunkIndex isComplete section in
  session <~ getSession sessionId ;;
  match session with
  | Some session =>
      let currentContent := or_empty (streamingContent session) in
      d <~ newDate ;;
      updateSession sessionId
        (mkPatch None None None (Some (Val (currentContent +:+ content)))
                 {["lastStreamUpdate" := d]}) ;;
      ret tt
  | None => ret tt
  end ;;
  broadcastToSession sessionId ANALYSIS_STREAMING eventData.

Definition broadcastAnalysisCompleted (sessionId feedback0 : JsVal) : M unit :=
  let feedback := or_default feedback0 in
  iso <~ isoNow ;;
  let eventData := JObj [
    ("status", JStr "completed");
    ("message", JStr "AI analysis completed successfully");
    ("stage", JStr "analysis");
    ("feedback", feedback);
    ("completedAt", iso)] in
  updateStatus sessionId "completed" ;;
  d <~ newDate ;;
  updateSession sessionId
    (mkPatch None None None (Some Null)
       (<["feedback" := feedback]> {["completedAt" := d]})) ;;
  broadcastToSession sessionId ANALYSIS_COMPLETED eventData.

(** The [options] object of [broadcastError]. *)
Record ErrorOptions : Type := mkOptions {
  o_code : JsVal;
  o_retryable : JsVal;
  o_stage : JsVal;
  o_retryCount : Nullable Z
}.

(** [options.f], with [options = {}] when the argument is omitted. *)
Definition option_field {A} (options : Nullable ErrorOptions)
    (f : ErrorOptions → A) (absent : A) : M A :=
  match options with
  | Undefined => ret absent
  | Null => throw "TypeError"
  | Val o => ret (f o)
  end.

(** [v !== false]. *)
Definition not_false (v : JsVal) : bool :=
  match v with JBool false => false | _ => true end.

Definition broadcastError (sessionId error : JsVal)
    (options : Nullable ErrorOptions) : M unit :=
  let errorMessage := match error with JError m _ => JStr m | _ => error end in
  c1 <~ js_get error "code" ;;
  errorCode <~ (if truthy c1 then ret c1
                else c2 <~ option_field options o_code JUndefined ;;
                     ret (js_or c2 (JStr "UNKNOWN_ERROR"))) ;;
  retryable <~ option_field options o_retryable JUndefined ;;
  stage <~ option_field options o_stage JUndefined ;;
  count <~ option_field options o_retryCount Undefined ;;
  let eventData := JObj [
    ("status", JStr "error");
    ("message", errorMessage);
    ("error", JObj [("code", errorCode);
                    ("message", errorMessage);
                    ("retryable", JBool (not_false retryable));
                    ("stage", js_or stage (JStr "unknown"))]);
    ("retryCount", JNum (or_zero count))] in
  updateStatus sessionId "error" ;;
  count' <~ option_field options o_retryCount Undefined ;;
  updateSession sessionId
    (mkPatch None None (Some (Val (or_zero count'))) None
       (<["lastError" := errorMessage]> {["errorCode" := errorCode]})) ;;
  broadcastToSession sessionId ERROR_OCCURRED eventData.

Definition broadcastRetryStarted (sessionId : JsVal) (retryCount : Nullable Z)
    (stage0 : option string) : M unit :=
  let stage := default "analysis" stage0 in
  let eventData := JObj [
    ("status", JStr "retrying");
    ("message", JStr ("Retrying " +:+ stage +:+ "... (Attempt "
                      +:+ num_text retryCount +:+ ")"));
    ("retryInfo", JObj [("attempt", num_val retryCount);
                        ("stage", JStr stage);
                        ("maxAttempts", JNum 3)])] in
  updateSession sessionId (mkPatch None (Some "retrying") (Some retryCount) None ∅) ;;
  broadcastToSession sessionId RETRY_STARTED eventData.

(** One call of a lifecycle method, with its arguments. *)
Inductive Call : Type :=
| UploadStarted (sessionId fileInfo : JsVal)
| UploadCompleted (sessionId fileInfo : JsVal)
| ExtractionStarted (sessionId : JsVal)
| ExtractionCompleted (sessionId extractionResult : JsVal)
| AnalysisStarted (sessionId : JsVal)
| AnalysisStreaming (sessionId : JsVal) (content : string) (metadata : JsVal)
| AnalysisCompleted (sessionId feedback : JsVal)
| Error (sessionId error : JsVal) (options : Nullable ErrorOptions)
| RetryStarted (sessionId : JsVal) (retryCount : Nullable Z) (stage : option string).

(** The statements of a lifecycle method up to its closing [console.log]. *)
Definition body (c : Call) : M unit :=
  match c with
  | UploadStarted sid f => broadcastUploadStarted sid f
  | UploadCompleted sid f => broadcastUploadCompleted sid f
  | ExtractionStarted sid => broadcastExtractionStarted sid
  | ExtractionCompleted sid r => broadcastExtractionCompleted sid r
  | AnalysisStarted sid => broadcastAnalysisStarted sid
  | AnalysisStreaming sid c m => broadcastAnalysisStreaming sid c m
  | AnalysisCompleted sid f => broadcastAnalysisCompleted sid f
  | Error sid e o => broadcastError sid e o
  | RetryStarted sid n st => broadcastRetryStarted sid n st
  end.

(** The values the closing [console.log] of a method puts into its template
    literal: the session id, with the error message in [broadcastError] and
    the count in [broadcastRetryStarted]. [broadcastAnalysisStreaming] has
    no closing log. *)
Definition logged (c : Call) : list JsVal :=
  match c with
  | UploadStarted sid _ | UploadCompleted sid _ | ExtractionStarted sid
  | ExtractionCompleted sid _ | AnalysisStarted sid
  | AnalysisCompleted sid _ => [sid]
  | AnalysisStreaming _ _ _ => []
  | Error sid e _ => [sid; match e with JError m _ => JStr m | _ => e end]
  | RetryStarted sid n _ => [sid; num_val n]
  end.

(** A template literal over [parts]: each part is converted to a string in
    turn, and a part that cannot be converted is a [TypeError]. The text
    itself only reaches the console. *)
Definition templateLiteral (parts : list JsVal) : M unit :=
  if forallb printable parts then ret tt else throw "TypeError".

(** One call of a lifecycle method: its statements, then its closing log. *)
Definition run (c : Call) : M unit :=
  body c ;; templateLiteral (logged c).

Definition calledOn (c : Call) : JsVal :=
  match c with
  | UploadStarted sid _ | UploadCompleted sid _ | ExtractionStarted sid
  | ExtractionCompleted sid _ | AnalysisStarted sid
  | AnalysisStreaming sid _ _ | AnalysisCompleted sid _
  | Error sid _ _ | RetryStarted sid _ _ => sid
  end.

End EventBroadcaster.

(** ** The SSE routes (routes/sse.js) *)

Module SseRoutes.

Import SessionManager SseManager.

Definition allowedOrigins : list string :=
  ["http://localhost:5173";
   "https://extraordinary-dieffenbachia-757a4c.netlify.app"].

(** What a handler reads from the request. *)
Record Request : Type := mkRequest {
  params_sessionId : JsVal;
  headers_origin : JsVal
}.

(** [!sessionId || typeof sessionId !== 'string']. *)
Definition badSessionId (v : JsVal) : bool :=
  negb (truthy v) || match v with JStr _ => false | _ => true end.

Definition reject (res : nat) (code : Z) (error errorCode : string) : M unit :=
  Http.setStatus res code ;;
  Http.json res (JObj [("error", JStr error); ("code", JStr errorCode)]).

Definition errorEvent (res : nat) (error : string) : M unit :=
  Http.write res (SseEvent "error" (JObj [("error", JStr error)])) ;;
  Http.finish res.

(** The snapshot sent when the session is completed and has feedback. *)
Definition completedSnapshot (session : Session) (now : Z) : JsVal :=
  JObj [
    ("status", JStr "completed");
    ("message", JStr "Analysis completed successfully");
    ("stage", JStr "analysis");
    ("feedback", prop session "feedback");
    ("completedAt", js_or (prop session "completedAt") (JIso now))].

(** The snapshot sent otherwise. *)
Definition statusSnapshot (session : Session) : JsVal :=
  JObj [
    ("status", JStr (status session));
    ("message", JStr ("Current status: " +:+ status session));
    ("sessionData", JObj [("sessionId", JStr (sessionId session));
                          ("status", JStr (status session));
                          ("createdAt", JDate (createdAt session));
                          ("updatedAt", JDate (updatedAt session))])].

(** GET /events/:sessionId *)
Definition getEvents (req : Request) (res : nat) : M unit :=
  let sid := params_sessionId req in
  match headers_origin req with
  | JStr origin =>
      if bool_decide (origin ∈ allowedOrigins) then
        Http.setHeader res "Access-Control-Allow-Origin" origin ;;
        Http.setHeader res "Access-Control-Allow-Credentials" "true" ;;
        Http.setHeader res "Content-Type" "text/event-stream" ;;
        Http.setHeader res "Cache-Control" "no-cache" ;;
        Http.setHeader res "Connection" "keep-alive" ;;
        Http.flushHeaders res ;;
        if badSessionId sid then errorEvent res "Invalid session ID"
        else
          session <~ getSession sid ;;
          match session with
          | None => errorEvent res "Session not found"
          | Some session =>
              connected <~ createConnection sid res ;;
              if negb connected then errorEvent res "SSE connection failed"
              else
                (if String.eqb (status session) "completed"
                    && truthy (prop session "feedback")
                 then w <~ get_world ;;
                      broadcastToSession sid "analysis.completed"
                        (completedSnapshot session (clock w))
                 else broadcastToSession sid "session.status"
                        (statusSnapshot session)) ;;
                extendSession sid None ;;
                ret tt
          end
      else reject res 403 "CORS Error: Origin not allowed" "CORS_NOT_ALLOWED"
  | _ => reject res 403 "CORS Error: Origin not allowed" "CORS_NOT_ALLOWED"
  end.

(** The handler registered with [req.on('close', ...)]. *)
Definition onClose (req : Request) (res : nat) : M unit :=
  removeClient (params_sessionId req) res.

(** GET /events/:sessionId/status *)
Definition getStatus (req : Request) (res : nat) : M unit :=
  let sid := params_sessionId req in
  if badSessionId sid
  then reject res 400 "Invalid session ID" "INVALID_SESSION_ID"
  else
    session <~ getSession sid ;;
    match session with
    | None => reject res 404 "Session not found" "SESSION_NOT_FOUND"
    | Some session =>
        n <~ getConnectionCount sid ;;
        Http.json res (JObj [
          ("success", JBool true);
          ("sessionId", JStr (sessionId session));
          ("status", JStr (status session));
          ("createdAt", JDate (createdAt session));
          ("updatedAt", JDate (updatedAt session));
          ("hasActiveConnections", JBool (bool_decide (0 < n)%nat));
          ("retryCount", JNum (or_zero (retryCount session)))])
    end.

(** POST /events/:sessionId/retry *)
Definition postRetry (req : Request) (res : nat) : M unit :=
  let sid := params_sessionId req in
  if badSessionId sid
  then reject res 400 "Invalid session ID" "INVALID_SESSION_ID"
  else
    session <~ getSession sid ;;
    match session with
    | None => reject res 404 "Session not found" "SESSION_NOT_FOUND"
    | Some session =>
        if negb (String.eqb (status session) "error")
        then reject res 400 "Session is not in error state" "INVALID_SESSION_STATE"
        else
          let newRetryCount := or_zero (retryCount session) + 1 in
          if 3 <? newRetryCount
          then reject res 400 "Maximum retry attempts exceeded" "MAX_RETRIES_EXCEEDED"
          else
            updateSession sid
              (mkPatch None (Some "retrying") (Some (Val newRetryCount)) None
                       {["lastError" := JNull]}) ;;
            EventBroadcaster.broadcastRetryStarted sid (Val newRetryCount) None ;;
            Http.json res (JObj [
              ("success", JBool true);
              ("message", JStr "Retry initiated");
              ("sessionId", sid);
              ("retryCount", JNum newRetryCount)])
    end.

(** DELETE /events/:sessionId *)
Definition deleteEvents (req : Request) (res : nat) : M unit :=
  let sid := params_sessionId req in
  if badSessionId sid
  then reject res 400 "Invalid session ID" "INVALID_SESSION_ID"
  else
    closeSessionConnections sid ;;
    Http.json res (JObj [
      ("success", JBool true);
      ("message", JStr "SSE connections closed");
      ("sessionId", sid)]).

End SseRoutes.

(** ** Vocabulary of the properties *)

(** The session stored under an id, expired or not. *)
Definition stored (w : World) (sid : JsVal) : option Session :=
  id ← SessionManager.validId sid; sessions w !! id.

(** A response after one more chunk was written to it. *)
Definition received (c : Chunk) (x : Response) : Response :=
  mkResponse (alive x) (statusCode x) (headers x) true (written x ++ [c]) (ended x).

(** What a broadcast of [c] does to a registered response. *)
Definition delivered (c : Chunk) (x : Response) : Response :=
  if alive x then received c x else x.

(** Whether a write to the response object [r] succeeds. *)
Definition writable (w : World) (r : nat) : bool :=
  match responses w !! r with
  | Some x => alive x
  | None => false
  end.

(** [v.k] of an object literal. *)
Definition field (v : JsVal) (k : string) : JsVal :=
  match v with
  | JObj ps => assoc k ps
  | _ => JUndefined
  end.

(** The response [res] was answered with HTTP status [code] and a JSON
    body whose [code] property is [errorCode]. *)
Definition rejectedWith (res : nat) (code : Z) (errorCode : string)
    (w w' : World) : Prop :=
  ∃ x x' body,
    responses w !! res = Some x ∧ responses w' !! res = Some x' ∧
    statusCode x' = code ∧ written x' = written x ++ [JsonBody body] ∧
    field body "code" = JStr errorCode.

(** A retry count within the ceiling of three. *)
Definition withinLimit (n : Nullable Z) : Prop :=
  match n with
  | Val k => k ≤ 3
  | _ => True
  end.

(** Every stored session has a retry count within the ceiling. *)
Definition bounded (w : World) : Prop :=
  ∀ id s, sessions w !! id = Some s → withinLimit (retryCount s).

(** Arguments other than the session id are of their documented kinds:
    an object or omitted, an [Error] or a value with properties. *)
Definition wellFormed (c : EventBroadcaster.Call) : Prop :=
  match c with
  | EventBroadcaster.UploadStarted _ v
  | EventBroadcaster.UploadCompleted _ v
  | EventBroadcaster.ExtractionCompleted _ v
  | EventBroadcaster.AnalysisStreaming _ _ v => v ≠ JNull
  | EventBroadcaster.Error _ e o => e ≠ JNull ∧ e ≠ JUndefined ∧ o ≠ Null
  | _ => True
  end.

(** Every value the closing log of the call interpolates converts to a
    string. *)
Definition loggable (c : EventBroadcaster.Call) : Prop :=
  Forall (λ v, printable v = true) (EventBroadcaster.logged c).

(** The operations of the system on the process state. *)
Inductive Op : Type :=
| Tick (dt : Z)
| Create (fresh : string) (init : SessionPatch)
| Update (sid : JsVal) (p : SessionPatch)
| UpdateStatus (sid : JsVal) (st : string)
| Extend (sid : JsVal) (extra : option Z)
| Delete (sid : JsVal)
| ClearAll
| Sweep
| Broadcast (c : EventBroadcaster.Call)
| Subscribe (req : SseRoutes.Request) (res : nat)
| Disconnect (req : SseRoutes.Request) (res : nat)
| Retry (req : SseRoutes.Request) (res : nat)
| CloseConnections (req : SseRoutes.Request) (res : nat).

Definition exec (w : World) (o : Op) : World :=
  match o with
  | Tick dt => mkWorld (clock w + dt) (sessions w) (sessionTimeout w)
                 (connections w) (responses w)
  | Create fresh init => final (SessionManager.createSession fresh init w)
  | Update sid p => final (SessionManager.updateSession sid p w)
  | UpdateStatus sid st => final (SessionManager.updateStatus sid st w)
  | Extend sid extra => final (SessionManager.extendSession sid extra w)
  | Delete sid => final (SessionManager.deleteSession sid w)
  | ClearAll => final (SessionManager.clearAllSessions w)
  | Sweep => final (SessionManager.cleanupExpiredSessions w)
  | Broadcast c => final (EventBroadcaster.run c w)
  | Subscribe req res => final (SseRoutes.getEvents req res w)
  | Disconnect req res => final (SseRoutes.onClose req res w)
  | Retry req res => final (SseRoutes.postRetry req res w)
  | CloseConnections req res => final (SseRoutes.deleteEvents req res w)
  end.

(** The retry count an operation hands to the store, if it names one
    itself; the retry endpoint computes its own. *)
Definition countGiven (o : Op) : Nullable Z :=
  match o with
  | Create _ init | Update _ init => default Undefined (p_retryCount init)
  | Broadcast (EventBroadcaster.RetryStarted _ n _) => n
  | Broadcast (EventBroadcaster.Error _ _ (Val o)) => EventBroadcaster.o_retryCount o
  | _ => Undefined
  end.

(** A specification of a computation: from a state satisfying [P] it
    either returns [a] in a state satisfying [Q a] or throws in a state
    satisfying [E]. *)
Definition triple {A} (P : World → Prop) (m : M A)
    (Q : A → World → Prop) (E : World → Prop) : Prop :=
  ∀ w, P w → match m w with
             | Ret a w' => Q a w'
             | Throw _ w' => E w'
             end.

(** [m] keeps the invariant [I] when it returns, and throws only into [E]. *)
Definition preserves {A} (I E : World → Prop) (m : M A) : Prop :=
  triple I m (λ _, I) E.


(** The store is as in [w0] if [w0] has no session under [sid]. *)
Definition untouched (w0 : World) (sid : JsVal) (w : World) : Prop :=
  stored w0 sid = None → sessions w = sessions w0.

(** The retry count a patch names is within the ceiling. *)
Definition patchWithinLimit (p : SessionPatch) : Prop :=
  withinLimit (default Undefined (p_retryCount p)).

(** A property of the state that only reads the session store. *)
Definition storeOnly (I : World → Prop) : Prop :=
  ∀ w w', sessions w' = sessions w → I w → I w'.

(** The retry count that [options] provides, if any. *)
Definition providedCount (options : Nullable EventBroadcaster.ErrorOptions) : option Z :=
  match options with
  | Val o => match EventBroadcaster.o_retryCount o with
             | Val n => Some n
             | _ => None
             end
  | _ => None
  end.

(** What the system shows of a session that reads do not see. *)
Definition treatedAsAbsent (w : World) (sid : JsVal) : Prop :=
  SessionManager.getSession sid w = Ret None w ∧
  SessionManager.sessionExists sid w = Ret false w ∧
  ∀ origin res x,
    origin ∈ SseRoutes.allowedOrigins → responses w !! res = Some x → alive x = true →
    ∃ w' x', SseRoutes.getEvents (SseRoutes.mkRequest sid (JStr origin)) res w = Ret tt w' ∧
             sessions w' = sessions w ∧
             connections w' = connections w ∧
             responses w' !! res = Some x' ∧
             written x' = written x ++
               [SseEvent "error" (JObj [("error", JStr "Session not found")])] ∧
             ended x' = true.

(** An empty process at time 0 with a thirty-minute timeout. *)
Definition emptyWorld : World := mkWorld 0 ∅ 1800000 ∅ ∅.

(** ** Sample data *)

Module Demo.

Definition failed : Session :=
  mkSession "s1" "error" 100 200 (Some 5000) (Val 3) Undefined
    {["lastError" := JStr "boom"]}.

Definition analyzing : Session :=
  mkSession "s2" "analyzing" 100 200 (Some 5000) (Val 1) (Val "Strong ") ∅.

Definition completed : Session :=
  mkSession "s3" "completed" 100 300 (Some 5000) (Val 0) Null
    {["feedback" := JObj [("score", JNum 8)]]}.

Definition expired : Session :=
  mkSession "s4" "analyzing" 100 200 (Some 900) (Val 0) Undefined ∅.

Definition closed : Response := mkResponse false 200 [] true [] true.

(** Four sessions at time 1000; session s2 has three subscribers, the
    second of which has lost its socket; responses 7 and 8 are new. *)
Definition world : World :=
  mkWorld 1000
    (<["s1" := failed]> (<["s2" := analyzing]> (<["s3" := completed]>
       {["s4" := expired]})))
    1800000
    {["s2" := {[0%nat; 1%nat; 2%nat]}]}
    (<[0%nat := freshResponse]> (<[1%nat := closed]> (<[2%nat := freshResponse]>
       (<[7%nat := freshResponse]> {[8%nat := freshResponse]})))).

Definition local : JsVal := JStr "http://localhost:5173".

(** A session fails and is retried four times, failing again in between. *)
Definition retryRequest : SseRoutes.Request := SseRoutes.mkRequest (JStr "s1") local.

Definition scenario : list Op :=
  [Create "s1" emptyPatch;
   Broadcast (EventBroadcaster.Error (JStr "s1") (JError "boom" []) Undefined);
   Retry retryRequest 7; UpdateStatus (JStr "s1") "error";
   Retry retryRequest 7; UpdateStatus (JStr "s1") "error";
   Retry retryRequest 7; UpdateStatus (JStr "s1") "error";
   Retry retryRequest 7].

End Demo.

(** ** The advanced analysis route (routes/advanced.js) *)

Module AdvancedRoutes.

Import SessionManager SseManager EventBroadcaster.

(** How the promise of [geminiService.analyzeResumeAdvanced] settles: with
    the feedback, or with an [Error] of the given message. *)
Inductive Settled : Type :=
| Resolved (feedback : JsVal)
| Rejected (message : string).

(** What happens while [performAdvancedAnalysis] is suspended at an
    [await]: time passes, and the other handlers of the process run;
    [others] is what they make of the state in the meantime. *)
Record Await : Type := mkAwait {
  wait : Z;
  others : World → World
}.

(** One run of [geminiService.analyzeResumeAdvanced], as its caller sees
    it: the chunks it hands to [onChunk], each after an await, and the way
    its promise settles after a last one. *)
Record Analysis : Type := mkAnalysis {
  chunks : list (Await * string);
  settleAfter : Await;
  settled : Settled
}.

(** Time passing. *)
Definition elapse (dt : Z) : M unit :=
  modify (λ w, mkWorld (clock w + dt) (sessions w) (sessionTimeout w)
                 (connections w) (responses w)).

(** One [await]: the caller resumes in the state the others left. *)
Definition suspend (a : Await) : M unit :=
  elapse (wait a) ;; modify (others a).

(** The callback [(chunk) => eventBroadcaster.broadcastAnalysisStreaming(sessionId, chunk)],
    called once per chunk as the stream is read. *)
Definition onChunks (sessionId : JsVal) (cs : list (Await * string)) : M unit :=
  for_each cs (λ c, suspend c.1 ;; run (AnalysisStreaming sessionId c.2 JUndefined)).

(** The options of the error broadcast. *)
Definition failureOptions : ErrorOptions :=
  mkOptions (JStr "ADVANCED_ANALYSIS_FAILED") (JBool true)
            (JStr "advanced_analysis") Undefined.

(** [performAdvancedAnalysis], an [async] function: it runs up to its first
    [await] when it is called and in pieces afterwards, the rest of the
    process running in between. The exception of the model carries the
    message of the error; the [catch] block logs the session id in a
    template literal before it broadcasts. *)
Definition performAdvancedAnalysis (sessionId : JsVal) (a : Analysis) : M unit :=
  try_catch
    (run (AnalysisStarted sessionId) ;;
     onChunks sessionId (chunks a) ;;
     suspend (settleAfter a) ;;
     match settled a with
     | Resolved feedback =>
         iso <~ isoNow ;;
         updateSession sessionId
           (mkPatch None (Some "completed") None None
              (<["feedback" := feedback]>
                 (<["analysisType" := JStr "advanced"]> {["completedAt" := iso]}))) ;;
         run (AnalysisCompleted sessionId feedback)
     | Rejected message => throw message
     end)
    (λ message,
       templateLiteral [sessionId] ;;
       run (Error sessionId (JStr message) (Val failureOptions))).

(** The body of POST /advanced/analyze. *)
Record AnalyzeBody : Type := mkAnalyzeBody {
  body_sessionId : JsVal;
  body_resumeText : JsVal
}.

(** POST /advanced/analyze; [hasKey] tells whether GEMINI_API_KEY is set,
    without which [new GeminiService()] throws. *)
Definition postAnalyze (body : AnalyzeBody) (hasKey : bool) (a : Analysis)
    (res : nat) : M unit :=
  if negb (truthy (body_sessionId body)) || negb (truthy (body_resumeText body))
  then SseRoutes.reject res 400 "Session ID and resume text are required"
         "MISSING_PARAMETERS"
  else
    session <~ getSession (body_sessionId body) ;;
    match session with
    | None => SseRoutes.reject res 404 "Session not found" "SESSION_NOT_FOUND"
    | Some _ =>
        if hasKey then
          Http.setStatus res 200 ;;
          Http.json res (JObj [("success", JBool true);
                               ("sessionId", body_sessionId body);
                               ("message", JStr "Advanced analysis started");
                               ("status", JStr "processing")]) ;;
          performAdvancedAnalysis (body_sessionId body) a
        else SseRoutes.reject res 500 "Failed to start advanced analysis"
               "ADVANCED_ANALYSIS_ERROR"
    end.

End AdvancedRoutes.

(** ** The general session update (services/eventBroadcaster.js) *)

Module SessionUpdates.

Import SessionManager SseManager EventBroadcaster.





End SessionUpdates.
(** ** The cleanup of uploaded files (class FileCleanupService) *)

Module FileCleanup.

(** What the file system calls of the service see of one entry of the
    uploads directory: its modification time when [statSync] succeeds,
    whether [existsSync] finds it, and whether [unlinkSync] removes it
    rather than throwing (as it does on a directory). *)
Record Entry : Type := mkEntry {
  mtime : option Z;
  found : bool;
  unlinks : bool
}.

(** The uploads directory by file name; paths are relative to it. *)
Abbreviation Dir := (gmap string Entry).

(** [this.maxFileAge], ten minutes in milliseconds. *)
Definition maxFileAge : Z := 10 * 60 * 1000.

(** [file.startsWith('.')]. *)
Definition startsWithDot (file : string) : bool := String.prefix "." file.

(** [deleteFile]: true when the file was there and was removed, false when
    it was not there or removing it threw. *)
Definition deleteFile (filePath : string) (dir : Dir) : bool * Dir :=
  match dir !! filePath with
  | Some e =>
      if found e
      then if unlinks e then (true, delete filePath dir) else (false, dir)
      else (false, dir)
  | None => (false, dir)
  end.

(** The body of the loop of [cleanupOldFiles] for the files still to visit. *)
Fixpoint sweep (now : Z) (files : list string) (dir : Dir) (deletedCount : Z)
    : Z * Dir :=
  match files with
  | [] => (deletedCount, dir)
  | file :: files' =>
      if startsWithDot file then sweep now files' dir deletedCount
      else
        match dir !! file ≫= mtime with
        | Some m =>
            let fileAge := now - m in
            if maxFileAge <? fileAge
            then sweep now files' (deleteFile file dir).2 (deletedCount + 1)
            else sweep now files' dir deletedCount
        | None => sweep now files' dir deletedCount
        end
  end.

(** [fs.readdirSync(this.uploadsDir)]. *)
Definition readdirSync (dir : Dir) : list string := (map_to_list dir).*1.

(** [cleanupOldFiles] at the time [now]; the uploads directory may be
    missing. *)
Definition cleanupOldFiles (now : Z) (uploads : option Dir) : Z * option Dir :=
  match uploads with
  | None => (0, None)
  | Some dir =>
      let '(deletedCount, dir') := sweep now (readdirSync dir) dir 0 in
      (deletedCount, Some dir')
  end.

End FileCleanup.
(** ** Parsing the replies of the model (services/geminiService.js) *)

Module GeminiService.

(** A number as [JSON.parse] gives it: [mantissa * 2 ^ exponent], or an
    infinity for a literal out of range. *)
Inductive Double : Type :=
| Finite (mantissa exponent : Z)
| Infinity (negative : bool).

(** The values [JSON.parse] returns. *)
Inductive Json : Type :=
| JsonNull
| JsonBool (b : bool)
| JsonNumber (d : Double)
| JsonString (s : string)
| JsonArray (items : list Json)
| JsonObject (props : list (string * Json)).

(** [new Error(message)] and the other exceptions, by their message. *)
Inductive Result (A : Type) : Type :=
| Ok (a : A)
| Err (message : string).
Arguments Ok {A} a.
Arguments Err {A} message.

Definition and_then {A B} (r : Result A) (k : A → Result B) : Result B :=
  match r with
  | Ok a => k a
  | Err message => Err message
  end.

(** Own-property lookup in a parsed object. *)
Fixpoint lookup_prop (k : string) (ps : list (string * Json)) : option Json :=
  match ps with
  | [] => None
  | (k', v) :: ps' => if String.eqb k k' then Some v else lookup_prop k ps'
  end.

(** [v[k]] for the property names the service reads, none of which a
    string, an array or a prototype has: [None] is [undefined], and the
    read throws on [null]. *)
Definition get (v : Json) (k : string) : Result (option Json) :=
  match v with
  | JsonNull => Err "TypeError"
  | JsonObject ps => Ok (lookup_prop k ps)
  | _ => Ok None
  end.

(** [!!v]. *)
Definition truthy (v : option Json) : bool :=
  match v with
  | None | Some JsonNull => false
  | Some (JsonBool b) => b
  | Some (JsonNumber (Finite m _)) => negb (m =? 0)
  | Some (JsonNumber (Infinity _)) => true
  | Some (JsonString s) => negb (String.eqb s "")
  | Some (JsonArray _) | Some (JsonObject _) => true
  end.

(** [Array.isArray(v)]. *)
Definition isArray (v : option Json) : bool :=
  match v with Some (JsonArray _) => true | _ => false end.

(** [v.k] where [v] was read from an object and found truthy. *)
Definition get_in (v : option Json) (k : string) : option Json :=
  match v with
  | Some (JsonObject ps) => lookup_prop k ps
  | _ => None
  end.

(** The loop over [requiredFields]. *)
Fixpoint requireFields (feedback : Json) (requiredFields : list string) : Result unit :=
  match requiredFields with
  | [] => Ok tt
  | field :: fields =>
      and_then (get feedback field) (λ v,
        if negb (truthy v) then Err ("Missing required field: " +:+ field)
        else requireFields feedback fields)
  end.

(** [validateFeedbackStructure]. *)
Definition validateFeedbackStructure (feedback : Json) : Result unit :=
  and_then (requireFields feedback ["clarity"; "grammar"; "skills"; "improvements"]) (λ _,
  and_then (get feedback "clarity") (λ clarity,
  if negb (truthy (get_in clarity "score")) || negb (isArray (get_in clarity "suggestions"))
  then Err "Invalid clarity structure" else
  and_then (get feedback "grammar") (λ grammar,
  if negb (truthy (get_in grammar "score")) || negb (isArray (get_in grammar "corrections"))
  then Err "Invalid grammar structure" else
  and_then (get feedback "skills") (λ skills,
  if negb (isArray (get_in skills "relevantSkills"))
  then Err "Invalid skills structure" else
  and_then (get feedback "improvements") (λ improvements,
  if negb (isArray improvements)
  then Err "Invalid improvements structure" else Ok tt))))).

(** [validateAdvancedFeedbackStructure]. *)
Definition validateAdvancedFeedbackStructure (feedback : Json) : Result unit :=
  requireFields feedback
    ["overallScore"; "atsOptimization"; "jobFit"; "clarity"; "grammar"; "skills";
     "experience"; "improvements"].

Definition num (n : Z) : Json := JsonNumber (Finite n 0).
Definition texts (l : list string) : Json := JsonArray (JsonString <$> l).

(** [getFallbackFeedback]. *)
Definition getFallbackFeedback : Json :=
  JsonObject [
    ("clarity", JsonObject [
       ("score", num 5);
       ("suggestions", texts ["Unable to analyze clarity - please try again"]);
       ("strengths", texts []);
       ("weaknesses", texts [])]);
    ("grammar", JsonObject [
       ("score", num 5);
       ("corrections", texts ["Unable to analyze grammar - please try again"]);
       ("improvements", texts [])]);
    ("skills", JsonObject [
       ("relevantSkills", texts []);
       ("missingSkills", texts []);
       ("recommendations", texts ["Unable to analyze skills - please try again"])]);
    ("improvements", JsonArray [
       JsonObject [
         ("category", JsonString "content");
         ("priority", JsonString "medium");
         ("suggestion",
          JsonString "Analysis failed - please try uploading your resume again");
         ("example",
          JsonString
            "Ensure your PDF is not password protected and contains readable text")]])].

(** [getAdvancedFallbackFeedback]. *)
Definition getAdvancedFallbackFeedback : Json :=
  JsonObject [
    ("overallScore", num 5);
    ("atsOptimization", JsonObject [
       ("score", num 5);
       ("keywordMatch", num 0);
       ("missingKeywords", texts []);
       ("suggestedKeywords", texts []);
       ("formattingIssues", texts ["Unable to analyze"])]);
    ("jobFit", JsonObject [
       ("score", num 5);
       ("alignment", texts []);
       ("gaps", texts []);
       ("recommendations", texts ["Unable to analyze"])]);
    ("clarity", JsonObject [
       ("score", num 5);
       ("suggestions", texts ["Unable to analyze"]);
       ("strengths", texts []);
       ("weaknesses", texts [])]);
    ("grammar", JsonObject [
       ("score", num 5);
       ("corrections", texts ["Unable to analyze"]);
       ("improvements", texts [])]);
    ("skills", JsonObject [
       ("relevantSkills", texts []);
       ("missingSkills", texts []);
       ("skillGaps", texts []);
       ("recommendations", texts ["Unable to analyze"])]);
    ("experience", JsonObject [
       ("relevance", num 5);
       ("gaps", texts []);
       ("suggestions", texts ["Unable to analyze"]);
       ("quantifiedAchievements", texts [])]);
    ("salaryEstimate", JsonObject [
       ("range", JsonString "Unknown");
       ("confidence", num 0);
       ("factors", texts [])]);
    ("improvements", JsonArray [
       JsonObject [
         ("category", JsonString "content");
         ("priority", JsonString "medium");
         ("suggestion", JsonString "Analysis failed - please try again");
         ("example", JsonString "Ensure your PDF is readable");
         ("impact", JsonString "medium")]]);
    ("industryInsights", JsonObject [
       ("trends", texts []);
       ("recommendations", texts []);
       ("competitorAnalysis", texts [])])].

(** [s.indexOf(needle)]. *)
Fixpoint indexOf (needle s : string) : Z :=
  if String.prefix needle s then 0
  else match s with
       | EmptyString => -1
       | String _ s' => let i := indexOf needle s' in if i <? 0 then -1 else i + 1
       end.

(** [s.lastIndexOf(needle)]. *)
Fixpoint lastIndexOf (needle s : string) : Z :=
  match s with
  | EmptyString => if String.prefix needle s then 0 else -1
  | String _ s' =>
      let i := lastIndexOf needle s' in
      if 0 <=? i then i + 1
      else if String.prefix needle s then 0 else -1
  end.

(** [s.substring(start, end)]: both indices are clamped to the string and
    swapped when they come in the wrong order. *)
Definition substring (s : string) (start end_ : Z) : string :=
  let len := Z.of_nat (String.length s) in
  let a := Z.max 0 (Z.min start len) in
  let b := Z.max 0 (Z.min end_ len) in
  String.substring (Z.to_nat (Z.min a b)) (Z.to_nat (Z.max a b - Z.min a b)) s.

Section Parsing.

(** [String.prototype.trim] and [JSON.parse]; the latter gives [None] where
    it throws a [SyntaxError]. *)
Variable trim : string → string.
Variable JSON_parse : string → option Json.

(** [parseResponse]; the exceptions of the [try] block end in [Err]. *)
Definition parseResponse (response : string) : Json :=
  let cleanResponse := trim response in
  let jsonStart := indexOf "{" cleanResponse in
  let jsonEnd := lastIndexOf "}" cleanResponse in
  let attempt :=
    if (jsonStart =? -1) || (jsonEnd =? -1)
    then Err "No valid JSON found in response"
    else
      let jsonString := substring cleanResponse jsonStart (jsonEnd + 1) in
      match JSON_parse jsonString with
      | Some parsed => and_then (validateFeedbackStructure parsed) (λ _, Ok parsed)
      | None => Err "SyntaxError"
      end in
  match attempt with
  | Ok parsed => parsed
  | Err _ => getFallbackFeedback
  end.

(** [parseAdvancedResponse]. *)
Definition parseAdvancedResponse (response : string) : Json :=
  let cleanResponse := trim response in
  let jsonStart := indexOf "{" cleanResponse in
  let jsonEnd := lastIndexOf "}" cleanResponse in
  let attempt :=
    if (jsonStart =? -1) || (jsonEnd =? -1)
    then Err "No valid JSON found in response"
    else
      let jsonString := substring cleanResponse jsonStart (jsonEnd + 1) in
      match JSON_parse jsonString with
      | Some parsed =>
          and_then (validateAdvancedFeedbackStructure parsed) (λ _, Ok parsed)
      | None => Err "SyntaxError"
      end in
  match attempt with
  | Ok parsed => parsed
  | Err _ => getAdvancedFallbackFeedback
  end.

End Parsing.

End GeminiService.
(** ** Vocabulary of the further properties *)

(** A retry request for [sid] passes every guard of the retry endpoint. *)
Definition retryAllowed (w : World) (sid : JsVal) : Prop :=
  ∃ s, SessionManager.lookupLive w sid = Some s ∧ status s = "error" ∧
       or_zero (retryCount s) + 1 ≤ 3.

(** A count on which the number arithmetic of the code is that of the
    integers: up to 2^53 in size a double holds every integer, adds 1
    without rounding and prints all its digits. *)
Definition safeCount (n : Z) : Prop := - 2 ^ 53 ≤ n ≤ 2 ^ 53.

(** A retry request followed by the retried work failing again. *)
Definition retryRound (req : SseRoutes.Request) (res : nat) (w : World) : World :=
  exec (exec w (Retry req res)) (UpdateStatus (SseRoutes.params_sessionId req) "error").

(** The payload of [retry.started] for the attempt [n] of the analysis. *)
Definition retryStartedEvent (n : Z) : JsVal :=
  JObj [
    ("status", JStr "retrying");
    ("message", JStr ("Retrying analysis... (Attempt " +:+ pretty n +:+ ")"));
    ("retryInfo", JObj [("attempt", JNum n);
                        ("stage", JStr "analysis");
                        ("maxAttempts", JNum 3)])].

(** The session stored under [id] is still there, with the identity and
    the expiry of [s0]. *)
Definition sameSession (id : string) (s0 : Session) (w : World) : Prop :=
  ∃ s, sessions w !! id = Some s ∧ sessionId s = sessionId s0 ∧
       createdAt s = createdAt s0 ∧ expiresAt s = expiresAt s0.

(** What is stored under [id] is [o]. *)
Definition storedAs (id : string) (o : option Session) (w : World) : Prop :=
  sessions w !! id = o.

(** [r] is an open response registered for [sid]; [x] is its state. *)
Definition listening (w : World) (sid : JsVal) (r : nat) (x : Response) : Prop :=
  r ∈ SseManager.channelsOf w sid ∧ responses w !! r = Some x ∧ alive x = true.

(** From [w] to [w'] one event was broadcast to [sid], and nothing else
    happened to the responses and to the session's registrations. *)
Definition announces (sid : JsVal) (event : string) (data : JsVal)
    (w w' : World) : Prop :=
  clock w' = clock w ∧
  (∀ r, responses w' !! r =
        if decide (r ∈ SseManager.channelsOf w sid)
        then delivered (SseEvent event data) <$> responses w !! r
        else responses w !! r) ∧
  (∀ r, r ∈ SseManager.channelsOf w' sid ↔
        r ∈ SseManager.channelsOf w sid ∧ writable w r = true).

(** The other handlers that run during an await leave alone the clock, the
    session stored under [id], the channels registered for [sid] and the
    responses behind them. *)
Definition undisturbed (sid : JsVal) (id : string) (f : World → World) : Prop :=
  ∀ v, clock (f v) = clock v ∧
       sessions (f v) !! id = sessions v !! id ∧
       SseManager.channelsOf (f v) sid = SseManager.channelsOf v sid ∧
       ∀ r, r ∈ SseManager.channelsOf v sid → responses (f v) !! r = responses v !! r.

(** An await during which time does not go back and the session and its
    subscribers are left alone. *)
Definition calm (sid : JsVal) (id : string) (a : AdvancedRoutes.Await) : Prop :=
  0 ≤ AdvancedRoutes.wait a ∧ undisturbed sid id (AdvancedRoutes.others a).

(** The text of the chunks, in order. *)
Definition textOf (cs : list (AdvancedRoutes.Await * string)) : string :=
  foldr (λ c t, c.2 +:+ t) "" cs.

(** The time the chunks take. *)
Definition waitOf (cs : list (AdvancedRoutes.Await * string)) : Z :=
  foldr (λ c t, AdvancedRoutes.wait c.1 + t) 0 cs.

(** The time a whole analysis takes. *)
Definition duration (a : AdvancedRoutes.Analysis) : Z :=
  waitOf (AdvancedRoutes.chunks a) + AdvancedRoutes.wait (AdvancedRoutes.settleAfter a).

(** The events of the analysis as a subscriber reads them. *)
Definition startedChunk : Chunk :=
  SseEvent "analysis.started"
    (JObj [("status", JStr "analyzing");
           ("message", JStr "AI analysis started...");
           ("stage", JStr "analysis")]).

Definition streamedChunk (c : AdvancedRoutes.Await * string) : Chunk :=
  SseEvent "analysis.streaming"
    (EventBroadcaster.streamingEvent c.2 (JNum 0) (JBool false) (JStr "general")).

Definition completedChunk (feedback : JsVal) (now : Z) : Chunk :=
  SseEvent "analysis.completed"
    (JObj [("status", JStr "completed");
           ("message", JStr "AI analysis completed successfully");
           ("stage", JStr "analysis");
           ("feedback", feedback);
           ("completedAt", JIso now)]).

Definition failedChunk (message : string) : Chunk :=
  SseEvent "error.occurred"
    (JObj [("status", JStr "error");
           ("message", JStr message);
           ("error", JObj [("code", JStr "ADVANCED_ANALYSIS_FAILED");
                           ("message", JStr message);
                           ("retryable", JBool true);
                           ("stage", JStr "advanced_analysis")]);
           ("retryCount", JNum 0)]).


(** Two runs of the analysis on session s2 of [Demo.world]: two chunks and
    the feedback, and one chunk before the service gives up. While the
    first chunk is awaited another request sets the status of session s1. *)
Module Sample.

Definition alone (dt : Z) : AdvancedRoutes.Await :=
  AdvancedRoutes.mkAwait dt (λ w, w).

Definition busy (dt : Z) : AdvancedRoutes.Await :=
  AdvancedRoutes.mkAwait dt (λ w, exec w (UpdateStatus (JStr "s1") "extracting")).

Definition resolving : AdvancedRoutes.Analysis :=
  AdvancedRoutes.mkAnalysis [(busy 10, "team "); (alone 20, "player.")] (alone 5)
    (AdvancedRoutes.Resolved (JObj [("score", JNum 9)])).

Definition rejecting : AdvancedRoutes.Analysis :=
  AdvancedRoutes.mkAnalysis [(busy 10, "team ")] (alone 5)
    (AdvancedRoutes.Rejected "Advanced analysis failed: quota").

End Sample.

(** The file is one the cleanup tries to delete at the time [now]: not
    hidden, with a modification time more than ten minutes back. *)
Definition due (now : Z) (file : string) (e : FileCleanup.Entry) : bool :=
  negb (FileCleanup.startsWithDot file) &&
  match FileCleanup.mtime e with
  | Some m => FileCleanup.maxFileAge <? now - m
  | None => false
  end.

(** The attempt to delete the entry succeeds. *)
Definition removable (e : FileCleanup.Entry) : bool :=
  FileCleanup.found e && FileCleanup.unlinks e.

(** The file is due but the attempt to delete it fails. *)
Definition stuck (now : Z) (file : string) (e : FileCleanup.Entry) : bool :=
  due now file e && negb (removable e).

(** The text the parsers hand to [JSON.parse]. *)
Definition jsonSpan (cleanResponse : string) : string :=
  GeminiService.substring cleanResponse
    (GeminiService.indexOf "{" cleanResponse)
    (GeminiService.lastIndexOf "}" cleanResponse + 1).

(** A response after [res.end()]. *)
Definition finished (x : Response) : Response :=
  mkResponse false (statusCode x) (headers x) (headersSent x) (written x) true.

(** The event a lifecycle call sends, and the status its payload names. *)
Definition eventOf (c : EventBroadcaster.Call) : string :=
  match c with
  | EventBroadcaster.UploadStarted _ _ => "upload.started"
  | EventBroadcaster.UploadCompleted _ _ => "upload.completed"
  | EventBroadcaster.ExtractionStarted _ => "extraction.started"
  | EventBroadcaster.ExtractionCompleted _ _ => "extraction.completed"
  | EventBroadcaster.AnalysisStarted _ => "analysis.started"
  | EventBroadcaster.AnalysisStreaming _ _ _ => "analysis.streaming"
  | EventBroadcaster.AnalysisCompleted _ _ => "analysis.completed"
  | EventBroadcaster.Error _ _ _ => "error.occurred"
  | EventBroadcaster.RetryStarted _ _ _ => "retry.started"
  end.

Definition statusSent (c : EventBroadcaster.Call) : string :=
  match c with
  | EventBroadcaster.UploadStarted _ _ => "uploading"
  | EventBroadcaster.UploadCompleted _ _ => "uploaded"
  | EventBroadcaster.ExtractionStarted _ => "extracting"
  | EventBroadcaster.ExtractionCompleted _ _ => "extracted"
  | EventBroadcaster.AnalysisStarted _ => "analyzing"
  | EventBroadcaster.AnalysisStreaming _ _ _ => "streaming"
  | EventBroadcaster.AnalysisCompleted _ _ => "completed"
  | EventBroadcaster.Error _ _ _ => "error"
  | EventBroadcaster.RetryStarted _ _ _ => "retrying"
  end.

(** The status a lifecycle call leaves on a session that had [before]:
    a streamed chunk is announced as [streaming] but stores no status. *)
Definition statusAfter (c : EventBroadcaster.Call) (before : string) : string :=
  match c with
  | EventBroadcaster.AnalysisStreaming _ _ _ => before
  | _ => statusSent c
  end.
(** * Properties *)

Import SessionManager SseManager.

(** ** The session store *)

Lemma lookupLive_stored (w : World) (sid : JsVal) (s : Session) :
  lookupLive w sid = Some s →
  ∃ id, validId sid = Some id ∧ sessions w !! id = Some s ∧
        isExpired (clock w) s = false.
Proof.
  unfold lookupLive. intros H.
  destruct (validId sid) as [id|] eqn:Hid; simpl in H; [|discriminate].
  destruct (sessions w !! id) as [s0|] eqn:Hs; simpl in H; [|discriminate].
  destruct (isExpired (clock w) s0) eqn:He; [discriminate|].
  injection H as <-. eauto.
Qed.

Lemma lookupLive_intro (w : World) (sid : JsVal) (id : string) (s : Session) :
  validId sid = Some id → sessions w !! id = Some s →
  isExpired (clock w) s = false → lookupLive w sid = Some s.
Proof.
  intros Hid Hs He. unfold lookupLive. rewrite Hid. simpl. rewrite Hs. simpl.
  by rewrite He.
Qed.

Lemma validId_string (sid : JsVal) (id : string) :
  validId sid = Some id → sid = JStr id ∧ id ≠ "".
Proof.
  destruct sid; simpl; try discriminate.
  destruct (String.eqb s "") eqn:E; [discriminate|].
  intros [= <-]. split; [done|]. by apply String.eqb_neq.
Qed.

Lemma updateSession_stored (w : World) (sid : JsVal) (id : string)
    (s : Session) (p : SessionPatch) :
  validId sid = Some id → sessions w !! id = Some s →
  updateSession sid p w =
    Ret true (set_sessions (<[id := mergeSession (clock w) s p]> (sessions w)) w).
Proof.
  intros Hid Hs. unfold updateSession, bind, get_world. rewrite Hid, Hs. reflexivity.
Qed.

Lemma updateSession_missing (w : World) (sid : JsVal) (p : SessionPatch) :
  stored w sid = None → updateSession sid p w = Ret false w.
Proof.
  unfold stored, updateSession, bind, get_world. intros H.
  destruct (validId sid) as [id|]; [|done]. simpl in H. by rewrite H.
Qed.

(** [update] always returns, and a missing session leaves the store as it
    was. *)
Lemma updateSession_total (w : World) (sid : JsVal) (p : SessionPatch) :
  ∃ b w', updateSession sid p w = Ret b w' ∧
          clock w' = clock w ∧ sessionTimeout w' = sessionTimeout w ∧
          connections w' = connections w ∧ responses w' = responses w ∧
          (stored w sid = None → w' = w).
Proof.
  destruct (stored w sid) as [s|] eqn:Hs.
  - unfold stored in Hs. destruct (validId sid) as [id|] eqn:Hid; [|done].
    simpl in Hs. rewrite (updateSession_stored w sid id s p Hid Hs).
    eexists _, _. split; [done|]. by repeat split.
  - rewrite (updateSession_missing w sid p Hs). eexists _, _. by repeat split.
Qed.

(** ** The broadcast loop *)

Lemma write_alive (w : World) (r : nat) (c : Chunk) (x : Response) :
  responses w !! r = Some x → alive x = true →
  Http.write r c w = Ret tt (set_responses (<[r := received c x]> (responses w)) w).
Proof.
  intros Hr Ha. unfold Http.write, bind, get_world, received. rewrite Hr, Ha. reflexivity.
Qed.

Lemma write_closed (w : World) (r : nat) (c : Chunk) :
  writable w r = false → Http.write r c w = Throw "write after end" w.
Proof.
  unfold writable, Http.write, bind, get_world.
  destruct (responses w !! r) as [x|]; [|done]. by intros ->.
Qed.

Lemma channelsOf_removeConnection (w : World) (sid : JsVal) (r x : nat) :
  x ∈ channelsOf (final (removeConnection sid r w)) sid ↔
  x ∈ channelsOf w sid ∧ x ≠ r.
Proof.
  unfold removeConnection, channelsOf.
  destruct (registryKey sid) as [k|]; simpl; [|set_solver].
  destruct (connections w !! k) as [l|] eqn:Hl; simpl.
  - destruct (decide (l ∖ {[r]} = ∅)) as [He|He]; simpl.
    + rewrite lookup_delete_eq. simpl. set_solver.
    + rewrite lookup_insert_eq. simpl. set_solver.
  - rewrite Hl. simpl. set_solver.
Qed.

Lemma removeConnection_frame (w : World) (sid : JsVal) (r : nat) :
  ∃ w', removeConnection sid r w = Ret tt w' ∧
        clock w' = clock w ∧ sessions w' = sessions w ∧
        sessionTimeout w' = sessionTimeout w ∧ responses w' = responses w ∧
        ∀ k, registryKey sid ≠ Some k → connections w' !! k = connections w !! k.
Proof.
  unfold removeConnection.
  destruct (registryKey sid) as [k|]; simpl.
  - unfold modify. eexists. split; [done|].
    destruct (connections w !! k) as [l|] eqn:Hl; simpl; [|by repeat split].
    repeat split; try done. intros k' Hk'.
    destruct (decide (l ∖ {[r]} = ∅)); simpl.
    + rewrite lookup_delete_ne; [done|congruence].
    + rewrite lookup_insert_ne; [done|congruence].
  - eexists. by repeat split.
Qed.

Section Loop.

Variables (sid : JsVal) (c : Chunk).

(** The loop of [broadcastToSession] over distinct channels: it returns,
    touches neither the sessions nor the clock, appends the chunk to every
    open channel of the list, and unregisters the closed ones. *)
Lemma for_each_sendTo (l : list nat) :
  NoDup l → ∀ w,
  ∃ w', for_each l (sendTo sid c) w = Ret tt w' ∧
        clock w' = clock w ∧ sessions w' = sessions w ∧
        sessionTimeout w' = sessionTimeout w ∧
        (∀ r, responses w' !! r =
              if decide (r ∈ l) then delivered c <$> responses w !! r
              else responses w !! r) ∧
        (∀ x, x ∈ channelsOf w' sid ↔
              x ∈ channelsOf w sid ∧ (x ∈ l → writable w x = true)) ∧
        (∀ k, registryKey sid ≠ Some k → connections w' !! k = connections w !! k).
Proof.
  induction 1 as [|r l Hr Hnd IH]; intros w.
  - exists w. split; [reflexivity|]. do 3 (split; [done|]). split; [|split; [|done]].
    + intros r. by rewrite decide_False by set_solver.
    + intros x. split; [|tauto]. intros Hx. split; [done|]. set_solver.
  - simpl. unfold bind at 1. unfold sendTo at 1, try_catch.
    destruct (writable w r) eqn:Hw.
    + unfold writable in Hw.
      destruct (responses w !! r) as [x|] eqn:Hx; [|done].
      rewrite (write_alive w r c x Hx Hw).
      set (w1 := set_responses _ w).
      destruct (IH w1) as (w' & Hrun & Hc & Hs & Ht & Hresp & Hch & Hk).
      exists w'. rewrite Hrun.
      split_and!; [done|by rewrite Hc|by rewrite Hs|by rewrite Ht| |
                   |intros k Hne; by rewrite Hk].
      * intros r'. rewrite Hresp. subst w1. simpl.
        destruct (decide (r' = r)) as [->|Hne].
        -- rewrite decide_False by done. rewrite decide_True by set_solver.
           rewrite lookup_insert_eq, Hx. simpl. unfold delivered. by rewrite Hw.
        -- rewrite lookup_insert_ne by done.
           destruct (decide (r' ∈ l)).
           ++ by rewrite decide_True by set_solver.
           ++ by rewrite decide_False by set_solver.
      * intros y. rewrite Hch. split.
        -- intros [Hin Hal]. split; [done|].
           intros [->|Hl]%elem_of_cons.
           ++ unfold writable. by rewrite Hx.
           ++ specialize (Hal Hl). unfold writable in *. subst w1. simpl in Hal.
              destruct (decide (y = r)) as [->|Hne]; [by rewrite Hx|].
              by rewrite lookup_insert_ne in Hal.
        -- intros [Hin Hal]. split; [done|].
           intros Hl. specialize (Hal (list_elem_of_further _ _ _ Hl)).
           unfold writable in *. subst w1. simpl.
           destruct (decide (y = r)) as [->|Hne].
           ++ by rewrite lookup_insert_eq.
           ++ by rewrite lookup_insert_ne.
    + rewrite (write_closed w r c Hw).
      destruct (removeConnection_frame w sid r)
        as (w1 & Hrm & Hc1 & Hs1 & Ht1 & Hr1 & Hk1).
      pose proof (channelsOf_removeConnection w sid r) as Hrc.
      rewrite Hrm in *. simpl in Hrc.
      destruct (IH w1) as (w' & Hrun & Hc & Hs & Ht & Hresp & Hch & Hk).
      exists w'. rewrite Hrun.
      split_and!; [done|congruence|congruence|congruence| | |].
      * intros r'. rewrite Hresp, Hr1.
        destruct (decide (r' = r)) as [->|Hne].
        -- rewrite decide_False by done. rewrite decide_True by set_solver.
           unfold writable in Hw. destruct (responses w !! r) as [x|]; [|done].
           simpl. unfold delivered. by rewrite Hw.
        -- destruct (decide (r' ∈ l)).
           ++ by rewrite decide_True by set_solver.
           ++ by rewrite decide_False by set_solver.
      * intros y. rewrite Hch, Hrc. split.
        -- intros [[Hin Hne] Hal]. split; [done|].
           intros [->|Hl]%elem_of_cons; [done|].
           specialize (Hal Hl). unfold writable in *. by rewrite Hr1 in Hal.
        -- intros [Hin Hal]. split; [split; [done|]|].
           ++ intros ->. specialize (Hal (list_elem_of_here _ _)). congruence.
           ++ intros Hl. specialize (Hal (list_elem_of_further _ _ _ Hl)).
              unfold writable in *. by rewrite Hr1.
      * intros k Hne. rewrite Hk by done. by apply Hk1.
Qed.

End Loop.

Lemma broadcastToSession_spec (w : World) (sid : JsVal) (event : string) (data : JsVal) :
  ∃ w', broadcastToSession sid event data w = Ret tt w' ∧
        clock w' = clock w ∧ sessions w' = sessions w ∧
        sessionTimeout w' = sessionTimeout w ∧
        (∀ r, responses w' !! r =
              if decide (r ∈ channelsOf w sid)
              then delivered (SseEvent event data) <$> responses w !! r
              else responses w !! r) ∧
        (∀ x, x ∈ channelsOf w' sid ↔ x ∈ channelsOf w sid ∧ writable w x = true) ∧
        (∀ k, registryKey sid ≠ Some k → connections w' !! k = connections w !! k).
Proof.
  unfold broadcastToSession, bind, get_world.
  destruct (for_each_sendTo sid (SseEvent event data) (elements (channelsOf w sid))
              (NoDup_elements _) w)
    as (w' & Hrun & Hc & Hs & Ht & Hresp & Hch & Hk).
  exists w'. split_and!; try done.
  - intros r. rewrite Hresp.
    destruct (decide (r ∈ channelsOf w sid)) as [Hin|Hin].
    + by rewrite decide_True by (by apply elem_of_elements).
    + by rewrite decide_False by (by rewrite elem_of_elements).
  - intros x. rewrite Hch. rewrite elem_of_elements. tauto.
Qed.

(** ** Specifications of computations *)

Section Triples.

Context {A B : Type}.

Lemma triple_ret (P : World → Prop) (a : A) (Q : A → World → Prop) (E : World → Prop) :
  (∀ w, P w → Q a w) → triple P (ret a) Q E.
Proof. intros H w Hw. by apply H. Qed.

Lemma triple_throw (P : World → Prop) (e : string) (Q : A → World → Prop) (E : World → Prop) :
  (∀ w, P w → E w) → triple P (throw e) Q E.
Proof. intros H w Hw. by apply H. Qed.

Lemma triple_bind (P : World → Prop) (m : M A) (k : A → M B)
    (Q : A → World → Prop) (R : B → World → Prop) (E : World → Prop) :
  triple P m Q E → (∀ a, triple (Q a) (k a) R E) → triple P (bind m k) R E.
Proof.
  intros Hm Hk w Hw. unfold bind. specialize (Hm w Hw).
  destruct (m w) as [a w'|e w']; [by apply Hk|done].
Qed.

Lemma triple_try_catch (P : World → Prop) (m : M A) (h : string → M A)
    (Q : A → World → Prop) (E' E : World → Prop) :
  triple P m Q E' → (∀ e, triple E' (h e) Q E) → triple P (try_catch m h) Q E.
Proof.
  intros Hm Hh w Hw. unfold try_catch. specialize (Hm w Hw).
  destruct (m w) as [a w'|e w']; [done|by apply Hh].
Qed.

End Triples.

Lemma triple_for_each {A} (I : World → Prop) (l : list A) (body : A → M unit)
    (E : World → Prop) :
  (∀ x, triple I (body x) (λ _, I) E) → triple I (for_each l body) (λ _, I) E.
Proof.
  intros Hb. induction l as [|x l IH]; simpl.
  - by apply triple_ret.
  - eapply triple_bind; [apply Hb|]. intros []. apply IH.
Qed.


(** ** Invariants kept by the code *)

Section Preserves.

Variables I E : World → Prop.

Lemma preserves_ret {A} (a : A) : preserves I E (ret a).
Proof. by apply triple_ret. Qed.

Lemma preserves_bind {A B} (m : M A) (k : A → M B) :
  preserves I E m → (∀ a, preserves I E (k a)) → preserves I E (bind m k).
Proof. intros Hm Hk. by eapply triple_bind. Qed.

Lemma preserves_get_world : preserves I E get_world.
Proof. intros w Hw. done. Qed.

Lemma preserves_for_each {A} (l : list A) (body : A → M unit) :
  (∀ x, preserves I E (body x)) → preserves I E (for_each l body).
Proof. apply triple_for_each. Qed.

Lemma preserves_try_catch {A} (m : M A) (h : string → M A) :
  preserves I I m → (∀ e, preserves I E (h e)) → preserves I E (try_catch m h).
Proof. intros Hm Hh. by eapply triple_try_catch. Qed.

(** A step that leaves the session store alone keeps a store-only
    invariant. *)
Lemma preserves_frame (f : World → World) :
  storeOnly I → (∀ w, sessions (f w) = sessions w) → preserves I E (modify f).
Proof. intros HI Hf w Hw. simpl. by apply (HI w). Qed.

Lemma preserves_js_get_ok (v : JsVal) (k : string) :
  v ≠ JNull → v ≠ JUndefined → preserves I E (js_get v k).
Proof. intros H1 H2 w Hw. destruct v; simpl; done. Qed.

Lemma preserves_option_field_ok {A} (o : Nullable EventBroadcaster.ErrorOptions)
    (f : EventBroadcaster.ErrorOptions → A) (d : A) :
  o ≠ Null → preserves I E (EventBroadcaster.option_field o f d).
Proof. intros H w Hw. destruct o; simpl; done. Qed.

End Preserves.

Lemma preserves_throw {A} (I : World → Prop) (e : string) :
  preserves I I (@throw A e).
Proof. by apply triple_throw. Qed.

Lemma preserves_js_get (I : World → Prop) (v : JsVal) (k : string) :
  preserves I I (js_get v k).
Proof. intros w Hw. destruct v; simpl; done. Qed.

Lemma preserves_option_field {A} (I : World → Prop)
    (o : Nullable EventBroadcaster.ErrorOptions)
    (f : EventBroadcaster.ErrorOptions → A) (d : A) :
  preserves I I (EventBroadcaster.option_field o f d).
Proof. intros w Hw. destruct o; simpl; done. Qed.

Lemma preserves_write (I : World → Prop) (r : nat) (c : Chunk) :
  storeOnly I → preserves I I (Http.write r c).
Proof.
  intros HI w Hw. unfold Http.write, bind, get_world.
  destruct (responses w !! r) as [x|]; [|done].
  destruct (alive x); [|done]. simpl. by apply (HI w).
Qed.

Lemma preserves_removeConnection (I E : World → Prop) (sid : JsVal) (r : nat) :
  storeOnly I → preserves I E (removeConnection sid r).
Proof.
  intros HI w Hw.
  destruct (removeConnection_frame w sid r) as (w' & -> & _ & Hs & _).
  by apply (HI w).
Qed.

Lemma preserves_broadcastToSession (I E : World → Prop) (sid : JsVal)
    (event : string) (data : JsVal) :
  storeOnly I → preserves I E (broadcastToSession sid event data).
Proof.
  intros HI w Hw.
  destruct (broadcastToSession_spec w sid event data) as (w' & -> & _ & Hs & _).
  by apply (HI w).
Qed.

Lemma preserves_update (I E : World → Prop) (r : nat) (f : Response → Response) :
  storeOnly I → preserves I E (Http.update r f).
Proof. intros HI. by apply preserves_frame. Qed.

Lemma preserves_getSession (I E : World → Prop) (sid : JsVal) :
  preserves I E (getSession sid).
Proof. intros w Hw. done. Qed.

Lemma storeOnly_untouched (w0 : World) (sid : JsVal) : storeOnly (untouched w0 sid).
Proof. intros w w' Hs Hw Hm. rewrite Hs. by apply Hw. Qed.

Lemma storeOnly_bounded : storeOnly bounded.
Proof. intros w w' Hs Hw id s. rewrite Hs. apply Hw. Qed.

(** [update] on an id without a stored session changes nothing. *)
Lemma updateSession_untouched (E : World → Prop) (w0 : World) (sid : JsVal)
    (p : SessionPatch) :
  preserves (untouched w0 sid) E (updateSession sid p).
Proof.
  intros w Hw.
  destruct (stored w0 sid) as [s|] eqn:Hs0.
  - destruct (updateSession_total w sid p) as (b & w' & -> & _).
    unfold untouched. by rewrite Hs0.
  - assert (stored w sid = None) as Hs.
    { unfold stored in *. by rewrite (Hw Hs0). }
    rewrite (updateSession_missing w sid p Hs). done.
Qed.

Lemma withinLimit_merge (now : Z) (s : Session) (p : SessionPatch) :
  withinLimit (retryCount s) → patchWithinLimit p →
  withinLimit (retryCount (mergeSession now s p)).
Proof.
  unfold patchWithinLimit. simpl. by destruct (p_retryCount p).
Qed.

Lemma bounded_insert (w : World) (id : string) (s : Session) :
  bounded w → withinLimit (retryCount s) →
  bounded (set_sessions (<[id := s]> (sessions w)) w).
Proof.
  intros Hw Hs id' s'. simpl. rewrite lookup_insert.
  case_decide; [by intros [= <-]|apply Hw].
Qed.

(** [update] with a count within the ceiling keeps every count within it. *)
Lemma updateSession_bounded (E : World → Prop) (sid : JsVal) (p : SessionPatch) :
  patchWithinLimit p → preserves bounded E (updateSession sid p).
Proof.
  intros Hp w Hw. unfold updateSession, bind, get_world.
  destruct (validId sid) as [id|]; [|done].
  destruct (sessions w !! id) as [s|] eqn:Hs; [|done].
  simpl. apply bounded_insert; [done|].
  apply withinLimit_merge; [by eapply Hw|done].
Qed.

Lemma preserves_bind_ret {A B} (I E : World → Prop) (a : A) (k : A → M B) :
  preserves I E (k a) → preserves I E (bind (ret a) k).
Proof. intros H w Hw. by apply H. Qed.

Lemma preserves_bind_throw {A B} (I : World → Prop) (e : string) (k : A → M B) :
  preserves I I (bind (throw e) k).
Proof. intros w Hw. done. Qed.

Lemma or_default_object (v : JsVal) :
  v ≠ JNull → or_default v ≠ JNull ∧ or_default v ≠ JUndefined.
Proof. by destruct v. Qed.

(** Steps through a method body, one statement at a time. *)
Ltac store_only :=
  solve [apply storeOnly_untouched | apply storeOnly_bounded | assumption].

Ltac preserve_step :=
  lazymatch goal with
  | |- preserves _ _ (bind (ret _) _) => apply preserves_bind_ret; cbv beta
  | |- preserves ?I ?I (bind (throw _) _) => apply preserves_bind_throw
  | |- preserves _ _ (bind _ _) => apply preserves_bind; [|intros ?]
  | |- preserves _ _ (ret _) => apply preserves_ret
  | |- preserves _ _ get_world => apply preserves_get_world
  | |- preserves _ _ (getSession _) => apply preserves_getSession
  | |- preserves (untouched _ _) _ (updateSession _ _) =>
      apply updateSession_untouched
  | |- preserves bounded _ (updateSession _ _) =>
      apply updateSession_bounded; solve [done | assumption]
  | |- preserves _ _ (broadcastToSession _ _ _) =>
      apply preserves_broadcastToSession; store_only
  | |- preserves _ _ (removeConnection _ _) =>
      apply preserves_removeConnection; store_only
  | |- preserves _ _ (Http.update _ _) => apply preserves_update; store_only
  | |- preserves _ _ (modify _) => apply preserves_frame; [store_only|done]
  | |- preserves ?I ?I (js_get _ _) => apply preserves_js_get
  | |- preserves _ _ (js_get _ _) =>
      apply preserves_js_get_ok; solve [done | assumption]
  | |- preserves ?I ?I (EventBroadcaster.option_field _ _ _) =>
      apply preserves_option_field
  | |- preserves _ _ (EventBroadcaster.option_field _ _ _) =>
      apply preserves_option_field_ok; solve [done | assumption]
  | |- preserves ?I ?I (throw _) => apply preserves_throw
  | |- preserves ?I ?I (Http.write _ _) => apply preserves_write; store_only
  | |- preserves _ _ (for_each _ _) => apply preserves_for_each; intros ?
  | |- preserves _ _ (try_catch _ _) => apply preserves_try_catch; [|intros ?]
  | |- preserves _ _ (if ?b then _ else _) => destruct b
  | |- preserves _ _ (match ?x with _ => _ end) => destruct x
  end.

Ltac preserve := repeat preserve_step.

Import EventBroadcaster.


Lemma withinLimit_or_zero (n : Nullable Z) :
  withinLimit n → withinLimit (Val (or_zero n)).
Proof.
  destruct n as [| |k]; simpl; try lia.
  destruct (k =? 0) eqn:Hk; lia.
Qed.

(** Every lifecycle method keeps the retry counts within the ceiling when
    the count it is given is within it. *)
Lemma body_bounded (c : Call) :
  withinLimit (countGiven (Broadcast c)) → preserves bounded bounded (body c).
Proof.
  destruct c; simpl; intros Hc.
  - unfold broadcastUploadStarted, get_or, updateStatus. preserve.
  - unfold broadcastUploadCompleted, get_or, updateStatus, isoNow, newDate. preserve.
  - unfold broadcastExtractionStarted, updateStatus. preserve.
  - unfold broadcastExtractionCompleted, get_or_else, updateStatus. preserve.
  - unfold broadcastAnalysisStarted, updateStatus. preserve.
  - unfold broadcastAnalysisStreaming, get_or_else, newDate. preserve.
  - unfold broadcastAnalysisCompleted, updateStatus, isoNow, newDate. preserve.
  - unfold broadcastError, updateStatus.
    destruct options as [| |o]; cbn [option_field]; preserve.
    all: apply updateSession_bounded; apply withinLimit_or_zero; exact Hc.
  - unfold broadcastRetryStarted. preserve.
Qed.

(** The closing log changes nothing; it throws when a part does not print. *)
Lemma templateLiteral_Ret (parts : list JsVal) (w : World) :
  Forall (λ v, printable v = true) parts → templateLiteral parts w = Ret tt w.
Proof.
  intros H. unfold templateLiteral.
  replace (forallb printable parts) with true; [done|].
  induction H as [|v parts Hv _ IH]; [done|]. simpl. by rewrite Hv.
Qed.

Lemma preserves_templateLiteral (I : World → Prop) (parts : list JsVal) :
  preserves I I (templateLiteral parts).
Proof. intros w Hw. unfold templateLiteral. by destruct (forallb printable parts). Qed.


Lemma run_bounded (c : Call) :
  withinLimit (countGiven (Broadcast c)) → preserves bounded bounded (run c).
Proof.
  intros Hc. unfold run. apply preserves_bind; [by apply body_bounded|].
  intros _. apply preserves_templateLiteral.
Qed.

Lemma extendSession_bounded (E : World → Prop) (sid : JsVal) (extra : option Z) :
  preserves bounded E (extendSession sid extra).
Proof.
  intros w Hw. unfold extendSession, bind, get_world.
  destruct (validId sid) as [id|]; [|done].
  destruct (sessions w !! id) as [s|] eqn:Hs; [|done].
  simpl. apply bounded_insert; [done|]. simpl. by eapply Hw.
Qed.

Lemma createSession_bounded (E : World → Prop) (fresh : string) (init : SessionPatch) :
  patchWithinLimit init → preserves bounded E (createSession fresh init).
Proof.
  intros Hp w Hw. unfold createSession, bind, get_world. simpl.
  apply bounded_insert; [done|]. apply withinLimit_merge; [simpl; lia|done].
Qed.

Lemma deleteSession_bounded (E : World → Prop) (sid : JsVal) :
  preserves bounded E (deleteSession sid).
Proof.
  intros w Hw. unfold deleteSession, bind, get_world.
  destruct (validId sid) as [id|]; [|done].
  destruct (sessions w !! id) as [s|] eqn:Hs; [|done].
  simpl. intros id' s'. simpl. rewrite lookup_delete_Some. intros [_ H].
  by eapply Hw.
Qed.

Lemma cleanupExpiredSessions_bounded (E : World → Prop) :
  preserves bounded E cleanupExpiredSessions.
Proof.
  intros w Hw. unfold cleanupExpiredSessions, bind, get_world. simpl.
  intros id s. simpl. rewrite map_lookup_filter_Some. intros [H _].
  by eapply Hw.
Qed.

Import SseRoutes.

Lemma postRetry_bounded (req : Request) (res : nat) :
  preserves bounded bounded (postRetry req res).
Proof.
  unfold postRetry, reject, Http.setStatus, Http.json.
  destruct (badSessionId (params_sessionId req)); [preserve|].
  apply preserves_bind; [preserve|]. intros [s|]; [|preserve].
  destruct (negb (String.eqb (status s) "error")); [preserve|].
  destruct (3 <? or_zero (retryCount s) + 1) eqn:Hlt; [preserve|].
  apply Z.ltb_ge in Hlt.
  apply preserves_bind; [by apply updateSession_bounded|]. intros _.
  apply preserves_bind; [by apply (body_bounded (RetryStarted _ _ _))|]. intros _.
  preserve.
Qed.

Lemma getEvents_bounded (req : Request) (res : nat) :
  preserves bounded bounded (getEvents req res).
Proof.
  unfold getEvents, reject, errorEvent, createConnection, handshake,
    Http.setHeader, Http.flushHeaders, Http.setStatus, Http.json, Http.finish.
  preserve.
  all: apply extendSession_bounded.
Qed.

(** Every operation keeps the retry counts within the ceiling when the
    count it is given is within it. *)
Lemma exec_bounded (w : World) (o : Op) :
  bounded w → withinLimit (countGiven o) → bounded (exec w o).
Proof.
  intros Hw Ho.
  assert (∀ A (m : M A), preserves bounded bounded m → bounded (final (m w))) as Hfin.
  { intros A m Hm. specialize (Hm w Hw). by destruct (m w). }
  destruct o; cbn [exec].
  - done.
  - apply Hfin. by apply createSession_bounded.
  - apply Hfin. by apply updateSession_bounded.
  - apply Hfin. by apply updateSession_bounded.
  - apply Hfin. apply extendSession_bounded.
  - apply Hfin. apply deleteSession_bounded.
  - intros id s. simpl. by rewrite lookup_empty.
  - apply Hfin. apply cleanupExpiredSessions_bounded.
  - apply Hfin. by apply run_bounded.
  - apply Hfin. apply getEvents_bounded.
  - apply Hfin. unfold onClose, removeClient. preserve.
  - apply Hfin. apply postRetry_bounded.
  - apply Hfin. unfold deleteEvents, closeSessionConnections, reject,
      Http.setStatus, Http.json, Http.finish. preserve.
Qed.

(** ** The retry endpoint *)

Lemma reject_spec (w : World) (res : nat) (code : Z) (error errorCode : string)
    (x : Response) :
  responses w !! res = Some x →
  ∃ w', reject res code error errorCode w = Ret tt w' ∧
        clock w' = clock w ∧ sessions w' = sessions w ∧
        connections w' = connections w ∧
        rejectedWith res code errorCode w w'.
Proof.
  intros Hx. unfold reject, Http.setStatus, Http.json, Http.update, bind, modify.
  eexists. split; [reflexivity|].
  split_and!; try done.
  exists x. eexists _, _. split; [done|].
  cbn [responses set_responses].
  rewrite !lookup_alter_eq, Hx. simpl. split; [done|]. by split_and!.
Qed.

Lemma live_id_accepted (w : World) (sid : JsVal) (s : Session) :
  lookupLive w sid = Some s → badSessionId sid = false.
Proof.
  intros (id & Hid & _)%lookupLive_stored.
  apply validId_string in Hid as [-> Hne]. unfold badSessionId. simpl.
  apply String.eqb_neq in Hne. by rewrite Hne.
Qed.

(** C1. A retry request for a live session in status [error] whose retry
    count is already 3 is answered with HTTP 400 and the code
    MAX_RETRIES_EXCEEDED; the session is left as it was, so its retry
    count stays 3 and its status stays [error]. *)
Theorem retry_ceiling (w : World) (req : Request) (res : nat)
    (s : Session) (x : Response) :
  lookupLive w (params_sessionId req) = Some s →
  status s = "error" →
  retryCount s = Val 3 →
  responses w !! res = Some x →
  ∃ w', postRetry req res w = Ret tt w' ∧
        rejectedWith res 400 "MAX_RETRIES_EXCEEDED" w w' ∧
        sessions w' = sessions w ∧
        lookupLive w' (params_sessionId req) = Some s.
Proof.
  intros Hlive Hst Hn Hx.
  destruct (reject_spec w res 400 "Maximum retry attempts exceeded"
              "MAX_RETRIES_EXCEEDED" x Hx) as (w' & Hrun & Hc & Hs & _ & Hrej).
  exists w'. split_and!; [|done|done|].
  - unfold postRetry. rewrite (live_id_accepted _ _ _ Hlive).
    unfold bind at 1. unfold getSession, bind, get_world, ret.
    rewrite Hlive, Hst, Hn. simpl. exact Hrun.
  - unfold lookupLive in *. by rewrite Hs, Hc.
Qed.

Lemma retry_ceiling_witness :
  ∃ w', postRetry (mkRequest (JStr "s1") Demo.local) 7 Demo.world = Ret tt w' ∧
        rejectedWith 7 400 "MAX_RETRIES_EXCEEDED" Demo.world w' ∧
        sessions w' = sessions Demo.world ∧
        lookupLive w' (JStr "s1") = Some Demo.failed.
Proof.
  apply (retry_ceiling Demo.world (mkRequest (JStr "s1") Demo.local) 7
           Demo.failed freshResponse); reflexivity.
Defined.

(** C2. A retry request for a live session whose status is not [error]
    is answered with HTTP 400 and the code INVALID_SESSION_STATE; the
    session is left as it was, retry count and status included. *)
Theorem retry_precondition (w : World) (req : Request) (res : nat)
    (s : Session) (x : Response) :
  lookupLive w (params_sessionId req) = Some s →
  status s ≠ "error" →
  responses w !! res = Some x →
  ∃ w', postRetry req res w = Ret tt w' ∧
        rejectedWith res 400 "INVALID_SESSION_STATE" w w' ∧
        sessions w' = sessions w ∧
        lookupLive w' (params_sessionId req) = Some s.
Proof.
  intros Hlive Hst Hx.
  destruct (reject_spec w res 400 "Session is not in error state"
              "INVALID_SESSION_STATE" x Hx) as (w' & Hrun & Hc & Hs & _ & Hrej).
  exists w'. split_and!; [|done|done|].
  - unfold postRetry. rewrite (live_id_accepted _ _ _ Hlive).
    unfold bind at 1. unfold getSession, bind, get_world, ret.
    rewrite Hlive. apply String.eqb_neq in Hst. rewrite Hst. simpl. exact Hrun.
  - unfold lookupLive in *. by rewrite Hs, Hc.
Qed.

Lemma retry_precondition_witness :
  ∃ w', postRetry (mkRequest (JStr "s2") Demo.local) 7 Demo.world = Ret tt w' ∧
        rejectedWith 7 400 "INVALID_SESSION_STATE" Demo.world w' ∧
        sessions w' = sessions Demo.world ∧
        lookupLive w' (JStr "s2") = Some Demo.analyzing.
Proof.
  apply (retry_precondition Demo.world (mkRequest (JStr "s2") Demo.local) 7
           Demo.analyzing freshResponse); [reflexivity|discriminate|reflexivity].
Defined.

(** ** Lifecycle methods on a live session *)

Lemma bind_Ret {A B} (m : M A) (k : A → M B) (w w1 : World) (a : A) :
  m w = Ret a w1 → bind m k w = k a w1.
Proof. intros H. unfold bind. by rewrite H. Qed.

Lemma prop_merge (now : Z) (s : Session) (p : SessionPatch) (k : string) (v : JsVal) :
  p_other p !! k = Some v → prop (mergeSession now s p) k = v.
Proof.
  intros H. unfold prop. simpl. by erewrite lookup_union_Some_l.
Qed.

(** [update] on a live session stores the merged session, which is live. *)
Lemma updateSession_live (w : World) (sid : JsVal) (s : Session) (p : SessionPatch) :
  lookupLive w sid = Some s →
  ∃ w1, updateSession sid p w = Ret true w1 ∧
        clock w1 = clock w ∧ connections w1 = connections w ∧
        responses w1 = responses w ∧
        lookupLive w1 sid = Some (mergeSession (clock w) s p).
Proof.
  intros (id & Hid & Hs & He)%lookupLive_stored.
  rewrite (updateSession_stored w sid id s p Hid Hs).
  eexists. split; [done|]. split_and!; try done.
  apply (lookupLive_intro _ _ id); [done| |done].
  simpl. apply lookup_insert_eq.
Qed.

(** A broadcast leaves the live sessions as they are. *)
Lemma broadcastToSession_live (w : World) (sid : JsVal) (event : string) (data : JsVal) :
  ∃ w', broadcastToSession sid event data w = Ret tt w' ∧
        clock w' = clock w ∧
        (∀ sid', lookupLive w' sid' = lookupLive w sid') ∧
        (∀ r x, r ∈ channelsOf w sid → responses w !! r = Some x → alive x = true →
                responses w' !! r = Some (received (SseEvent event data) x)).
Proof.
  destruct (broadcastToSession_spec w sid event data)
    as (w' & Hrun & Hc & Hs & _ & Hresp & _).
  exists w'. split_and!; try done.
  - intros sid'. unfold lookupLive. by rewrite Hs, Hc.
  - intros r x Hin Hx Ha. rewrite Hresp, decide_True by done.
    rewrite Hx. simpl. unfold delivered. by rewrite Ha.
Qed.

(** C5. On a live session, [broadcastAnalysisCompleted] sets the status
    to [completed], stores the feedback, sets [streamingContent] to
    [null] and stamps [completedAt] with the current time. *)
Theorem analysis_completed (w : World) (sid feedback : JsVal) (s : Session) :
  lookupLive w sid = Some s →
  ∃ w' s', EventBroadcaster.broadcastAnalysisCompleted sid feedback w = Ret tt w' ∧
           lookupLive w' sid = Some s' ∧
           status s' = "completed" ∧
           prop s' "feedback" = or_default feedback ∧
           streamingContent s' = Null ∧
           prop s' "completedAt" = JDate (clock w).
Proof.
  intros Hlive.
  unfold EventBroadcaster.broadcastAnalysisCompleted, EventBroadcaster.isoNow,
    EventBroadcaster.newDate, updateStatus.
  erewrite bind_Ret by reflexivity.
  destruct (updateSession_live w sid s (mkPatch None (Some "completed") None None ∅) Hlive)
    as (w1 & Hu1 & Hc1 & _ & _ & Hlive1).
  rewrite (bind_Ret _ _ _ _ _ Hu1).
  erewrite bind_Ret by reflexivity.
  match goal with |- context [updateSession sid ?p] =>
    destruct (updateSession_live w1 sid _ p Hlive1) as (w2 & Hu2 & Hc2 & _ & _ & Hlive2)
  end.
  rewrite (bind_Ret _ _ _ _ _ Hu2).
  match goal with |- context [broadcastToSession sid ?e ?d] =>
    destruct (broadcastToSession_live w2 sid e d) as (w' & Hb & _ & Hl & _)
  end.
  eexists w', _. split; [exact Hb|]. rewrite Hl. split; [exact Hlive2|].
  rewrite Hc1. split_and!; try done.
  - apply prop_merge. simpl. apply lookup_insert_eq.
  - apply prop_merge. simpl. rewrite lookup_insert_ne by done.
    apply lookup_singleton_eq.
Qed.

Lemma analysis_completed_witness :
  ∃ w' s', EventBroadcaster.broadcastAnalysisCompleted (JStr "s2")
             (JObj [("score", JNum 9)]) Demo.world = Ret tt w' ∧
           lookupLive w' (JStr "s2") = Some s' ∧
           status s' = "completed" ∧
           prop s' "feedback" = JObj [("score", JNum 9)] ∧
           streamingContent s' = Null ∧
           prop s' "completedAt" = JDate 1000.
Proof.
  apply (analysis_completed Demo.world (JStr "s2") (JObj [("score", JNum 9)])
           Demo.analyzing).
  reflexivity.
Defined.

Lemma bind_assoc {A B C} (m : M A) (f : A → M B) (g : B → M C) (w : World) :
  bind (bind m f) g w = bind m (λ a, bind (f a) g) w.
Proof. unfold bind. by destruct (m w). Qed.

Lemma js_get_Ret (v : JsVal) (k : string) :
  v ≠ JNull → v ≠ JUndefined → ∃ a, ∀ w, js_get v k w = Ret a w.
Proof. intros H1 H2. destruct v; try done; eexists; intros w; reflexivity. Qed.

Lemma get_or_else_Ret (v : JsVal) (k : string) (d : JsVal) :
  v ≠ JNull → v ≠ JUndefined →
  ∃ a, ∀ w, EventBroadcaster.get_or_else v k d w = Ret a w.
Proof.
  intros H1 H2. destruct (js_get_Ret v k H1 H2) as [a Ha].
  exists (js_or a d). intros w. unfold EventBroadcaster.get_or_else.
  by rewrite (bind_Ret _ _ _ _ _ (Ha w)).
Qed.




(** The bound on the metadata is needed: the default [{}] replaces only
    an omitted argument, and [metadata.chunkIndex] on [null] is a
    [TypeError] before anything is stored or sent. *)
Example null_metadata_throws :
  EventBroadcaster.broadcastAnalysisStreaming (JStr "s2") "more" JNull Demo.world
  = Throw "TypeError" Demo.world.
Proof. reflexivity. Qed.

(** C10. On a live session, [broadcastError] sets the status to [error]
    and the retry count to [options.retryCount] when it is provided and to
    0 when it is not, whatever count the session had accumulated. *)
Theorem error_sets_retry_count (w : World) (sid error : JsVal)
    (options : Nullable EventBroadcaster.ErrorOptions) (s : Session) :
  lookupLive w sid = Some s →
  error ≠ JNull → error ≠ JUndefined → options ≠ Null →
  ∃ w' s', EventBroadcaster.broadcastError sid error options w = Ret tt w' ∧
           lookupLive w' sid = Some s' ∧
           status s' = "error" ∧
           retryCount s' = Val (default 0 (providedCount options)).
Proof.
  intros Hlive He1 He2 Ho.
  unfold EventBroadcaster.broadcastError, updateStatus.
  destruct (js_get_Ret error "code" He1 He2) as [c1 Hc1].
  rewrite (bind_Ret _ _ _ _ _ (Hc1 w)).
  assert (∃ code, ∀ w0,
    (if truthy c1 then ret c1
     else bind (EventBroadcaster.option_field options EventBroadcaster.o_code JUndefined)
            (λ c2, ret (js_or c2 (JStr "UNKNOWN_ERROR")))) w0 = Ret code w0)
    as [code Hcode].
  { destruct (truthy c1); [by eexists|]. destruct options; [|done|]; by eexists. }
  rewrite (bind_Ret _ _ _ _ _ (Hcode w)).
  assert (∀ A (f : EventBroadcaster.ErrorOptions → A) (d : A),
            ∃ a, ∀ w0, EventBroadcaster.option_field options f d w0 = Ret a w0
                 ∧ a = match options with Val o => f o | _ => d end) as Hopt.
  { intros A f d. destruct options; [|done|]; by eexists. }
  destruct (Hopt _ EventBroadcaster.o_retryable JUndefined) as [rt Hrt].
  destruct (Hopt _ EventBroadcaster.o_stage JUndefined) as [st Hst].
  destruct (Hopt _ EventBroadcaster.o_retryCount Undefined) as [n Hn].
  rewrite (bind_Ret _ _ _ _ _ (proj1 (Hrt w))), (bind_Ret _ _ _ _ _ (proj1 (Hst w))),
    (bind_Ret _ _ _ _ _ (proj1 (Hn w))).
  destruct (updateSession_live w sid s (mkPatch None (Some "error") None None ∅) Hlive)
    as (w1 & Hu1 & _ & _ & _ & Hlive1).
  rewrite (bind_Ret _ _ _ _ _ Hu1), (bind_Ret _ _ _ _ _ (proj1 (Hn w1))).
  match goal with |- context [updateSession sid ?p] =>
    destruct (updateSession_live w1 sid _ p Hlive1) as (w2 & Hu2 & _ & _ & _ & Hlive2)
  end.
  rewrite (bind_Ret _ _ _ _ _ Hu2).
  match goal with |- context [broadcastToSession sid ?e ?d] =>
    destruct (broadcastToSession_live w2 sid e d) as (w' & Hb & _ & Hl & _)
  end.
  eexists w', _. split; [exact Hb|]. rewrite Hl. split; [exact Hlive2|].
  split; [done|]. simpl. f_equal. destruct (Hn w) as [_ ->].
  destruct options as [| |o]; [done|done|]. simpl.
  destruct (EventBroadcaster.o_retryCount o) as [| |k]; simpl; try done.
  destruct (k =? 0) eqn:Hk; [|done]. apply Z.eqb_eq in Hk. by subst.
Qed.

Lemma error_sets_retry_count_witness :
  ∃ w' s', EventBroadcaster.broadcastError (JStr "s1") (JStr "boom")
             (Val (EventBroadcaster.mkOptions (JStr "ADVANCED_ANALYSIS_FAILED")
                     (JBool true) (JStr "advanced_analysis") Undefined))
             Demo.world = Ret tt w' ∧
           lookupLive w' (JStr "s1") = Some s' ∧
           status s' = "error" ∧
           retryCount s' = Val 0.
Proof.
  apply (error_sets_retry_count Demo.world (JStr "s1") (JStr "boom")
           (Val (EventBroadcaster.mkOptions (JStr "ADVANCED_ANALYSIS_FAILED")
                   (JBool true) (JStr "advanced_analysis") Undefined))
           Demo.failed); [reflexivity|discriminate..].
Defined.

(** ** Resilience of the broadcaster *)




(** The bound on the other arguments is needed: [error.code] on a [null]
    error is a [TypeError] before anything is stored or sent. *)
Example null_error_throws :
  EventBroadcaster.run (EventBroadcaster.Error (JStr "s1") JNull Undefined) Demo.world
  = Throw "TypeError" Demo.world.
Proof. reflexivity. Qed.

(** ** The retry ceiling *)

(** C3, as stated, fails: after a session is created,
    [broadcastRetryStarted] with the count 4 stores the count 4. *)
Lemma retry_count_unbounded :
  ¬ (∀ ops : list Op, bounded (foldl exec emptyWorld ops)).
Proof.
  intros H.
  pose (ops := [Create "s1" emptyPatch;
                Broadcast (EventBroadcaster.RetryStarted (JStr "s1") (Val 4) None)]).
  specialize (H ops "s1"
    (mkSession "s1" "retrying" 0 0 (Some 1800000) (Val 4) Undefined ∅) eq_refl).
  simpl in H. lia.
Qed.

(** C3, amended. From a state whose retry counts are within the ceiling,
    every sequence of operations in which the counts handed to the store
    (by [broadcastRetryStarted], by [broadcastError]'s options, by
    [createSession] and [updateSession]) are at most 3 leaves every retry
    count at most 3; the retry endpoint never raises a count above 3. *)
Theorem retry_count_bounded (w : World) (ops : list Op) :
  bounded w →
  Forall (λ o, withinLimit (countGiven o)) ops →
  bounded (foldl exec w ops).
Proof.
  intros Hw Hops. revert w Hw.
  induction Hops as [|o ops Ho _ IH]; intros w Hw; simpl.
  - done.
  - apply IH. by apply exec_bounded.
Qed.

Lemma retry_count_bounded_witness : bounded (foldl exec emptyWorld Demo.scenario).
Proof.
  apply (retry_count_bounded emptyWorld Demo.scenario).
  - intros id s H. change (sessions emptyWorld) with (∅ : gmap string Session) in H.
    by rewrite lookup_empty in H.
  - repeat constructor.
Defined.

(** After three accepted retries the fourth is refused and the count
    stays 3. *)
Example retry_scenario :
  retryCount <$> sessions (foldl exec emptyWorld Demo.scenario) !! "s1" = Some (Val 3) ∧
  status <$> sessions (foldl exec emptyWorld Demo.scenario) !! "s1" = Some "error".
Proof. split; reflexivity. Qed.

(** A failure reported without a count forgets the retries made so far:
    after three retries and one more failure, a further retry is accepted. *)
Example error_resets_retries :
  let w := foldl exec emptyWorld
             (Demo.scenario ++
                [Broadcast (EventBroadcaster.Error (JStr "s1") (JError "boom" []) Undefined);
                 Retry Demo.retryRequest 7]) in
  retryCount <$> sessions w !! "s1" = Some (Val 1) ∧
  status <$> sessions w !! "s1" = Some "retrying".
Proof. split; reflexivity. Qed.

(** ** Fan-out *)

(** C8. One broadcast to a session returns, appends the same serialized
    event to every registered channel that is open, keeps those channels
    registered, and removes from the registry every registered channel
    whose write fails. *)
Theorem broadcast_fan_out (w : World) (sid : JsVal) (event : string) (data : JsVal) :
  ∃ w', broadcastToSession sid event data w = Ret tt w' ∧
        (∀ r x, r ∈ channelsOf w sid → responses w !! r = Some x → alive x = true →
                responses w' !! r = Some (received (SseEvent event data) x) ∧
                r ∈ channelsOf w' sid) ∧
        (∀ r, r ∈ channelsOf w sid → writable w r = false → r ∉ channelsOf w' sid).
Proof.
  destruct (broadcastToSession_spec w sid event data)
    as (w' & Hrun & _ & _ & _ & Hresp & Hch & _).
  exists w'. split_and!; [done| |].
  - intros r x Hin Hx Ha. split.
    + rewrite Hresp, decide_True by done. rewrite Hx. simpl.
      unfold delivered. by rewrite Ha.
    + apply Hch. split; [done|]. unfold writable. by rewrite Hx.
  - intros r Hin Hw [_ Hal]%Hch. congruence.
Qed.

Lemma broadcast_fan_out_witness :
  ∃ w', broadcastToSession (JStr "s2") "analysis.started"
          (JObj [("status", JStr "analyzing")]) Demo.world = Ret tt w' ∧
        (∀ r x, r ∈ channelsOf Demo.world (JStr "s2") →
                responses Demo.world !! r = Some x → alive x = true →
                responses w' !! r =
                  Some (received (SseEvent "analysis.started"
                                    (JObj [("status", JStr "analyzing")])) x) ∧
                r ∈ channelsOf w' (JStr "s2")) ∧
        (∀ r, r ∈ channelsOf Demo.world (JStr "s2") →
              writable Demo.world r = false → r ∉ channelsOf w' (JStr "s2")).
Proof.
  apply (broadcast_fan_out Demo.world (JStr "s2") "analysis.started"
           (JObj [("status", JStr "analyzing")])).
Defined.

(** Three subscribers, the second one closed: the other two receive the
    event and the closed one is dropped from the registry. *)
Example fan_out_three :
  let w' := final (broadcastToSession (JStr "s2") "analysis.started"
                     (JObj [("status", JStr "analyzing")]) Demo.world) in
  elements (channelsOf w' (JStr "s2")) ≡ₚ [0%nat; 2%nat] ∧
  written <$> responses w' !! 0%nat =
    Some [SseEvent "analysis.started" (JObj [("status", JStr "analyzing")])] ∧
  written <$> responses w' !! 2%nat =
    Some [SseEvent "analysis.started" (JObj [("status", JStr "analyzing")])] ∧
  written <$> responses w' !! 1%nat = Some [].
Proof.
  split; [|by split_and!]. vm_compute. apply Permutation_swap.
Qed.

(** ** Subscription *)

Lemma extendSession_frame (w : World) (sid : JsVal) (extra : option Z) :
  ∃ b w', extendSession sid extra w = Ret b w' ∧
          connections w' = connections w ∧ responses w' = responses w.
Proof.
  unfold extendSession, bind, get_world.
  destruct (validId sid) as [id|]; [|by eexists _, _].
  destruct (sessions w !! id) as [s|]; by eexists _, _.
Qed.

(** The response after the headers of an event stream were set and
    flushed. *)
Lemma stream_headers (w : World) (res : nat) (origin : string) (k : unit → M unit) :
  ∃ w1, (Http.setHeader res "Access-Control-Allow-Origin" origin ;;
         Http.setHeader res "Access-Control-Allow-Credentials" "true" ;;
         Http.setHeader res "Content-Type" "text/event-stream" ;;
         Http.setHeader res "Cache-Control" "no-cache" ;;
         Http.setHeader res "Connection" "keep-alive" ;;
         x <~ Http.flushHeaders res ;; k x)%js w = k tt w1 ∧
        clock w1 = clock w ∧ sessions w1 = sessions w ∧
        connections w1 = connections w ∧
        ∀ x, responses w !! res = Some x →
             ∃ x1, responses w1 !! res = Some x1 ∧ alive x1 = alive x ∧
                   written x1 = written x ∧ ended x1 = ended x.
Proof.
  eexists. split; [reflexivity|]. split_and!; try done.
  intros x Hx. eexists. cbn [responses set_responses].
  rewrite !lookup_alter_eq, Hx. simpl. by split_and!.
Qed.

Lemma unseen_treatedAsAbsent (w : World) (sid : JsVal) (id : string) :
  validId sid = Some id → lookupLive w sid = None → treatedAsAbsent w sid.
Proof.
  intros Hid Hdead.
  assert (getSession sid w = Ret None w) as Hget.
  { unfold getSession, bind, get_world, ret. by rewrite Hdead. }
  split; [done|]. split.
  { unfold sessionExists. by rewrite (bind_Ret _ _ _ _ _ Hget). }
  intros origin res x Horigin Hx Ha.
  assert (badSessionId sid = false) as Hok.
  { apply validId_string in Hid as [-> Hne]. unfold badSessionId. simpl.
    apply String.eqb_neq in Hne. by rewrite Hne. }
  unfold getEvents. cbn [headers_origin params_sessionId].
  rewrite bool_decide_eq_true_2 by done.
  match goal with |- context [Http.flushHeaders res ;; ?k] =>
    destruct (stream_headers w res origin (λ _, k)) as (w1 & -> & Hc & Hs & Hcon & Hr)
  end.
  destruct (Hr x Hx) as (x1 & Hx1 & Ha1 & Hw1 & _).
  rewrite Hok.
  assert (getSession sid w1 = Ret None w1) as Hget1.
  { unfold getSession, bind, get_world, ret.
    replace (lookupLive w1 sid) with (lookupLive w sid); [by rewrite Hdead|].
    unfold lookupLive. by rewrite Hs, Hc. }
  rewrite (bind_Ret _ _ _ _ _ Hget1).
  unfold errorEvent.
  erewrite bind_Ret by (apply write_alive; [exact Hx1|congruence]).
  eexists _, _. split; [reflexivity|]. cbn [sessions connections responses set_responses].
  split_and!; [done|done| | |].
  - rewrite lookup_alter_eq, lookup_insert_eq. reflexivity.
  - simpl. by rewrite Hw1.
  - done.
Qed.

(** A session id under which nothing is stored. *)
Lemma missing_treatedAsAbsent (w : World) (sid : JsVal) (id : string) :
  validId sid = Some id → sessions w !! id = None → treatedAsAbsent w sid.
Proof.
  intros Hid Hs. apply (unseen_treatedAsAbsent w sid id Hid).
  unfold lookupLive. rewrite Hid. simpl. by rewrite Hs.
Qed.

(** C9. A stored session whose [expiresAt] is in the past or missing is
    treated exactly as a session that does not exist: [getSession] returns
    absent and [sessionExists] returns false, both leaving the store as it
    is, and a subscription to it is refused with the error event "Session
    not found", registering no connection and deleting nothing. *)
Theorem expired_is_absent (w : World) (sid : JsVal) (s : Session) :
  stored w sid = Some s →
  (expiresAt s = None ∨ ∃ e, expiresAt s = Some e ∧ e < clock w) →
  treatedAsAbsent w sid.
Proof.
  intros Hst Hexp. unfold stored in Hst.
  destruct (validId sid) as [id|] eqn:Hid; [|done]. simpl in Hst.
  apply (unseen_treatedAsAbsent w sid id Hid).
  unfold lookupLive. rewrite Hid. simpl. rewrite Hst. simpl.
  unfold isExpired. destruct Hexp as [->|(e & -> & He)]; [done|].
  apply Z.ltb_lt in He. by rewrite He.
Qed.

Lemma expired_is_absent_witness : treatedAsAbsent Demo.world (JStr "s4").
Proof.
  apply (expired_is_absent Demo.world (JStr "s4") Demo.expired).
  - reflexivity.
  - right. exists 900. split; reflexivity.
Defined.

(** [createConnection] with an open response registers it. *)
Lemma createConnection_open (w : World) (id : string) (res : nat) (x : Response) :
  responses w !! res = Some x → alive x = true →
  ∃ w2 x2, createConnection (JStr id) res w = Ret true w2 ∧
           clock w2 = clock w ∧ sessions w2 = sessions w ∧
           res ∈ channelsOf w2 (JStr id) ∧
           responses w2 !! res = Some x2 ∧ alive x2 = true ∧
           written x2 = written x.
Proof.
  intros Hx Ha. unfold createConnection, handshake, try_catch, bind, get_world, modify.
  cbn [registryKey responses set_connections]. rewrite Hx, Ha.
  eexists _, _. split; [reflexivity|].
  cbn [clock sessions responses connections set_responses set_connections].
  split_and!; [done|done| | | |].
  - unfold channelsOf. cbn [registryKey connections set_connections set_responses].
    simpl. rewrite lookup_insert_eq. simpl. set_solver.
  - rewrite lookup_insert_eq. reflexivity.
  - done.
  - done.
Qed.

(** C7. A subscription from an allowed origin to a live session, on an
    open response, registers the response and at once writes the snapshot
    to it: the event [analysis.completed] with the stored feedback when
    the session is completed and has feedback, the event [session.status]
    with the current status otherwise. *)
Theorem snapshot_replay (w : World) (req : Request) (res : nat) (s : Session)
    (x : Response) (origin : string) :
  headers_origin req = JStr origin →
  origin ∈ allowedOrigins →
  lookupLive w (params_sessionId req) = Some s →
  responses w !! res = Some x →
  alive x = true →
  ∃ w' x' payload,
    getEvents req res w = Ret tt w' ∧
    res ∈ channelsOf w' (params_sessionId req) ∧
    responses w' !! res = Some x' ∧
    if String.eqb (status s) "completed" && truthy (prop s "feedback")
    then written x' = written x ++ [SseEvent "analysis.completed" payload] ∧
         field payload "status" = JStr "completed" ∧
         field payload "feedback" = prop s "feedback"
    else written x' = written x ++ [SseEvent "session.status" payload] ∧
         field payload "status" = JStr (status s).
Proof.
  intros Ho Hallowed Hlive Hx Ha.
  pose proof (live_id_accepted _ _ _ Hlive) as Hok.
  destruct (lookupLive_stored _ _ _ Hlive) as (id & Hid & _).
  apply validId_string in Hid as [Hsid _].
  unfold getEvents. rewrite Ho, bool_decide_eq_true_2 by done.
  match goal with |- context [Http.flushHeaders res ;; ?k] =>
    destruct (stream_headers w res origin (λ _, k)) as (w1 & -> & Hc & Hs & Hcon & Hr)
  end.
  destruct (Hr x Hx) as (x1 & Hx1 & Ha1 & Hw1 & _).
  rewrite Hok.
  assert (getSession (params_sessionId req) w1 = Ret (Some s) w1) as Hget.
  { unfold getSession, bind, get_world, ret.
    replace (lookupLive w1 (params_sessionId req))
      with (lookupLive w (params_sessionId req)); [by rewrite Hlive|].
    unfold lookupLive. by rewrite Hs, Hc. }
  rewrite (bind_Ret _ _ _ _ _ Hget). rewrite Hsid in *.
  destruct (createConnection_open w1 id res x1 Hx1) as
    (w2 & x2 & Hcc & Hc2 & Hs2 & Hin2 & Hx2 & Ha2 & Hw2); [congruence|].
  rewrite (bind_Ret _ _ _ _ _ Hcc). cbn [negb].
  set (payload := if String.eqb (status s) "completed" && truthy (prop s "feedback")
                  then completedSnapshot s (clock w2) else statusSnapshot s).
  set (event := if String.eqb (status s) "completed" && truthy (prop s "feedback")
                then "analysis.completed" else "session.status").
  destruct (broadcastToSession_spec w2 (JStr id) event payload)
    as (w3 & Hb & _ & _ & _ & Hresp & Hch & _).
  assert (∀ k : unit → M unit,
    bind (if String.eqb (status s) "completed" && truthy (prop s "feedback")
          then bind get_world (λ w0,
                 broadcastToSession (JStr id) "analysis.completed"
                   (completedSnapshot s (clock w0)))
          else broadcastToSession (JStr id) "session.status" (statusSnapshot s))
      k w2 = k tt w3) as Hstep.
  { intros k. apply bind_Ret. subst payload event.
    destruct (String.eqb (status s) "completed" && truthy (prop s "feedback")); done. }
  rewrite Hstep.
  destruct (extendSession_frame w3 (JStr id) None) as (b & w4 & He & Hcon4 & Hr4).
  rewrite (bind_Ret _ _ _ _ _ He).
  exists w4, (received (SseEvent event payload) x2), payload.
  split; [done|]. split_and!.
  - unfold channelsOf in *. rewrite Hcon4. apply Hch. split; [done|].
    unfold writable. by rewrite Hx2.
  - rewrite Hr4, Hresp, decide_True by done. rewrite Hx2. simpl.
    unfold delivered. by rewrite Ha2.
  - subst payload event. simpl. rewrite Hw2, Hw1.
    destruct (String.eqb (status s) "completed" && truthy (prop s "feedback"));
      by split_and!.
Qed.

Lemma snapshot_replay_witness :
  ∃ w' x' payload,
    getEvents (mkRequest (JStr "s3") Demo.local) 7 Demo.world = Ret tt w' ∧
    7%nat ∈ channelsOf w' (JStr "s3") ∧
    responses w' !! 7%nat = Some x' ∧
    written x' = [SseEvent "analysis.completed" payload] ∧
    field payload "status" = JStr "completed" ∧
    field payload "feedback" = JObj [("score", JNum 8)].
Proof.
  apply (snapshot_replay Demo.world (mkRequest (JStr "s3") Demo.local) 7
           Demo.completed freshResponse "http://localhost:5173").
  - reflexivity.
  - apply list_elem_of_here.
  - reflexivity.
  - reflexivity.
  - reflexivity.
Defined.

(** A subscriber to a session that is still being analyzed is sent its
    current status. *)
Example snapshot_in_progress :
  written <$> responses (final (getEvents (mkRequest (JStr "s2") Demo.local) 8
                                  Demo.world)) !! 8%nat =
  Some [SseEvent "session.status" (statusSnapshot Demo.analyzing)].
Proof. reflexivity. Qed.

(** * Further properties *)

(** ** The retry endpoint, accepted and refused *)

Lemma reject_frame (w : World) (res : nat) (code : Z) (error errorCode : string) :
  ∃ w', reject res code error errorCode w = Ret tt w' ∧
        clock w' = clock w ∧ sessions w' = sessions w ∧
        connections w' = connections w ∧
        ∀ r, r ≠ res → responses w' !! r = responses w !! r.
Proof.
  unfold reject, Http.setStatus, Http.json, Http.update, bind, modify.
  eexists. split; [reflexivity|]. split_and!; try done.
  intros r Hr. cbn [responses set_responses]. by rewrite !lookup_alter_ne.
Qed.

Lemma postRetry_refuses (w : World) (req : Request) (res : nat) :
  ¬ retryAllowed w (params_sessionId req) →
  ∃ code error errorCode,
    postRetry req res w = reject res code error errorCode w.
Proof.
  intros Hno. unfold postRetry.
  destruct (badSessionId (params_sessionId req)); [by eexists _, _, _|].
  unfold bind at 1. unfold getSession, bind, get_world, ret.
  destruct (lookupLive w (params_sessionId req)) as [s|] eqn:Hlive;
    [|by eexists _, _, _].
  destruct (String.eqb (status s) "error") eqn:Hst; simpl; [|by eexists _, _, _].
  destruct (3 <? or_zero (retryCount s) + 1) eqn:Hlt; [by eexists _, _, _|].
  destruct Hno. exists s. apply String.eqb_eq in Hst. apply Z.ltb_ge in Hlt. done.
Qed.

(** X1. A retry request that fails any guard of the endpoint changes no
    session, no registration and no response but its own. *)
Theorem retry_refused_changes_nothing (w : World) (req : Request) (res : nat) :
  ¬ retryAllowed w (params_sessionId req) →
  ∃ w', postRetry req res w = Ret tt w' ∧
        sessions w' = sessions w ∧ connections w' = connections w ∧
        ∀ r, r ≠ res → responses w' !! r = responses w !! r.
Proof.
  intros Hno. destruct (postRetry_refuses w req res Hno) as (code & e & ec & ->).
  destruct (reject_frame w res code e ec) as (w' & -> & _ & Hs & Hc & Hr).
  by exists w'.
Qed.

Lemma retry_refused_changes_nothing_witness :
  ∃ w', postRetry (mkRequest (JStr "s4") Demo.local) 7 Demo.world = Ret tt w' ∧
        sessions w' = sessions Demo.world ∧ connections w' = connections Demo.world ∧
        ∀ r, r ≠ 7%nat → responses w' !! r = responses Demo.world !! r.
Proof.
  apply (retry_refused_changes_nothing Demo.world (mkRequest (JStr "s4") Demo.local) 7).
  intros (s & Hs & _). discriminate Hs.
Defined.

Lemma json_frame (w : World) (res : nat) (body : JsVal) :
  ∃ w', Http.json res body w = Ret tt w' ∧
        clock w' = clock w ∧ sessions w' = sessions w ∧
        connections w' = connections w ∧
        (∀ r, r ≠ res → responses w' !! r = responses w !! r) ∧
        ∀ x, responses w !! res = Some x →
             ∃ x', responses w' !! res = Some x' ∧ statusCode x' = statusCode x ∧
                   written x' = written x ++ [JsonBody body].
Proof.
  unfold Http.json, Http.update, modify. eexists. split; [reflexivity|].
  cbn [clock sessions connections responses set_responses].
  split_and!; try done.
  - intros r Hr. by rewrite lookup_alter_ne.
  - intros x Hx. rewrite lookup_alter_eq, Hx. by eexists.
Qed.

(** What the retry endpoint does once every guard has passed, up to the
    answer it then writes. *)
Lemma postRetry_accepts (w : World) (req : Request) (res : nat) (s : Session) :
  lookupLive w (params_sessionId req) = Some s →
  status s = "error" →
  or_zero (retryCount s) + 1 ≤ 3 →
  let n := or_zero (retryCount s) + 1 in
  ∃ w3 s',
    postRetry req res w =
      Http.json res (JObj [("success", JBool true);
                           ("message", JStr "Retry initiated");
                           ("sessionId", params_sessionId req);
                           ("retryCount", JNum n)]) w3 ∧
    clock w3 = clock w ∧
    lookupLive w3 (params_sessionId req) = Some s' ∧
    status s' = "retrying" ∧ retryCount s' = Val n ∧
    prop s' "lastError" = JNull ∧
    expiresAt s' = expiresAt s ∧ streamingContent s' = streamingContent s ∧
    (∀ r, responses w3 !! r =
          if decide (r ∈ channelsOf w (params_sessionId req))
          then delivered (SseEvent EventBroadcaster.RETRY_STARTED (retryStartedEvent n))
                 <$> responses w !! r
          else responses w !! r) ∧
    (∀ r, r ∈ channelsOf w3 (params_sessionId req) ↔
          r ∈ channelsOf w (params_sessionId req) ∧ writable w r = true).
Proof.
  intros Hlive Hst Hle n. subst n.
  set (sid := params_sessionId req) in *.
  set (n := or_zero (retryCount s) + 1) in *.
  destruct (updateSession_live w sid s
              (mkPatch None (Some "retrying") (Some (Val n)) None {["lastError" := JNull]})
              Hlive) as (w1 & Hu1 & Hc1 & Hcon1 & Hr1 & Hl1).
  destruct (updateSession_live w1 sid _
              (mkPatch None (Some "retrying") (Some (Val n)) None ∅) Hl1)
    as (w2 & Hu2 & Hc2 & Hcon2 & Hr2 & Hl2).
  destruct (broadcastToSession_spec w2 sid EventBroadcaster.RETRY_STARTED
              (retryStartedEvent n))
    as (w3 & Hb & Hc3 & Hs3 & _ & Hresp & Hch & _).
  eexists w3, _. split.
  { unfold postRetry. fold sid. rewrite (live_id_accepted _ _ _ Hlive).
    assert (getSession sid w = Ret (Some s) w) as Hget.
    { unfold getSession, bind, get_world, ret. by rewrite Hlive. }
    rewrite (bind_Ret _ _ _ _ _ Hget). rewrite Hst.
    change (negb (String.eqb "error" "error")) with false. cbv beta iota.
    fold n. replace (3 <? n) with false by (symmetry; by apply Z.ltb_ge).
    rewrite (bind_Ret _ _ _ _ _ Hu1).
    unfold EventBroadcaster.broadcastRetryStarted. cbv beta zeta.
    rewrite bind_assoc. rewrite (bind_Ret _ _ _ _ _ Hu2).
    rewrite (bind_Ret _ _ _ _ _ Hb). reflexivity. }
  assert (channelsOf w2 sid = channelsOf w sid)
    as Hchan by (unfold channelsOf; by rewrite Hcon2, Hcon1).
  split_and!.
  - congruence.
  - unfold lookupLive in *. rewrite Hs3, Hc3. exact Hl2.
  - done.
  - done.
  - unfold prop. simpl. rewrite (left_id_L ∅ (∪)). by rewrite lookup_union_l', lookup_singleton_eq by (by rewrite lookup_singleton_eq).
  - done.
  - done.
  - intros r. rewrite Hresp, Hchan, Hr2, Hr1. done.
  - intros r. rewrite Hch, Hchan. unfold writable. by rewrite Hr2, Hr1.
Qed.

(** X2. A retry request for a live session in status [error] whose count
    of retries is a safe integer below three is accepted: the count goes up
    by one, the status becomes [retrying], the last error is cleared, the
    answer carries the new count, and every open subscriber of the session
    is sent [retry.started] for that attempt. *)
Theorem retry_accepted (w : World) (req : Request) (res : nat)
    (s : Session) (x : Response) :
  lookupLive w (params_sessionId req) = Some s →
  status s = "error" →
  safeCount (or_zero (retryCount s)) →
  or_zero (retryCount s) + 1 ≤ 3 →
  responses w !! res = Some x →
  res ∉ channelsOf w (params_sessionId req) →
  let n := or_zero (retryCount s) + 1 in
  ∃ w' s' x' body,
    postRetry req res w = Ret tt w' ∧
    lookupLive w' (params_sessionId req) = Some s' ∧
    status s' = "retrying" ∧ retryCount s' = Val n ∧
    prop s' "lastError" = JNull ∧
    responses w' !! res = Some x' ∧ statusCode x' = statusCode x ∧
    written x' = written x ++ [JsonBody body] ∧
    field body "success" = JBool true ∧ field body "retryCount" = JNum n ∧
    ∀ r y, r ∈ channelsOf w (params_sessionId req) →
           responses w !! r = Some y → alive y = true →
           responses w' !! r =
             Some (received (SseEvent "retry.started" (retryStartedEvent n)) y).
Proof.
  intros Hlive Hst _ Hle Hx Hres n.
  destruct (postRetry_accepts w req res s Hlive Hst Hle)
    as (w3 & s' & Hrun & Hc & Hl & Hst' & Hn & Herr & _ & _ & Hresp & _).
  match type of Hrun with _ = Http.json _ ?b _ =>
    destruct (json_frame w3 res b) as (w' & Hj & Hc' & Hs' & _ & Hother & Hown)
  end.
  assert (responses w3 !! res = Some x) as Hx3.
  { rewrite Hresp. by rewrite decide_False. }
  destruct (Hown x Hx3) as (x' & Hx' & Hcode & Hw).
  eexists w', s', x', _. split; [by rewrite Hrun|].
  split_and!; try done.
  - unfold lookupLive in *. by rewrite Hs', Hc'.
  - intros r y Hin Hy Ha.
    assert (r ≠ res) as Hne by (intros ->; done).
    rewrite (Hother r Hne), Hresp, decide_True by done.
    rewrite Hy. simpl. unfold delivered. by rewrite Ha.
Qed.

Lemma retry_accepted_witness :
  ∃ w' s' x' body,
    postRetry (mkRequest (JStr "s1") Demo.local) 7
      (exec Demo.world (Update (JStr "s1")
                          (mkPatch None None (Some (Val 2)) None ∅))) = Ret tt w' ∧
    lookupLive w' (JStr "s1") = Some s' ∧
    status s' = "retrying" ∧ retryCount s' = Val 3 ∧
    prop s' "lastError" = JNull ∧
    responses w' !! 7%nat = Some x' ∧ statusCode x' = 200 ∧
    written x' = [JsonBody body] ∧
    field body "success" = JBool true ∧ field body "retryCount" = JNum 3 ∧
    ∀ r y, r ∈ channelsOf Demo.world (JStr "s1") →
           responses Demo.world !! r = Some y → alive y = true →
           responses w' !! r =
             Some (received (SseEvent "retry.started" (retryStartedEvent 3)) y).
Proof.
  apply (retry_accepted
           (exec Demo.world (Update (JStr "s1") (mkPatch None None (Some (Val 2)) None ∅)))
           (mkRequest (JStr "s1") Demo.local) 7
           (mergeSession 1000 Demo.failed (mkPatch None None (Some (Val 2)) None ∅))
           freshResponse).
  - reflexivity.
  - reflexivity.
  - split; vm_compute; discriminate.
  - vm_compute. discriminate.
  - reflexivity.
  - replace (channelsOf _ _) with (∅ : gset nat) by reflexivity.
    apply not_elem_of_empty.
Defined.

Lemma or_zero_Val (n : Z) : or_zero (Val n) = n.
Proof. simpl. destruct (n =? 0) eqn:H; [|done]. apply Z.eqb_eq in H. by subst. Qed.

Lemma updateStatus_live (w : World) (sid : JsVal) (s : Session) (st : string) :
  lookupLive w sid = Some s →
  ∃ s', lookupLive (final (updateStatus sid st w)) sid = Some s' ∧
        status s' = st ∧ retryCount s' = retryCount s.
Proof.
  intros Hlive. unfold updateStatus.
  destruct (updateSession_live w sid s (mkPatch None (Some st) None None ∅) Hlive)
    as (w1 & -> & _ & _ & _ & Hl).
  eexists. split; [exact Hl|]. done.
Qed.

Lemma retryRound_step (w : World) (req : Request) (res : nat) (s : Session) :
  lookupLive w (params_sessionId req) = Some s →
  status s = "error" →
  or_zero (retryCount s) ≤ 3 →
  ∃ s', lookupLive (retryRound req res w) (params_sessionId req) = Some s' ∧
        status s' = "error" ∧
        or_zero (retryCount s') = Z.min (or_zero (retryCount s) + 1) 3.
Proof.
  intros Hlive Hst Hle. unfold retryRound. cbn [exec].
  destruct (decide (or_zero (retryCount s) + 1 ≤ 3)) as [Hok|Hfull].
  - destruct (postRetry_accepts w req res s Hlive Hst Hok)
      as (w3 & s1 & Hrun & Hc & Hl & _ & Hn & _).
    match type of Hrun with _ = Http.json _ ?b _ =>
      destruct (json_frame w3 res b) as (w4 & Hj & Hc4 & Hs4 & _)
    end.
    rewrite Hrun, Hj. cbn [final].
    assert (lookupLive w4 (params_sessionId req) = Some s1) as Hl4.
    { unfold lookupLive in *. by rewrite Hs4, Hc4. }
    destruct (updateStatus_live w4 _ s1 "error" Hl4) as (s' & Hl' & Hst' & Hn').
    exists s'. split_and!; [done|done|]. rewrite Hn', Hn, or_zero_Val. lia.
  - assert (¬ retryAllowed w (params_sessionId req)) as Hno.
    { intros (s0 & Hs0 & _ & Hle0). rewrite Hlive in Hs0. injection Hs0 as <-. lia. }
    destruct (postRetry_refuses w req res Hno) as (code & e & ec & ->).
    destruct (reject_frame w res code e ec) as (w1 & -> & Hc1 & Hs1 & _).
    cbn [final].
    assert (lookupLive w1 (params_sessionId req) = Some s) as Hl1.
    { unfold lookupLive in *. by rewrite Hs1, Hc1. }
    destruct (updateStatus_live w1 _ s "error" Hl1) as (s' & Hl' & Hst' & Hn').
    exists s'. split_and!; [done|done|]. rewrite Hn'. lia.
Qed.

(** X3. Retried and failed again [k] times, a session whose count [c] of
    retries is a safe integer, at most 3, has [min (c + k) 3]: once the
    count is 3 every further request is refused. *)
Theorem retry_rounds (w : World) (req : Request) (res : nat) (s : Session) (k : nat) :
  lookupLive w (params_sessionId req) = Some s →
  status s = "error" →
  safeCount (or_zero (retryCount s)) →
  or_zero (retryCount s) ≤ 3 →
  ∃ s', lookupLive (Nat.iter k (retryRound req res) w) (params_sessionId req) = Some s' ∧
        status s' = "error" ∧
        or_zero (retryCount s') = Z.min (or_zero (retryCount s) + Z.of_nat k) 3.
Proof.
  intros Hlive Hst _ Hle. induction k as [|k (s1 & Hl1 & Hst1 & Hn1)].
  - exists s. split_and!; [done|done|]. simpl. lia.
  - cbn [Nat.iter].
    destruct (retryRound_step _ req res s1 Hl1 Hst1) as (s' & Hl' & Hst' & Hn'); [lia|].
    exists s'. split_and!; [done|done|]. rewrite Hn', Hn1. lia.
Qed.

Lemma retry_rounds_witness :
  ∃ s', lookupLive (Nat.iter 5 (retryRound (mkRequest (JStr "s1") Demo.local) 7)
                      (exec Demo.world (Update (JStr "s1")
                                          (mkPatch None None (Some (Val 1)) None ∅))))
          (JStr "s1") = Some s' ∧
        status s' = "error" ∧ or_zero (retryCount s') = 3.
Proof.
  apply (retry_rounds
           (exec Demo.world (Update (JStr "s1") (mkPatch None None (Some (Val 1)) None ∅)))
           (mkRequest (JStr "s1") Demo.local) 7
           (mergeSession 1000 Demo.failed (mkPatch None None (Some (Val 1)) None ∅)) 5).
  - reflexivity.
  - reflexivity.
  - split; vm_compute; discriminate.
  - vm_compute. discriminate.
Defined.

(** ** Origin check and status query *)

(** X4. A subscription whose origin is not on the allow-list, or has no origin
    at all, is answered 403 CORS_NOT_ALLOWED whatever the session is: no
    event-stream header is set, nothing is registered and no session is
    read or touched. *)
Theorem subscribe_origin_refused (w : World) (req : Request) (res : nat)
    (x : Response) :
  (∀ o, headers_origin req = JStr o → o ∉ allowedOrigins) →
  responses w !! res = Some x →
  ∃ w' x' body,
    getEvents req res w = Ret tt w' ∧
    sessions w' = sessions w ∧ connections w' = connections w ∧
    (∀ r, r ≠ res → responses w' !! r = responses w !! r) ∧
    responses w' !! res = Some x' ∧
    statusCode x' = 403 ∧ headers x' = headers x ∧
    written x' = written x ++ [JsonBody body] ∧
    field body "code" = JStr "CORS_NOT_ALLOWED".
Proof.
  intros Ho Hx.
  assert (getEvents req res w =
          reject res 403 "CORS Error: Origin not allowed" "CORS_NOT_ALLOWED" w) as ->.
  { unfold getEvents. destruct (headers_origin req) as [| | | |o| | | |] eqn:E; try done.
    rewrite bool_decide_eq_false_2; [done|]. by apply Ho. }
  unfold reject, Http.setStatus, Http.json, Http.update, bind, modify.
  eexists _, _, _. split; [reflexivity|].
  cbn [sessions connections responses set_responses].
  split_and!; [done|done| | | | | |].
  - intros r Hr. by rewrite !lookup_alter_ne.
  - rewrite !lookup_alter_eq, Hx. reflexivity.
  - done.
  - done.
  - done.
  - done.
Qed.

Lemma subscribe_origin_refused_witness :
  ∃ w' x' body,
    getEvents (mkRequest (JStr "s3") (JStr "https://example.org")) 7 Demo.world
      = Ret tt w' ∧
    sessions w' = sessions Demo.world ∧ connections w' = connections Demo.world ∧
    (∀ r, r ≠ 7%nat → responses w' !! r = responses Demo.world !! r) ∧
    responses w' !! 7%nat = Some x' ∧
    statusCode x' = 403 ∧ headers x' = [] ∧
    written x' = [JsonBody body] ∧
    field body "code" = JStr "CORS_NOT_ALLOWED".
Proof.
  apply (subscribe_origin_refused Demo.world
           (mkRequest (JStr "s3") (JStr "https://example.org")) 7 freshResponse).
  - intros o [= <-]. vm_compute. intros H.
    repeat (inversion H as [|? ? ? H']; subst; clear H; rename H' into H).
  - reflexivity.
Defined.

Lemma badSessionId_validId (sid : JsVal) :
  badSessionId sid = true ↔ validId sid = None.
Proof.
  unfold badSessionId, validId.
  destruct sid as [| | | |t| | | |]; simpl; rewrite ?orb_true_r; try done.
  destruct (String.eqb t ""); simpl; split; done.
Qed.

(** X5. The status query only reads: it changes no session (it does not even
    extend the expiry, as a subscription does), no registration and no
    response but its own. For a live session it reports the stored status,
    the retry count (0 when there is none) and whether a subscriber is
    registered; otherwise it answers 400 for an unusable id and 404 for an
    id that is unknown or expired. *)
Theorem status_query (w : World) (req : Request) (res : nat) (x : Response) :
  responses w !! res = Some x →
  ∃ w' x' body,
    getStatus req res w = Ret tt w' ∧
    sessions w' = sessions w ∧ connections w' = connections w ∧
    (∀ r, r ≠ res → responses w' !! r = responses w !! r) ∧
    responses w' !! res = Some x' ∧
    written x' = written x ++ [JsonBody body] ∧
    match lookupLive w (params_sessionId req) with
    | Some s =>
        statusCode x' = statusCode x ∧
        field body "status" = JStr (status s) ∧
        field body "retryCount" = JNum (or_zero (retryCount s)) ∧
        field body "hasActiveConnections" =
          JBool (bool_decide (0 < size (channelsOf w (params_sessionId req)))%nat)
    | None =>
        if badSessionId (params_sessionId req)
        then statusCode x' = 400 ∧ field body "code" = JStr "INVALID_SESSION_ID"
        else statusCode x' = 404 ∧ field body "code" = JStr "SESSION_NOT_FOUND"
    end.
Proof.
  intros Hx. unfold getStatus.
  destruct (badSessionId (params_sessionId req)) eqn:Hbad.
  - assert (lookupLive w (params_sessionId req) = None) as ->.
    { apply badSessionId_validId in Hbad. unfold lookupLive. by rewrite Hbad. }
    unfold reject, Http.setStatus, Http.json, Http.update, bind, modify.
    eexists _, _, _. split; [reflexivity|].
    cbn [sessions connections responses set_responses].
    split_and!;
      [done | done | intros r Hr; by rewrite !lookup_alter_ne
      | rewrite !lookup_alter_eq, Hx; reflexivity | done ..].
  - unfold bind at 1. unfold getSession, bind, get_world, ret.
    destruct (lookupLive w (params_sessionId req)) as [s|].
    + unfold getConnectionCount, Http.json, Http.update, bind, get_world, ret, modify.
      eexists _, _, _. split; [reflexivity|].
      cbn [sessions connections responses set_responses].
      split_and!;
        [done | done | intros r Hr; by rewrite !lookup_alter_ne
        | rewrite !lookup_alter_eq, Hx; reflexivity | done ..].
    + unfold reject, Http.setStatus, Http.json, Http.update, bind, modify.
      eexists _, _, _. split; [reflexivity|].
      cbn [sessions connections responses set_responses].
      split_and!;
        [done | done | intros r Hr; by rewrite !lookup_alter_ne
        | rewrite !lookup_alter_eq, Hx; reflexivity | done ..].
Qed.

Lemma status_query_witness :
  ∃ w' x' body,
    getStatus (mkRequest (JStr "s2") Demo.local) 7 Demo.world = Ret tt w' ∧
    sessions w' = sessions Demo.world ∧ connections w' = connections Demo.world ∧
    (∀ r, r ≠ 7%nat → responses w' !! r = responses Demo.world !! r) ∧
    responses w' !! 7%nat = Some x' ∧
    written x' = [JsonBody body] ∧
    statusCode x' = 200 ∧
    field body "status" = JStr "analyzing" ∧
    field body "retryCount" = JNum 1 ∧
    field body "hasActiveConnections" = JBool true.
Proof.
  apply (status_query Demo.world (mkRequest (JStr "s2") Demo.local) 7 freshResponse).
  reflexivity.
Defined.
(** X6. A subscription from an allowed origin to an id that is unusable,
    unknown or expired fails inside the stream: the event-stream headers
    are already sent and the HTTP status stays as it was, one [error] event
    is written and the response is ended; nothing is registered and no
    session is touched. *)
Theorem subscribe_unknown_session (w : World) (req : Request) (res : nat)
    (x : Response) (origin : string) :
  headers_origin req = JStr origin →
  origin ∈ allowedOrigins →
  lookupLive w (params_sessionId req) = None →
  responses w !! res = Some x →
  alive x = true →
  ∃ w' x' payload,
    getEvents req res w = Ret tt w' ∧
    sessions w' = sessions w ∧ connections w' = connections w ∧
    (∀ r, r ≠ res → responses w' !! r = responses w !! r) ∧
    responses w' !! res = Some x' ∧
    statusCode x' = statusCode x ∧
    ("Content-Type", "text/event-stream") ∈ headers x' ∧
    written x' = written x ++ [SseEvent "error" payload] ∧
    field payload "error" =
      JStr (if badSessionId (params_sessionId req)
            then "Invalid session ID" else "Session not found") ∧
    ended x' = true ∧ alive x' = false.
Proof.
  intros Ho Hallowed Hdead Hx Ha.
  unfold getEvents. rewrite Ho, bool_decide_eq_true_2 by done. cbv zeta.
  unfold Http.setHeader, Http.flushHeaders, Http.update.
  do 6 (erewrite bind_Ret by reflexivity).
  assert (∀ error w1 x1, responses w1 !! res = Some x1 → alive x1 = true →
    errorEvent res error w1 =
      Ret tt (set_responses
                (alter (λ y, mkResponse false (statusCode y) (headers y)
                               (headersSent y) (written y) true) res
                   (<[res := mkResponse (alive x1) (statusCode x1) (headers x1) true
                               (written x1 ++ [SseEvent "error"
                                                 (JObj [("error", JStr error)])])
                               (ended x1)]> (responses w1)))
                w1)) as Herr.
  { intros error w1 x1 Hx1 Ha1.
    unfold errorEvent, Http.write, Http.finish, Http.update, bind, get_world, modify.
    by rewrite Hx1, Ha1. }
  match goal with
  | |- ∃ _ _ _, (if _ then _ else _) ?w1 = _ ∧ _ =>
      assert (∃ x1, responses w1 !! res = Some x1 ∧ alive x1 = true ∧
                    statusCode x1 = statusCode x ∧ written x1 = written x ∧
                    ("Content-Type", "text/event-stream") ∈ headers x1) as (x1 & Hx1 & Ha1 & Hst1 & Hw1 & Hh1);
      [cbn [responses set_responses]; rewrite !lookup_alter_eq, Hx;
       eexists; split; [reflexivity|]; cbn; split_and!; try done;
       set_solver|];
      assert (getSession (params_sessionId req) w1 = Ret None w1) as Hget
        by (unfold getSession, bind, get_world, ret; f_equal; exact Hdead)
  end.
  destruct (badSessionId (params_sessionId req)).
  - rewrite (Herr _ _ x1 Hx1 Ha1).
    eexists _, _, _. split; [reflexivity|].
    cbn [sessions connections responses set_responses].
    split_and!;
      [ done | done
      | intros r Hr; by rewrite lookup_alter_ne, lookup_insert_ne, !lookup_alter_ne
      | rewrite lookup_alter_eq, lookup_insert_eq; reflexivity
      | exact Hst1 | exact Hh1 | cbn; by rewrite Hw1 | done | done | done ].
  - rewrite (bind_Ret _ _ _ _ _ Hget). cbv beta iota.
    rewrite (Herr _ _ x1 Hx1 Ha1).
    eexists _, _, _. split; [reflexivity|].
    cbn [sessions connections responses set_responses].
    split_and!;
      [ done | done
      | intros r Hr; by rewrite lookup_alter_ne, lookup_insert_ne, !lookup_alter_ne
      | rewrite lookup_alter_eq, lookup_insert_eq; reflexivity
      | exact Hst1 | exact Hh1 | cbn; by rewrite Hw1 | done | done | done ].
Qed.

Lemma subscribe_unknown_session_witness :
  ∃ w' x' payload,
    getEvents (mkRequest (JStr "s4") Demo.local) 7 Demo.world = Ret tt w' ∧
    sessions w' = sessions Demo.world ∧ connections w' = connections Demo.world ∧
    (∀ r, r ≠ 7%nat → responses w' !! r = responses Demo.world !! r) ∧
    responses w' !! 7%nat = Some x' ∧
    statusCode x' = statusCode freshResponse ∧
    ("Content-Type", "text/event-stream") ∈ headers x' ∧
    written x' = written freshResponse ++ [SseEvent "error" payload] ∧
    field payload "error" =
      JStr (if badSessionId (params_sessionId (mkRequest (JStr "s4") Demo.local))
            then "Invalid session ID" else "Session not found") ∧
    ended x' = true ∧ alive x' = false.
Proof.
  apply (subscribe_unknown_session Demo.world (mkRequest (JStr "s4") Demo.local) 7
           freshResponse "http://localhost:5173").
  - reflexivity.
  - apply list_elem_of_here.
  - reflexivity.
  - reflexivity.
  - reflexivity.
Defined.
(** ** Closing the subscriptions of a session *)

Lemma finish_all (l : list nat) (w : World) :
  ∃ w', for_each l Http.finish w = Ret tt w' ∧
        clock w' = clock w ∧ sessions w' = sessions w ∧
        connections w' = connections w ∧
        ∀ r, responses w' !! r =
             if decide (r ∈ l) then finished <$> responses w !! r else responses w !! r.
Proof.
  revert w. induction l as [|r0 l IH]; intros w.
  { exists w. split_and!; try done;
      intros r; by rewrite decide_False by set_solver. }
  cbn [for_each]. unfold Http.finish at 1, Http.update.
  erewrite bind_Ret by reflexivity.
  destruct (IH (set_responses (alter finished r0 (responses w)) w))
    as (w' & Hrun & Hc & Hs & Hcon & Hr).
  exists w'. split; [exact Hrun|]. split_and!; try done.
  intros r. rewrite Hr. cbn [responses set_responses].
  destruct (decide (r = r0)) as [->|Hne].
  - rewrite lookup_alter_eq. rewrite (decide_True (P := r0 ∈ r0 :: l)) by set_solver.
    destruct (decide (r0 ∈ l)); [|done].
    by destruct (responses w !! r0).
  - rewrite lookup_alter_ne by done.
    destruct (decide (r ∈ l)).
    + by rewrite decide_True by set_solver.
    + by rewrite decide_False by set_solver.
Qed.

(** X7. DELETE /events/:sessionId asks for no session: for any usable id,
    known or not, every response registered for the id is ended, the
    registrations of the id are dropped and those of other ids stay, no
    session changes, and the reply is a success; for an unusable id the
    reply is 400 and nothing is closed. *)
Theorem delete_events (w : World) (req : Request) (res : nat) (x : Response) :
  responses w !! res = Some x →
  ∃ w' x' body,
    deleteEvents req res w = Ret tt w' ∧
    sessions w' = sessions w ∧
    responses w' !! res = Some x' ∧
    written x' = written x ++ [JsonBody body] ∧
    if badSessionId (params_sessionId req)
    then statusCode x' = 400 ∧ field body "code" = JStr "INVALID_SESSION_ID" ∧
         connections w' = connections w ∧
         ∀ r, r ≠ res → responses w' !! r = responses w !! r
    else field body "success" = JBool true ∧
         channelsOf w' (params_sessionId req) = ∅ ∧
         (∀ sid, registryKey sid ≠ registryKey (params_sessionId req) →
                 channelsOf w' sid = channelsOf w sid) ∧
         ∀ r, r ≠ res →
              responses w' !! r =
                if decide (r ∈ channelsOf w (params_sessionId req))
                then finished <$> responses w !! r else responses w !! r.
Proof.
  intros Hx. unfold deleteEvents. cbv zeta.
  destruct (badSessionId (params_sessionId req)) eqn:Hbad.
  { unfold reject, Http.setStatus, Http.json, Http.update, bind, modify.
    eexists _, _, _. split; [reflexivity|].
    cbn [sessions connections responses set_responses].
    split_and!;
      [ done | rewrite !lookup_alter_eq, Hx; reflexivity | done | done | done | done
      | intros r Hr; by rewrite !lookup_alter_ne ]. }
  assert (∃ k, registryKey (params_sessionId req) = Some k) as [k Hk].
  { unfold badSessionId in Hbad. destruct (params_sessionId req); try done.
    all: try (simpl in Hbad; rewrite ?orb_true_r in Hbad; done).
    by eexists. }
  unfold closeSessionConnections. rewrite Hk.
  rewrite bind_assoc. erewrite bind_Ret by reflexivity.
  destruct (finish_all (elements (channelsOf w (params_sessionId req))) w)
    as (w1 & Hrun & Hc & Hs & Hcon & Hr).
  rewrite bind_assoc, (bind_Ret _ _ _ _ _ Hrun).
  erewrite bind_Ret by reflexivity.
  unfold Http.json, Http.update, modify.
  assert (∃ x1, responses w1 !! res = Some x1 ∧ written x1 = written x) as (x1 & Hx1 & Hw1).
  { rewrite Hr, Hx. destruct (decide _); eexists; split; reflexivity. }
  eexists _, _, _. split; [reflexivity|].
  cbn [sessions connections responses set_responses set_connections].
  split_and!.
  - done.
  - rewrite lookup_alter_eq, Hx1. reflexivity.
  - cbn. by rewrite Hw1.
  - done.
  - unfold channelsOf. cbn [connections]. rewrite Hk. simpl.
    by rewrite lookup_delete_eq.
  - intros sid Hsid. unfold channelsOf. cbn [connections].
    destruct (registryKey sid) as [k'|]; [|done]. simpl.
    rewrite lookup_delete_ne by congruence. by rewrite Hcon.
  - intros r Hne. rewrite lookup_alter_ne by done. rewrite Hr.
    destruct (decide (r ∈ channelsOf w (params_sessionId req))).
    + by rewrite decide_True by set_solver.
    + by rewrite decide_False by set_solver.
Qed.

Lemma delete_events_witness :
  ∃ w' x' body,
    deleteEvents (mkRequest (JStr "s2") Demo.local) 7 Demo.world = Ret tt w' ∧
    sessions w' = sessions Demo.world ∧
    responses w' !! 7%nat = Some x' ∧
    written x' = written freshResponse ++ [JsonBody body] ∧
    if badSessionId (params_sessionId (mkRequest (JStr "s2") Demo.local))
    then statusCode x' = 400 ∧ field body "code" = JStr "INVALID_SESSION_ID" ∧
         connections w' = connections Demo.world ∧
         ∀ r, r ≠ 7%nat → responses w' !! r = responses Demo.world !! r
    else field body "success" = JBool true ∧
         channelsOf w' (params_sessionId (mkRequest (JStr "s2") Demo.local)) = ∅ ∧
         (∀ sid, registryKey sid
                   ≠ registryKey (params_sessionId (mkRequest (JStr "s2") Demo.local)) →
                 channelsOf w' sid = channelsOf Demo.world sid) ∧
         ∀ r, r ≠ 7%nat →
              responses w' !! r =
                if decide (r ∈ channelsOf Demo.world
                                 (params_sessionId (mkRequest (JStr "s2") Demo.local)))
                then finished <$> responses Demo.world !! r
                else responses Demo.world !! r.
Proof.
  apply (delete_events Demo.world (mkRequest (JStr "s2") Demo.local) 7 freshResponse).
  reflexivity.
Defined.

(** ** What a lifecycle method leaves alone *)

Lemma storeOnly_sameSession (id : string) (s0 : Session) : storeOnly (sameSession id s0).
Proof. intros w w' Hs. unfold sameSession. by rewrite Hs. Qed.

Lemma storeOnly_storedAs (id : string) (o : option Session) : storeOnly (storedAs id o).
Proof. intros w w' Hs. unfold storedAs. by rewrite Hs. Qed.

Lemma updateSession_sameSession (E : World → Prop) (id : string) (s0 : Session)
    (sid : JsVal) (p : SessionPatch) :
  preserves (sameSession id s0) E (updateSession sid p).
Proof.
  intros w (s & Hs & H1 & H2 & H3). unfold updateSession, bind, get_world.
  destruct (validId sid) as [id'|]; [|by exists s].
  destruct (sessions w !! id') as [s'|] eqn:Hs'; [|by exists s].
  simpl. unfold sameSession. simpl.
  destruct (decide (id' = id)) as [->|Hne].
  - rewrite lookup_insert_eq. eexists. split; [done|].
    rewrite Hs in Hs'. injection Hs' as <-. done.
  - rewrite lookup_insert_ne by done. by exists s.
Qed.

Lemma updateSession_storedAs (E : World → Prop) (id : string) (o : option Session)
    (sid : JsVal) (p : SessionPatch) :
  validId sid ≠ Some id → preserves (storedAs id o) E (updateSession sid p).
Proof.
  intros Hne w Hw. unfold updateSession, bind, get_world.
  destruct (validId sid) as [id'|]; [|done].
  destruct (sessions w !! id') as [s'|] eqn:Hs'; [|done].
  simpl. unfold storedAs. simpl. rewrite lookup_insert_ne; [done|congruence].
Qed.

(** The stepping tactic, with the lemma for [updateSession] supplied. *)
Ltac preserve_with lem :=
  repeat first [ apply lem; solve [done | assumption] | preserve_step ].

Lemma body_keeps (I : World → Prop) (c : Call) :
  storeOnly I →
  (∀ p, preserves I I (updateSession (calledOn c) p)) →
  preserves I I (body c).
Proof.
  intros HI Hupd.
  destruct c; simpl in *.
  - unfold broadcastUploadStarted, get_or, updateStatus. preserve_with Hupd.
  - unfold broadcastUploadCompleted, get_or, updateStatus, isoNow, newDate.
    preserve_with Hupd.
  - unfold broadcastExtractionStarted, updateStatus. preserve_with Hupd.
  - unfold broadcastExtractionCompleted, get_or_else, updateStatus. preserve_with Hupd.
  - unfold broadcastAnalysisStarted, updateStatus. preserve_with Hupd.
  - unfold broadcastAnalysisStreaming, get_or_else, newDate. preserve_with Hupd.
  - unfold broadcastAnalysisCompleted, updateStatus, isoNow, newDate. preserve_with Hupd.
  - unfold broadcastError, updateStatus.
    destruct options as [| |o]; cbn [option_field]; preserve_with Hupd.
  - unfold broadcastRetryStarted. preserve_with Hupd.
Qed.

Lemma run_keeps (I : World → Prop) (c : Call) :
  storeOnly I →
  (∀ p, preserves I I (updateSession (calledOn c) p)) →
  preserves I I (run c).
Proof.
  intros HI Hupd. unfold run. apply preserves_bind; [by apply body_keeps|].
  intros _. apply preserves_templateLiteral.
Qed.

(** X8. Whatever its arguments and however it ends, a lifecycle method never
    deletes a stored session and never changes a session's id, creation
    time or expiry; a session other than the one it is called on is left
    exactly as it was. *)
Theorem lifecycle_keeps_sessions (c : Call) (w : World) (id : string) (s : Session) :
  sessions w !! id = Some s →
  ∃ s', sessions (final (run c w)) !! id = Some s' ∧
        sessionId s' = sessionId s ∧ createdAt s' = createdAt s ∧
        expiresAt s' = expiresAt s ∧
        (validId (calledOn c) ≠ Some id → s' = s).
Proof.
  intros Hs.
  pose proof (run_keeps (sameSession id s) c (storeOnly_sameSession id s)
                (λ p, updateSession_sameSession _ id s _ p) w) as H1.
  assert (sameSession id s (final (run c w))) as (s' & Hs' & Ha & Hb & Hc).
  { destruct (run c w); apply H1; by exists s. }
  exists s'. split_and!; try done.
  intros Hne.
  pose proof (run_keeps (storedAs id (Some s)) c (storeOnly_storedAs id (Some s))
                (λ p, updateSession_storedAs _ id (Some s) _ p Hne) w) as H2.
  assert (storedAs id (Some s) (final (run c w))) as Hsame.
  { destruct (run c w); by apply H2. }
  unfold storedAs in Hsame. congruence.
Qed.

Lemma lifecycle_keeps_sessions_witness :
  ∃ s', sessions (final (run (Error (JStr "s1") (JStr "boom") Undefined) Demo.world))
          !! "s2" = Some s' ∧
        sessionId s' = "s2" ∧ createdAt s' = 100 ∧ expiresAt s' = Some 5000 ∧
        (validId (JStr "s1") ≠ Some "s2" → s' = Demo.analyzing).
Proof.
  apply (lifecycle_keeps_sessions (Error (JStr "s1") (JStr "boom") Undefined)
           Demo.world "s2" Demo.analyzing).
  reflexivity.
Defined.
(** ** The status and the event of each lifecycle method *)

Lemma get_or_Ret (v : JsVal) (k1 k2 : string) :
  v ≠ JNull → v ≠ JUndefined → ∃ a, ∀ w, get_or v k1 k2 w = Ret a w.
Proof.
  intros H1 H2. destruct (js_get_Ret v k1 H1 H2) as [a Ha].
  destruct (js_get_Ret v k2 H1 H2) as [b Hb].
  exists (if truthy a then a else b). intros w. unfold get_or.
  rewrite (bind_Ret _ _ _ _ _ (Ha w)). destruct (truthy a); [done|apply Hb].
Qed.

(** The broadcast that ends a lifecycle method, after updates that touched
    the store only. *)
Lemma broadcast_after_updates (w wn : World) (sid : JsVal) (event : string)
    (data : JsVal) (s' : Session) :
  connections wn = connections w → responses wn = responses w →
  lookupLive wn sid = Some s' →
  ∃ w', broadcastToSession sid event data wn = Ret tt w' ∧
        lookupLive w' sid = Some s' ∧
        ∀ r x, r ∈ channelsOf w sid → responses w !! r = Some x → alive x = true →
               responses w' !! r = Some (received (SseEvent event data) x).
Proof.
  intros Hcon Hresp Hlive.
  destruct (broadcastToSession_live wn sid event data) as (w' & Hb & _ & Hl & Hsent).
  exists w'. split; [exact Hb|]. split; [by rewrite Hl|].
  intros r x Hin Hx Ha. apply Hsent; [|by rewrite Hresp|done].
  unfold channelsOf in *. by rewrite Hcon.
Qed.

(** One update of a live session, with what it leaves alone. *)
Ltac update_live w Hlive w1 Hcon Hresp Hlive1 :=
  let Hu := fresh "Hu" in
  match goal with |- context [bind (updateSession ?sid ?p) _ w] =>
    destruct (updateSession_live w sid _ p Hlive) as (w1 & Hu & _ & Hcon & Hresp & Hlive1);
    rewrite (bind_Ret _ _ _ _ _ Hu); clear Hu
  end.

(** The last step of a lifecycle method. *)
Ltac broadcast_last w wn Hcon Hresp Hlive :=
  match goal with |- context [broadcastToSession ?sid ?e ?d wn] =>
    let w' := fresh "w'" in
    let Hb := fresh "Hb" in
    let Hl := fresh "Hl" in
    let Hsent := fresh "Hsent" in
    destruct (broadcast_after_updates w wn sid e d _ Hcon Hresp Hlive)
      as (w' & Hb & Hl & Hsent);
    exists w'; eexists _, d; split; [exact Hb|]; split; [exact Hl|];
    split_and!; [done|done|exact Hsent]
  end.

(** The statements of each lifecycle method, on a live session. *)
Lemma body_table (c : Call) (w : World) (s : Session) :
  wellFormed c →
  lookupLive w (calledOn c) = Some s →
  ∃ w' s' payload,
    body c w = Ret tt w' ∧
    lookupLive w' (calledOn c) = Some s' ∧
    status s' = statusAfter c (status s) ∧
    field payload "status" = JStr (statusSent c) ∧
    ∀ r x, r ∈ channelsOf w (calledOn c) → responses w !! r = Some x →
           alive x = true →
           responses w' !! r = Some (received (SseEvent (eventOf c) payload) x).
Proof.
  intros Hc Hlive.
  destruct c as [sid f|sid f|sid|sid e|sid|sid c m|sid f|sid e o|sid n st];
    cbn [body calledOn wellFormed statusAfter statusSent eventOf] in *.
  - (* upload started *)
    apply or_default_object in Hc as [H1 H2].
    unfold broadcastUploadStarted, updateStatus. cbv zeta.
    destruct (get_or_Ret (or_default f) "originalName" "name" H1 H2) as [a1 Ha1].
    destruct (js_get_Ret (or_default f) "size" H1 H2) as [a2 Ha2].
    destruct (get_or_Ret (or_default f) "mimetype" "type" H1 H2) as [a3 Ha3].
    rewrite (bind_Ret _ _ _ _ _ (Ha1 w)), (bind_Ret _ _ _ _ _ (Ha2 w)),
      (bind_Ret _ _ _ _ _ (Ha3 w)).
    update_live w Hlive w1 Hcon1 Hresp1 Hlive1.
    update_live w1 Hlive1 w2 Hcon2 Hresp2 Hlive2.
    rewrite Hcon1 in Hcon2. rewrite Hresp1 in Hresp2.
    broadcast_last w w2 Hcon2 Hresp2 Hlive2.
  - (* upload completed *)
    apply or_default_object in Hc as [H1 H2].
    unfold broadcastUploadCompleted, updateStatus, isoNow, newDate. cbv zeta.
    destruct (get_or_Ret (or_default f) "originalName" "name" H1 H2) as [a1 Ha1].
    destruct (js_get_Ret (or_default f) "size" H1 H2) as [a2 Ha2].
    destruct (get_or_Ret (or_default f) "mimetype" "type" H1 H2) as [a3 Ha3].
    destruct (js_get_Ret (or_default f) "uploadedAt" H1 H2) as [a4 Ha4].
    rewrite (bind_Ret _ _ _ _ _ (Ha1 w)), (bind_Ret _ _ _ _ _ (Ha2 w)),
      (bind_Ret _ _ _ _ _ (Ha3 w)), (bind_Ret _ _ _ _ _ (Ha4 w)).
    erewrite bind_Ret by reflexivity.
    update_live w Hlive w1 Hcon1 Hresp1 Hlive1.
    erewrite bind_Ret by reflexivity.
    update_live w1 Hlive1 w2 Hcon2 Hresp2 Hlive2.
    rewrite Hcon1 in Hcon2. rewrite Hresp1 in Hresp2.
    broadcast_last w w2 Hcon2 Hresp2 Hlive2.
  - (* extraction started *)
    unfold broadcastExtractionStarted, updateStatus. cbv zeta.
    update_live w Hlive w1 Hcon1 Hresp1 Hlive1.
    broadcast_last w w1 Hcon1 Hresp1 Hlive1.
  - (* extraction completed *)
    apply or_default_object in Hc as [H1 H2].
    unfold broadcastExtractionCompleted, updateStatus. cbv zeta.
    destruct (get_or_else_Ret (or_default e) "textLength" (JNum 0) H1 H2) as [a1 Ha1].
    destruct (get_or_else_Ret (or_default e) "pageCount" (JNum 0) H1 H2) as [a2 Ha2].
    destruct (get_or_else_Ret (or_default e) "hasText" (JBool false) H1 H2) as [a3 Ha3].
    rewrite (bind_Ret _ _ _ _ _ (Ha1 w)), (bind_Ret _ _ _ _ _ (Ha2 w)),
      (bind_Ret _ _ _ _ _ (Ha3 w)).
    update_live w Hlive w1 Hcon1 Hresp1 Hlive1.
    destruct (js_get_Ret (or_default e) "text" H1 H2) as [a4 Ha4].
    rewrite (bind_Ret _ _ _ _ _ (Ha4 w1)).
    update_live w1 Hlive1 w2 Hcon2 Hresp2 Hlive2.
    rewrite Hcon1 in Hcon2. rewrite Hresp1 in Hresp2.
    broadcast_last w w2 Hcon2 Hresp2 Hlive2.
  - (* analysis started *)
    unfold broadcastAnalysisStarted, updateStatus. cbv zeta.
    update_live w Hlive w1 Hcon1 Hresp1 Hlive1.
    broadcast_last w w1 Hcon1 Hresp1 Hlive1.
  - (* analysis streaming *)
    apply or_default_object in Hc as [H1 H2].
    unfold broadcastAnalysisStreaming, newDate. cbv zeta.
    destruct (get_or_else_Ret (or_default m) "chunkIndex" (JNum 0) H1 H2) as [a1 Ha1].
    destruct (get_or_else_Ret (or_default m) "isComplete" (JBool false) H1 H2) as [a2 Ha2].
    destruct (get_or_else_Ret (or_default m) "section" (JStr "general") H1 H2) as [a3 Ha3].
    rewrite (bind_Ret _ _ _ _ _ (Ha1 w)), (bind_Ret _ _ _ _ _ (Ha2 w)),
      (bind_Ret _ _ _ _ _ (Ha3 w)).
    assert (getSession sid w = Ret (Some s) w) as Hget.
    { unfold getSession, bind, get_world, ret. by rewrite Hlive. }
    rewrite (bind_Ret _ _ _ _ _ Hget). cbv beta iota.
    rewrite bind_assoc. erewrite bind_Ret by reflexivity. rewrite bind_assoc.
    update_live w Hlive w1 Hcon1 Hresp1 Hlive1.
    erewrite bind_Ret by reflexivity.
    broadcast_last w w1 Hcon1 Hresp1 Hlive1.
  - (* analysis completed *)
    unfold broadcastAnalysisCompleted, updateStatus, isoNow, newDate. cbv zeta.
    erewrite bind_Ret by reflexivity.
    update_live w Hlive w1 Hcon1 Hresp1 Hlive1.
    erewrite bind_Ret by reflexivity.
    update_live w1 Hlive1 w2 Hcon2 Hresp2 Hlive2.
    rewrite Hcon1 in Hcon2. rewrite Hresp1 in Hresp2.
    broadcast_last w w2 Hcon2 Hresp2 Hlive2.
  - (* error *)
    destruct Hc as (He1 & He2 & Ho).
    unfold broadcastError, updateStatus. cbv zeta.
    destruct (js_get_Ret e "code" He1 He2) as [c1 Hc1].
    rewrite (bind_Ret _ _ _ _ _ (Hc1 w)).
    assert (∃ code, ∀ w0,
      (if truthy c1 then ret c1
       else bind (option_field o o_code JUndefined)
              (λ c2, ret (js_or c2 (JStr "UNKNOWN_ERROR")))) w0 = Ret code w0)
      as [code Hcode].
    { destruct (truthy c1); [by eexists|]. destruct o; [|done|]; by eexists. }
    rewrite (bind_Ret _ _ _ _ _ (Hcode w)).
    assert (∀ A (g : ErrorOptions → A) (d : A),
              ∃ a, ∀ w0, option_field o g d w0 = Ret a w0) as Hopt.
    { intros A g d. destruct o; [|done|]; by eexists. }
    destruct (Hopt _ o_retryable JUndefined) as [rt Hrt].
    destruct (Hopt _ o_stage JUndefined) as [stg Hstg].
    destruct (Hopt _ o_retryCount Undefined) as [n Hn].
    rewrite (bind_Ret _ _ _ _ _ (Hrt w)), (bind_Ret _ _ _ _ _ (Hstg w)),
      (bind_Ret _ _ _ _ _ (Hn w)).
    update_live w Hlive w1 Hcon1 Hresp1 Hlive1.
    rewrite (bind_Ret _ _ _ _ _ (Hn w1)).
    update_live w1 Hlive1 w2 Hcon2 Hresp2 Hlive2.
    rewrite Hcon1 in Hcon2. rewrite Hresp1 in Hresp2.
    broadcast_last w w2 Hcon2 Hresp2 Hlive2.
  - (* retry started *)
    unfold broadcastRetryStarted. cbv zeta.
    update_live w Hlive w1 Hcon1 Hresp1 Hlive1.
    broadcast_last w w1 Hcon1 Hresp1 Hlive1.
Qed.

(** X9. Called on a live session with arguments of their documented kinds
    and, for [broadcastError], an error message that converts to a string,
    each lifecycle method returns, leaves the session live with the status
    of its step (a streamed chunk leaves the status as it was), and sends
    every open subscriber of the session exactly one event, of the type of
    the step, whose payload names the status of the step. *)
Theorem lifecycle_table (c : Call) (w : World) (s : Session) :
  wellFormed c → loggable c →
  lookupLive w (calledOn c) = Some s →
  ∃ w' s' payload,
    run c w = Ret tt w' ∧
    lookupLive w' (calledOn c) = Some s' ∧
    status s' = statusAfter c (status s) ∧
    field payload "status" = JStr (statusSent c) ∧
    ∀ r x, r ∈ channelsOf w (calledOn c) → responses w !! r = Some x →
           alive x = true →
           responses w' !! r = Some (received (SseEvent (eventOf c) payload) x).
Proof.
  intros Hc Hl Hlive.
  destruct (body_table c w s Hc Hlive) as (w' & s' & payload & Hrun & Hrest).
  exists w', s', payload. split; [|exact Hrest].
  unfold run. rewrite (bind_Ret _ _ _ _ _ Hrun). by apply templateLiteral_Ret.
Qed.

Lemma lifecycle_table_witness :
  ∃ w' s' payload,
    run (ExtractionCompleted (JStr "s2") (JObj [("text", JStr "Jane Doe")])) Demo.world
      = Ret tt w' ∧
    lookupLive w' (calledOn (ExtractionCompleted (JStr "s2")
                               (JObj [("text", JStr "Jane Doe")]))) = Some s' ∧
    status s' = statusAfter (ExtractionCompleted (JStr "s2")
                               (JObj [("text", JStr "Jane Doe")]))
                  (status Demo.analyzing) ∧
    field payload "status"
      = JStr (statusSent (ExtractionCompleted (JStr "s2")
                            (JObj [("text", JStr "Jane Doe")]))) ∧
    ∀ r x, r ∈ channelsOf Demo.world
                 (calledOn (ExtractionCompleted (JStr "s2")
                              (JObj [("text", JStr "Jane Doe")]))) →
           responses Demo.world !! r = Some x → alive x = true →
           responses w' !! r =
             Some (received
                     (SseEvent (eventOf (ExtractionCompleted (JStr "s2")
                                           (JObj [("text", JStr "Jane Doe")])))
                        payload) x).
Proof.
  apply (lifecycle_table (ExtractionCompleted (JStr "s2") (JObj [("text", JStr "Jane Doe")]))
           Demo.world Demo.analyzing).
  - discriminate.
  - repeat constructor.
  - reflexivity.
Defined.

(** ** One lifecycle step on a stored session *)

Lemma announces_intro (w w2 w' : World) (sid : JsVal) (event : string) (data : JsVal) :
  clock w2 = clock w → connections w2 = connections w → responses w2 = responses w →
  broadcastToSession sid event data w2 = Ret tt w' →
  announces sid event data w w' ∧ sessions w' = sessions w2.
Proof.
  intros Hc Hcon Hr Hb.
  destruct (broadcastToSession_spec w2 sid event data)
    as (w'' & Hb' & Hc' & Hs' & _ & Hresp & Hch & _).
  rewrite Hb in Hb'. injection Hb' as <-.
  assert (channelsOf w2 sid = channelsOf w sid) as Hchan
    by (unfold channelsOf; by rewrite Hcon).
  split; [|done]. split_and!.
  - congruence.
  - intros r. by rewrite Hresp, Hchan, Hr.
  - intros r. rewrite Hch, Hchan. unfold writable. by rewrite Hr.
Qed.

Lemma announces_listening (w w' : World) (sid : JsVal) (event : string)
    (data : JsVal) (r : nat) (x : Response) :
  announces sid event data w w' → listening w sid r x →
  listening w' sid r (received (SseEvent event data) x).
Proof.
  intros (_ & Hresp & Hch) (Hin & Hx & Ha). split_and!.
  - apply Hch. split; [done|]. unfold writable. by rewrite Hx.
  - rewrite Hresp, decide_True by done. rewrite Hx. simpl.
    unfold delivered. by rewrite Ha.
  - done.
Qed.

Lemma broadcast_runs (w : World) (sid : JsVal) (event : string) (data : JsVal) :
  ∃ w', broadcastToSession sid event data w = Ret tt w'.
Proof. destruct (broadcastToSession_spec w sid event data) as (w' & H & _). eauto. Qed.

(** [broadcastAnalysisStreaming] with no metadata on a stored session that
    has not expired. *)
Lemma streaming_step (w : World) (sid : JsVal) (id : string) (c : string) (s : Session) :
  validId sid = Some id → sessions w !! id = Some s →
  isExpired (clock w) s = false →
  ∃ w', broadcastAnalysisStreaming sid c JUndefined w = Ret tt w' ∧
        sessions w' =
          <[id := mergeSession (clock w) s
                    (mkPatch None None None
                       (Some (Val (or_empty (streamingContent s) +:+ c)))
                       {["lastStreamUpdate" := JDate (clock w)]})]> (sessions w) ∧
        announces sid ANALYSIS_STREAMING
          (streamingEvent c (JNum 0) (JBool false) (JStr "general")) w w'.
Proof.
  intros Hid Hs He.
  pose proof (lookupLive_intro w sid id s Hid Hs He) as Hlive.
  set (w2 := set_sessions
               (<[id := mergeSession (clock w) s
                          (mkPatch None None None
                             (Some (Val (or_empty (streamingContent s) +:+ c)))
                             {["lastStreamUpdate" := JDate (clock w)]})]> (sessions w)) w).
  destruct (broadcast_runs w2 sid ANALYSIS_STREAMING
              (streamingEvent c (JNum 0) (JBool false) (JStr "general"))) as (w' & Hb).
  exists w'.
  destruct (announces_intro w w2 w' sid _ _ eq_refl eq_refl eq_refl Hb) as (Hann & Hs').
  split; [|by split].
  unfold broadcastAnalysisStreaming. cbv zeta.
  do 3 (erewrite bind_Ret by reflexivity).
  assert (getSession sid w = Ret (Some s) w) as Hget.
  { unfold getSession, bind, get_world, ret. by rewrite Hlive. }
  rewrite (bind_Ret _ _ _ _ _ Hget). cbv beta iota.
  rewrite bind_assoc. unfold newDate. erewrite bind_Ret by reflexivity.
  rewrite bind_assoc.
  rewrite (bind_Ret _ _ _ _ _ (updateSession_stored w sid id s _ Hid Hs)).
  erewrite bind_Ret by reflexivity. exact Hb.
Qed.

(** [broadcastAnalysisStarted] on a stored session. *)
Lemma started_step (w : World) (sid : JsVal) (id : string) (s : Session) :
  validId sid = Some id → sessions w !! id = Some s →
  ∃ w', broadcastAnalysisStarted sid w = Ret tt w' ∧
        sessions w' =
          <[id := mergeSession (clock w) s (mkPatch None (Some "analyzing") None None ∅)]>
            (sessions w) ∧
        announces sid ANALYSIS_STARTED
          (JObj [("status", JStr "analyzing");
                 ("message", JStr "AI analysis started...");
                 ("stage", JStr "analysis")]) w w'.
Proof.
  intros Hid Hs.
  set (w2 := set_sessions
               (<[id := mergeSession (clock w) s
                          (mkPatch None (Some "analyzing") None None ∅)]> (sessions w)) w).
  destruct (broadcast_runs w2 sid ANALYSIS_STARTED
              (JObj [("status", JStr "analyzing");
                     ("message", JStr "AI analysis started...");
                     ("stage", JStr "analysis")])) as (w' & Hb).
  exists w'.
  destruct (announces_intro w w2 w' sid _ _ eq_refl eq_refl eq_refl Hb) as (Hann & Hs').
  split; [|by split].
  unfold broadcastAnalysisStarted, updateStatus. cbv zeta.
  rewrite (bind_Ret _ _ _ _ _ (updateSession_stored w sid id s _ Hid Hs)).
  exact Hb.
Qed.

(** ** Streaming an analysis *)

Lemma string_append_assoc (a b c : string) : (a +:+ b) +:+ c = a +:+ (b +:+ c).
Proof.
  induction a as [|ch a IH]; [done|].
  change (String ch ((a +:+ b) +:+ c) = String ch (a +:+ b +:+ c)). by f_equal.
Qed.

Lemma string_append_empty (a : string) : a +:+ "" = a.
Proof.
  induction a as [|ch a IH]; [done|].
  change (String ch (a +:+ "") = String ch a). by f_equal.
Qed.

Lemma or_empty_Val (t : string) : or_empty (Val t) = t.
Proof. simpl. destruct (String.eqb t "") eqn:H; [|done]. apply String.eqb_eq in H. by subst. Qed.

Lemma validId_printable (sid : JsVal) (id : string) :
  validId sid = Some id → printable sid = true.
Proof. intros H. by destruct (validId_string sid id H) as (-> & _). Qed.

Lemma run_of_body (c : Call) (w w' : World) :
  body c w = Ret tt w' → loggable c → run c w = Ret tt w'.
Proof.
  intros Hb Hl. unfold run. rewrite (bind_Ret _ _ _ _ _ Hb).
  by apply templateLiteral_Ret.
Qed.

Lemma waitOf_nonneg (sid : JsVal) (id : string) (cs : list (AdvancedRoutes.Await * string)) :
  Forall (λ c, calm sid id c.1) cs → 0 ≤ waitOf cs.
Proof. induction 1 as [|c cs [Hc _] _ IH]; simpl; lia. Qed.

(** An await that leaves the session and its subscribers alone. *)
Lemma suspend_calm (w : World) (sid : JsVal) (id : string) (a : AdvancedRoutes.Await) :
  calm sid id a →
  ∃ w', AdvancedRoutes.suspend a w = Ret tt w' ∧
        clock w' = clock w + AdvancedRoutes.wait a ∧
        sessions w' !! id = sessions w !! id ∧
        ∀ r x, listening w sid r x → listening w' sid r x.
Proof.
  intros (_ & Hf).
  set (w1 := mkWorld (clock w + AdvancedRoutes.wait a) (sessions w) (sessionTimeout w)
               (connections w) (responses w)).
  destruct (Hf w1) as (Hc & Hs & Hch & Hr).
  exists (AdvancedRoutes.others a w1). split_and!; try done.
  intros r x (Hin & Hx & Ha).
  assert (r ∈ channelsOf w1 sid) as Hin1 by exact Hin.
  split_and!; [by rewrite Hch | by rewrite (Hr r Hin1) | done].
Qed.

(** The chunks of an analysis, streamed to a session that does not expire
    meanwhile and that the rest of the process leaves alone: the text of
    the chunks is appended to the streamed content in order, status and
    retry count stay as they are, and every open subscriber reads one event
    per chunk, in order. *)
Lemma onChunks_run (sid : JsVal) (id : string) (e : Z)
    (cs : list (AdvancedRoutes.Await * string)) :
  validId sid = Some id →
  Forall (λ c, calm sid id c.1) cs →
  ∀ w s,
    sessions w !! id = Some s → expiresAt s = Some e →
    clock w + waitOf cs ≤ e →
    ∃ w' s',
      AdvancedRoutes.onChunks sid cs w = Ret tt w' ∧
      clock w' = clock w + waitOf cs ∧
      sessions w' !! id = Some s' ∧
      expiresAt s' = Some e ∧ status s' = status s ∧
      retryCount s' = retryCount s ∧
      or_empty (streamingContent s') = or_empty (streamingContent s) +:+ textOf cs ∧
      (cs ≠ [] →
       streamingContent s' = Val (or_empty (streamingContent s) +:+ textOf cs)) ∧
      (∀ r x, listening w sid r x →
              ∃ x', listening w' sid r x' ∧
                    written x' = written x ++ map streamedChunk cs).
Proof.
  intros Hid Hpos. induction Hpos as [|[dt c] cs Hdt Hpos IH]; intros w s Hs He Hle.
  - exists w, s. simpl. split_and!; try done.
    + lia.
    + by rewrite string_append_empty.
    + intros r x Hl. exists x. by rewrite app_nil_r.
  - simpl in Hdt, Hle. pose proof (waitOf_nonneg sid id cs Hpos) as Hw.
    pose proof Hdt as (Hdt0 & _).
    unfold AdvancedRoutes.onChunks. cbn [for_each]. cbn [fst snd].
    rewrite bind_assoc.
    destruct (suspend_calm w sid id dt Hdt) as (w1 & Hsusp & Hc1 & Hs1 & Hl1).
    rewrite (bind_Ret _ _ _ _ _ Hsusp).
    rewrite Hs in Hs1.
    assert (isExpired (clock w1) s = false) as Hexp.
    { unfold isExpired. rewrite He. apply Z.ltb_ge. lia. }
    destruct (streaming_step w1 sid id c s Hid Hs1 Hexp) as (w2 & Hbody & Hs2 & Hann).
    assert (run (AnalysisStreaming sid c JUndefined) w1 = Ret tt w2) as Hrun.
    { apply run_of_body; [exact Hbody | constructor]. }
    rewrite (bind_Ret _ _ _ _ _ Hrun).
    match type of Hs2 with _ = <[_ := ?s1]> _ =>
      destruct (IH w2 s1) as (w' & s' & Hrest & Hc' & Hs' & He' & Hst' & Hn' & Hacc & Hval & Hsub)
    end.
    { rewrite Hs2. apply lookup_insert_eq. }
    { done. }
    { destruct Hann as (Hc2 & _). rewrite Hc2. lia. }
    exists w', s'. split; [exact Hrest|].
    destruct Hann as (Hc2 & Hresp & Hch).
    split_and!; try done.
    + rewrite Hc', Hc2, Hc1. simpl. lia.
    + rewrite Hacc. cbn [streamingContent mergeSession default p_streamingContent].
      unfold Datatypes.id. rewrite or_empty_Val. simpl. by rewrite string_append_assoc.
    + intros _. destruct cs as [|c' cs'].
      * simpl in Hrest. injection Hrest as <-.
        rewrite Hs2, lookup_insert_eq in Hs'. injection Hs' as <-.
        cbn [streamingContent mergeSession default p_streamingContent].
        unfold Datatypes.id, textOf. cbn [foldr snd]. by rewrite string_append_empty.
      * rewrite Hval by done.
        cbn [streamingContent mergeSession default p_streamingContent].
        unfold Datatypes.id. rewrite or_empty_Val. f_equal. simpl. by rewrite string_append_assoc.
    + intros r x Hl.
      assert (listening w2 sid r (received (streamedChunk (dt, c)) x)) as Hl2.
      { apply (announces_listening w1 w2 sid _ _ r x); [by split_and!|by apply Hl1]. }
      destruct (Hsub r _ Hl2) as (x' & Hl' & Hw').
      exists x'. split; [done|]. rewrite Hw'. simpl. by rewrite <- app_assoc.
Qed.
Lemma updateSession_again (w : World) (sid : JsVal) (id : string) (s s1 : Session)
    (q : SessionPatch) :
  validId sid = Some id →
  updateSession sid q (set_sessions (<[id := s1]> (sessions w)) w) =
    Ret true (set_sessions (<[id := mergeSession (clock w) s1 q]> (sessions w)) w).
Proof.
  intros Hid.
  rewrite (updateSession_stored _ sid id s1 q Hid)
    by (cbn [sessions set_sessions]; apply lookup_insert_eq).
  unfold set_sessions. cbn [clock sessions sessionTimeout connections responses].
  by rewrite insert_insert_eq.
Qed.

(** [broadcastAnalysisCompleted] on a stored session. *)
Lemma completed_step (w : World) (sid feedback : JsVal) (id : string) (s : Session) :
  validId sid = Some id → sessions w !! id = Some s →
  ∃ w', broadcastAnalysisCompleted sid feedback w = Ret tt w' ∧
        sessions w' =
          <[id := mergeSession (clock w)
                    (mergeSession (clock w) s (mkPatch None (Some "completed") None None ∅))
                    (mkPatch None None None (Some Null)
                       (<["feedback" := or_default feedback]>
                          {["completedAt" := JDate (clock w)]}))]> (sessions w) ∧
        announces sid ANALYSIS_COMPLETED
          (JObj [("status", JStr "completed");
                 ("message", JStr "AI analysis completed successfully");
                 ("stage", JStr "analysis");
                 ("feedback", or_default feedback);
                 ("completedAt", JIso (clock w))]) w w'.
Proof.
  intros Hid Hs.
  set (s2 := mergeSession (clock w)
               (mergeSession (clock w) s (mkPatch None (Some "completed") None None ∅))
               (mkPatch None None None (Some Null)
                  (<["feedback" := or_default feedback]>
                     {["completedAt" := JDate (clock w)]}))).
  set (w2 := set_sessions (<[id := s2]> (sessions w)) w).
  destruct (broadcast_runs w2 sid ANALYSIS_COMPLETED
              (JObj [("status", JStr "completed");
                     ("message", JStr "AI analysis completed successfully");
                     ("stage", JStr "analysis");
                     ("feedback", or_default feedback);
                     ("completedAt", JIso (clock w))])) as (w' & Hb).
  exists w'.
  destruct (announces_intro w w2 w' sid _ _ eq_refl eq_refl eq_refl Hb) as (Hann & Hs').
  split; [|by split].
  unfold broadcastAnalysisCompleted, updateStatus, isoNow, newDate. cbv zeta.
  rewrite bind_assoc. erewrite bind_Ret by reflexivity.
  erewrite bind_Ret by reflexivity.
  rewrite (bind_Ret _ _ _ _ _ (updateSession_stored w sid id s _ Hid Hs)).
  rewrite bind_assoc. erewrite bind_Ret by reflexivity.
  erewrite bind_Ret by reflexivity.
  cbn [clock set_sessions].
  rewrite (bind_Ret _ _ _ _ _ (updateSession_again w sid id s _ _ Hid)).
  exact Hb.
Qed.

(** [broadcastError] with a message and the options of an object literal
    that gives no retry count, on a stored session. *)
Lemma error_step (w : World) (sid : JsVal) (message : string) (code stage retryable : JsVal)
    (id : string) (s : Session) :
  validId sid = Some id → sessions w !! id = Some s →
  ∃ w', broadcastError sid (JStr message)
          (Val (mkOptions code retryable stage Undefined)) w = Ret tt w' ∧
        sessions w' =
          <[id := mergeSession (clock w)
                    (mergeSession (clock w) s (mkPatch None (Some "error") None None ∅))
                    (mkPatch None None (Some (Val 0)) None
                       (<["lastError" := JStr message]>
                          {["errorCode" := js_or code (JStr "UNKNOWN_ERROR")]}))]>
            (sessions w) ∧
        announces sid ERROR_OCCURRED
          (JObj [("status", JStr "error");
                 ("message", JStr message);
                 ("error", JObj [("code", js_or code (JStr "UNKNOWN_ERROR"));
                                 ("message", JStr message);
                                 ("retryable", JBool (not_false retryable));
                                 ("stage", js_or stage (JStr "unknown"))]);
                 ("retryCount", JNum 0)]) w w'.
Proof.
  intros Hid Hs.
  set (s2 := mergeSession (clock w)
               (mergeSession (clock w) s (mkPatch None (Some "error") None None ∅))
               (mkPatch None None (Some (Val 0)) None
                  (<["lastError" := JStr message]>
                     {["errorCode" := js_or code (JStr "UNKNOWN_ERROR")]}))).
  set (w2 := set_sessions (<[id := s2]> (sessions w)) w).
  destruct (broadcast_runs w2 sid ERROR_OCCURRED
              (JObj [("status", JStr "error");
                     ("message", JStr message);
                     ("error", JObj [("code", js_or code (JStr "UNKNOWN_ERROR"));
                                     ("message", JStr message);
                                     ("retryable", JBool (not_false retryable));
                                     ("stage", js_or stage (JStr "unknown"))]);
                     ("retryCount", JNum 0)])) as (w' & Hb).
  exists w'.
  destruct (announces_intro w w2 w' sid _ _ eq_refl eq_refl eq_refl Hb) as (Hann & Hs').
  split; [|by split].
  unfold broadcastError, updateStatus, option_field. cbv zeta.
  erewrite bind_Ret by reflexivity. cbn [truthy].
  rewrite bind_assoc. erewrite bind_Ret by reflexivity.
  erewrite bind_Ret by reflexivity.
  do 3 (erewrite bind_Ret by reflexivity).
  cbn [o_code o_retryable o_stage o_retryCount or_zero].
  rewrite (bind_Ret _ _ _ _ _ (updateSession_stored w sid id s _ Hid Hs)).
  erewrite bind_Ret by reflexivity.
  rewrite (bind_Ret _ _ _ _ _ (updateSession_again w sid id s _ _ Hid)).
  exact Hb.
Qed.
Lemma prop_merge_other (now : Z) (s : Session) (p : SessionPatch) (k : string) :
  p_other p !! k = None → prop (mergeSession now s p) k = prop s k.
Proof. intros H. unfold prop. simpl. by rewrite lookup_union_r. Qed.

(** The run of [performAdvancedAnalysis] up to the point where the promise
    of the analysis settles. *)
Lemma analysis_awaited (w : World) (sid : JsVal) (id : string) (s : Session) (e : Z)
    (a : AdvancedRoutes.Analysis) :
  validId sid = Some id → sessions w !! id = Some s → expiresAt s = Some e →
  Forall (λ c, calm sid id c.1) (AdvancedRoutes.chunks a) →
  calm sid id (AdvancedRoutes.settleAfter a) →
  clock w + waitOf (AdvancedRoutes.chunks a) ≤ e →
  ∃ w1 w2 w3 s2,
    run (AnalysisStarted sid) w = Ret tt w1 ∧
    AdvancedRoutes.onChunks sid (AdvancedRoutes.chunks a) w1 = Ret tt w2 ∧
    AdvancedRoutes.suspend (AdvancedRoutes.settleAfter a) w2 = Ret tt w3 ∧
    clock w3 = clock w + duration a ∧
    sessions w3 !! id = Some s2 ∧
    expiresAt s2 = Some e ∧ status s2 = "analyzing" ∧ retryCount s2 = retryCount s ∧
    or_empty (streamingContent s2) =
      or_empty (streamingContent s) +:+ textOf (AdvancedRoutes.chunks a) ∧
    (∀ r x, listening w sid r x →
            ∃ x', listening w3 sid r x' ∧
                  written x' =
                    written x ++ startedChunk :: map streamedChunk (AdvancedRoutes.chunks a)).
Proof.
  intros Hid Hs He Hpos Hset Hle.
  destruct (started_step w sid id s Hid Hs) as (w1 & Hbody1 & Hs1 & Hann1).
  assert (run (AnalysisStarted sid) w = Ret tt w1) as Hrun1.
  { apply run_of_body; [exact Hbody1|].
    repeat constructor. by apply (validId_printable sid id). }
  pose proof Hann1 as (Hc1 & _).
  destruct (onChunks_run sid id e (AdvancedRoutes.chunks a) Hid Hpos w1
              (mergeSession (clock w) s (mkPatch None (Some "analyzing") None None ∅)))
    as (w2 & s2 & Hrun2 & Hc2 & Hs2 & He2 & Hst2 & Hn2 & Hacc & _ & Hsub).
  { rewrite Hs1. apply lookup_insert_eq. }
  { done. }
  { rewrite Hc1. done. }
  destruct (suspend_calm w2 sid id (AdvancedRoutes.settleAfter a) Hset)
    as (w3 & Hrun3 & Hc3 & Hs3 & Hl3).
  exists w1, w2, w3, s2. split_and!; try done.
  - rewrite Hc3, Hc2, Hc1. unfold duration. lia.
  - by rewrite Hs3.
  - intros r x Hl.
    pose proof (announces_listening w w1 sid _ _ r x Hann1 Hl) as Hl1.
    destruct (Hsub r _ Hl1) as (x' & Hl' & Hw').
    exists x'. split; [by apply Hl3|]. rewrite Hw'. simpl. by rewrite <- app_assoc.
Qed.

(** The samples: setting the status of s1 leaves s2 and its subscribers
    alone. *)
Lemma alone_calm (sid : JsVal) (id : string) (dt : Z) :
  0 ≤ dt → calm sid id (Sample.alone dt).
Proof. intros H. split; [done|]. by intros v. Qed.

Lemma busy_calm (dt : Z) : 0 ≤ dt → calm (JStr "s2") "s2" (Sample.busy dt).
Proof.
  intros H. split; [done|]. intros v.
  unfold Sample.busy, AdvancedRoutes.others, exec, updateStatus, updateSession,
    bind, get_world, modify, ret.
  cbn [validId String.eqb Ascii.eqb Bool.eqb].
  destruct (sessions v !! "s1"); cbn [final]; [|done].
  split_and!; try done.
  cbn [sessions set_sessions]. by rewrite lookup_insert_ne.
Qed.
(** X10. An advanced analysis that resolves, on a session that stays live
    while it runs, when the handlers that run during its awaits leave the
    session, its subscribers and the clock alone: the session ends
    completed, with the feedback, the analysis type and a completion date
    stored, the streamed text cleared and the retry count as it was; and
    every open subscriber of the session reads the start, one event per
    chunk in the order of the chunks, and the completion. *)
Theorem advanced_analysis_completes (w : World) (sid : JsVal) (id : string)
    (s : Session) (e : Z) (a : AdvancedRoutes.Analysis) (feedback : JsVal) :
  validId sid = Some id → sessions w !! id = Some s → expiresAt s = Some e →
  Forall (λ c, calm sid id c.1) (AdvancedRoutes.chunks a) →
  calm sid id (AdvancedRoutes.settleAfter a) →
  clock w + duration a ≤ e →
  AdvancedRoutes.settled a = AdvancedRoutes.Resolved feedback →
  ∃ w' s',
    AdvancedRoutes.performAdvancedAnalysis sid a w = Ret tt w' ∧
    clock w' = clock w + duration a ∧
    sessions w' !! id = Some s' ∧
    status s' = "completed" ∧
    retryCount s' = retryCount s ∧
    streamingContent s' = Null ∧
    expiresAt s' = Some e ∧
    prop s' "feedback" = or_default feedback ∧
    prop s' "analysisType" = JStr "advanced" ∧
    prop s' "completedAt" = JDate (clock w') ∧
    ∀ r x, listening w sid r x →
           ∃ x', listening w' sid r x' ∧
                 written x' =
                   written x ++ startedChunk
                     :: map streamedChunk (AdvancedRoutes.chunks a)
                     ++ [completedChunk (or_default feedback) (clock w')].
Proof.
  intros Hid Hs He Hpos Hset Hle Hres.
  pose proof (waitOf_nonneg sid id _ Hpos) as Hw.
  pose proof Hset as (Hset0 & _).
  destruct (analysis_awaited w sid id s e a Hid Hs He Hpos Hset
              ltac:(unfold duration in Hle; lia))
    as (w1 & w2 & w3 & s2 & Hrun1 & Hrun2 & Hrun3 & Hc3 & Hs3 & He2 & Hst2 & Hn2 & _ & Hsub).
  set (p := mkPatch None (Some "completed") None None
              (<["feedback" := feedback]>
                 (<["analysisType" := JStr "advanced"]>
                    {["completedAt" := JIso (clock w3)]}))).
  set (w4 := set_sessions (<[id := mergeSession (clock w3) s2 p]> (sessions w3)) w3).
  destruct (completed_step w4 sid feedback id (mergeSession (clock w3) s2 p) Hid)
    as (w' & Hbody4 & Hs4 & Hann4).
  { apply lookup_insert_eq. }
  assert (run (AnalysisCompleted sid feedback) w4 = Ret tt w') as Hrun4.
  { apply run_of_body; [exact Hbody4|].
    repeat constructor. by apply (validId_printable sid id). }
  eexists w', _. split.
  { unfold AdvancedRoutes.performAdvancedAnalysis, try_catch.
    rewrite (bind_Ret _ _ _ _ _ Hrun1), (bind_Ret _ _ _ _ _ Hrun2),
      (bind_Ret _ _ _ _ _ Hrun3).
    rewrite Hres. unfold isoNow. rewrite bind_assoc.
    erewrite bind_Ret by reflexivity. erewrite bind_Ret by reflexivity.
    rewrite (bind_Ret _ _ _ _ _ (updateSession_stored w3 sid id s2 _ Hid Hs3)).
    fold p. fold w4. by rewrite Hrun4. }
  pose proof Hann4 as (Hc4 & _).
  assert (clock w' = clock w + duration a) as Hclock.
  { rewrite Hc4. exact Hc3. }
  split; [exact Hclock|].
  split; [rewrite Hs4; apply lookup_insert_eq|].
  split_and!; try done.
  - by apply prop_merge.
  - rewrite prop_merge_other by done. rewrite prop_merge_other by done.
    by apply prop_merge.
  - rewrite Hc4. by apply prop_merge.
  - intros r x Hl. destruct (Hsub r x Hl) as (x2 & Hl2 & Hw2).
    assert (listening w4 sid r x2) as Hl4 by exact Hl2.
    pose proof (announces_listening w4 w' sid _ _ r x2 Hann4 Hl4) as Hl'.
    eexists. split; [exact Hl'|].
    cbn [written received]. rewrite Hw2, Hc4.
    rewrite <- app_assoc. done.
Qed.

Lemma advanced_analysis_completes_witness :
  ∃ w' s',
    AdvancedRoutes.performAdvancedAnalysis (JStr "s2") Sample.resolving Demo.world
      = Ret tt w' ∧
    clock w' = clock Demo.world + duration Sample.resolving ∧
    sessions w' !! "s2" = Some s' ∧
    status s' = "completed" ∧
    retryCount s' = retryCount Demo.analyzing ∧
    streamingContent s' = Null ∧
    expiresAt s' = Some 5000 ∧
    prop s' "feedback" = or_default (JObj [("score", JNum 9)]) ∧
    prop s' "analysisType" = JStr "advanced" ∧
    prop s' "completedAt" = JDate (clock w') ∧
    ∀ r x, listening Demo.world (JStr "s2") r x →
           ∃ x', listening w' (JStr "s2") r x' ∧
                 written x' =
                   written x ++ startedChunk
                     :: map streamedChunk (AdvancedRoutes.chunks Sample.resolving)
                     ++ [completedChunk (or_default (JObj [("score", JNum 9)])) (clock w')].
Proof.
  apply (advanced_analysis_completes Demo.world (JStr "s2") "s2" Demo.analyzing 5000
           Sample.resolving (JObj [("score", JNum 9)])).
  - reflexivity.
  - reflexivity.
  - reflexivity.
  - repeat constructor; first [apply busy_calm | apply alone_calm]; lia.
  - apply alone_calm. lia.
  - vm_compute. discriminate.
  - reflexivity.
Defined.

(** X11. An advanced analysis that is rejected after some chunks, on a
    session that stays live while it runs, when the handlers that run
    during its awaits leave the session, its subscribers and the clock
    alone: the call still returns; the session ends in status error, with
    the message and the code ADVANCED_ANALYSIS_FAILED stored, the retry
    count set back to 0 and the text streamed so far left in place; and
    every open subscriber reads the start, the chunks in order, and one
    error event marked retryable. *)
Theorem advanced_analysis_fails (w : World) (sid : JsVal) (id : string)
    (s : Session) (e : Z) (a : AdvancedRoutes.Analysis) (message : string) :
  validId sid = Some id → sessions w !! id = Some s → expiresAt s = Some e →
  Forall (λ c, calm sid id c.1) (AdvancedRoutes.chunks a) →
  calm sid id (AdvancedRoutes.settleAfter a) →
  clock w + duration a ≤ e →
  AdvancedRoutes.settled a = AdvancedRoutes.Rejected message →
  ∃ w' s',
    AdvancedRoutes.performAdvancedAnalysis sid a w = Ret tt w' ∧
    clock w' = clock w + duration a ∧
    sessions w' !! id = Some s' ∧
    status s' = "error" ∧
    retryCount s' = Val 0 ∧
    or_empty (streamingContent s') =
      or_empty (streamingContent s) +:+ textOf (AdvancedRoutes.chunks a) ∧
    expiresAt s' = Some e ∧
    prop s' "lastError" = JStr message ∧
    prop s' "errorCode" = JStr "ADVANCED_ANALYSIS_FAILED" ∧
    ∀ r x, listening w sid r x →
           ∃ x', listening w' sid r x' ∧
                 written x' =
                   written x ++ startedChunk
                     :: map streamedChunk (AdvancedRoutes.chunks a)
                     ++ [failedChunk message].
Proof.
  intros Hid Hs He Hpos Hset Hle Hrej.
  pose proof (waitOf_nonneg sid id _ Hpos) as Hw.
  pose proof Hset as (Hset0 & _).
  pose proof (validId_printable sid id Hid) as Hprint.
  destruct (analysis_awaited w sid id s e a Hid Hs He Hpos Hset
              ltac:(unfold duration in Hle; lia))
    as (w1 & w2 & w3 & s2 & Hrun1 & Hrun2 & Hrun3 & Hc3 & Hs3 & He2 & Hst2 & Hn2 & Hacc & Hsub).
  destruct (error_step w3 sid message (JStr "ADVANCED_ANALYSIS_FAILED")
              (JStr "advanced_analysis") (JBool true) id s2 Hid Hs3)
    as (w' & Hbody4 & Hs4 & Hann4).
  assert (run (Error sid (JStr message) (Val AdvancedRoutes.failureOptions)) w3
          = Ret tt w') as Hrun4.
  { apply run_of_body; [exact Hbody4|]. by repeat constructor. }
  eexists w', _. split.
  { unfold AdvancedRoutes.performAdvancedAnalysis, try_catch.
    rewrite (bind_Ret _ _ _ _ _ Hrun1), (bind_Ret _ _ _ _ _ Hrun2),
      (bind_Ret _ _ _ _ _ Hrun3).
    rewrite Hrej. unfold throw.
    rewrite (bind_Ret _ _ _ _ _ (templateLiteral_Ret [sid] w3 ltac:(by repeat constructor))).
    exact Hrun4. }
  pose proof Hann4 as (Hc4 & _).
  split; [by rewrite Hc4|].
  split; [rewrite Hs4; apply lookup_insert_eq|].
  split_and!; try done.
  - by apply prop_merge.
  - by apply prop_merge.
  - intros r x Hl. destruct (Hsub r x Hl) as (x2 & Hl2 & Hw2).
    pose proof (announces_listening w3 w' sid _ _ r x2 Hann4 Hl2) as Hl'.
    eexists. split; [exact Hl'|].
    cbn [written received]. rewrite Hw2. rewrite <- app_assoc. done.
Qed.

Lemma advanced_analysis_fails_witness :
  ∃ w' s',
    AdvancedRoutes.performAdvancedAnalysis (JStr "s2") Sample.rejecting Demo.world
      = Ret tt w' ∧
    clock w' = clock Demo.world + duration Sample.rejecting ∧
    sessions w' !! "s2" = Some s' ∧
    status s' = "error" ∧
    retryCount s' = Val 0 ∧
    or_empty (streamingContent s') =
      or_empty (streamingContent Demo.analyzing)
        +:+ textOf (AdvancedRoutes.chunks Sample.rejecting) ∧
    expiresAt s' = Some 5000 ∧
    prop s' "lastError" = JStr "Advanced analysis failed: quota" ∧
    prop s' "errorCode" = JStr "ADVANCED_ANALYSIS_FAILED" ∧
    ∀ r x, listening Demo.world (JStr "s2") r x →
           ∃ x', listening w' (JStr "s2") r x' ∧
                 written x' =
                   written x ++ startedChunk
                     :: map streamedChunk (AdvancedRoutes.chunks Sample.rejecting)
                     ++ [failedChunk "Advanced analysis failed: quota"].
Proof.
  apply (advanced_analysis_fails Demo.world (JStr "s2") "s2" Demo.analyzing 5000
           Sample.rejecting "Advanced analysis failed: quota").
  - reflexivity.
  - reflexivity.
  - reflexivity.
  - repeat constructor; first [apply busy_calm | apply alone_calm]; lia.
  - apply alone_calm. lia.
  - vm_compute. discriminate.
  - reflexivity.
Defined.
(** ** The request that starts an advanced analysis *)

(** X12. POST /advanced/analyze answers first and then, at most, starts the
    analysis: the reply is one JSON body on its own response, written to a
    world whose sessions, registrations and other responses are still as
    they were. Without a session id or a resume text the reply is 400, for
    an id with no live session 404, without an API key 500, and in these
    cases nothing else happens; otherwise the reply is 200 and the analysis
    runs from the world the reply left. *)
Theorem analyze_request (w : World) (body : AdvancedRoutes.AnalyzeBody) (hasKey : bool)
    (a : AdvancedRoutes.Analysis) (res : nat) (x : Response) :
  responses w !! res = Some x →
  ∃ w1 x' reply,
    clock w1 = clock w ∧ sessions w1 = sessions w ∧ connections w1 = connections w ∧
    (∀ r, r ≠ res → responses w1 !! r = responses w !! r) ∧
    responses w1 !! res = Some x' ∧
    written x' = written x ++ [JsonBody reply] ∧
    if truthy (AdvancedRoutes.body_sessionId body)
       && truthy (AdvancedRoutes.body_resumeText body)
    then
      match lookupLive w (AdvancedRoutes.body_sessionId body) with
      | Some _ =>
          if hasKey
          then statusCode x' = 200 ∧ field reply "status" = JStr "processing" ∧
               field reply "sessionId" = AdvancedRoutes.body_sessionId body ∧
               AdvancedRoutes.postAnalyze body hasKey a res w =
                 AdvancedRoutes.performAdvancedAnalysis
                   (AdvancedRoutes.body_sessionId body) a w1
          else statusCode x' = 500 ∧
               field reply "code" = JStr "ADVANCED_ANALYSIS_ERROR" ∧
               AdvancedRoutes.postAnalyze body hasKey a res w = Ret tt w1
      | None =>
          statusCode x' = 404 ∧ field reply "code" = JStr "SESSION_NOT_FOUND" ∧
          AdvancedRoutes.postAnalyze body hasKey a res w = Ret tt w1
      end
    else
      statusCode x' = 400 ∧ field reply "code" = JStr "MISSING_PARAMETERS" ∧
      AdvancedRoutes.postAnalyze body hasKey a res w = Ret tt w1.
Proof.
  intros Hx. unfold AdvancedRoutes.postAnalyze.
  assert (∀ code error errorCode,
    ∃ w1 x' reply,
      reject res code error errorCode w = Ret tt w1 ∧
      clock w1 = clock w ∧ sessions w1 = sessions w ∧ connections w1 = connections w ∧
      (∀ r, r ≠ res → responses w1 !! r = responses w !! r) ∧
      responses w1 !! res = Some x' ∧
      written x' = written x ++ [JsonBody reply] ∧
      statusCode x' = code ∧ field reply "code" = JStr errorCode) as Hrej.
  { intros code error errorCode.
    unfold reject, Http.setStatus, Http.json, Http.update, bind, modify.
    eexists _, _, _. split; [reflexivity|].
    cbn [clock sessions connections responses set_responses].
    split_and!;
      [done | done | done | intros r Hr; by rewrite !lookup_alter_ne
      | rewrite !lookup_alter_eq, Hx; reflexivity | done ..]. }
  destruct (truthy (AdvancedRoutes.body_sessionId body)) eqn:Hsid; simpl.
  2:{ destruct (Hrej 400 "Session ID and resume text are required" "MISSING_PARAMETERS")
        as (w1 & x' & reply & ? & ? & ? & ? & ? & ? & ? & ? & ?).
      by exists w1, x', reply. }
  destruct (truthy (AdvancedRoutes.body_resumeText body)) eqn:Htext; simpl.
  2:{ destruct (Hrej 400 "Session ID and resume text are required" "MISSING_PARAMETERS")
        as (w1 & x' & reply & ? & ? & ? & ? & ? & ? & ? & ? & ?).
      by exists w1, x', reply. }
  unfold bind at 1. unfold getSession, bind, get_world, ret.
  destruct (lookupLive w (AdvancedRoutes.body_sessionId body)) as [s|].
  2:{ destruct (Hrej 404 "Session not found" "SESSION_NOT_FOUND")
        as (w1 & x' & reply & ? & ? & ? & ? & ? & ? & ? & ? & ?).
      by exists w1, x', reply. }
  destruct hasKey.
  2:{ destruct (Hrej 500 "Failed to start advanced analysis" "ADVANCED_ANALYSIS_ERROR")
        as (w1 & x' & reply & ? & ? & ? & ? & ? & ? & ? & ? & ?).
      by exists w1, x', reply. }
  unfold Http.setStatus, Http.json, Http.update, modify.
  eexists _, _, _.
  split_and!; [.. | reflexivity];
    cbn [clock sessions connections responses set_responses];
    [done | done | done | intros r Hr; by rewrite !lookup_alter_ne
    | rewrite !lookup_alter_eq, Hx; reflexivity | done ..].
Qed.

Lemma analyze_request_witness :
  ∃ w1 x' reply,
    clock w1 = clock Demo.world ∧ sessions w1 = sessions Demo.world ∧
    connections w1 = connections Demo.world ∧
    (∀ r, r ≠ 7%nat → responses w1 !! r = responses Demo.world !! r) ∧
    responses w1 !! 7%nat = Some x' ∧
    written x' = written freshResponse ++ [JsonBody reply] ∧
    if truthy (AdvancedRoutes.body_sessionId
                 (AdvancedRoutes.mkAnalyzeBody (JStr "s2") (JStr "Jane Doe, engineer")))
       && truthy (AdvancedRoutes.body_resumeText
                    (AdvancedRoutes.mkAnalyzeBody (JStr "s2") (JStr "Jane Doe, engineer")))
    then
      match lookupLive Demo.world
              (AdvancedRoutes.body_sessionId
                 (AdvancedRoutes.mkAnalyzeBody (JStr "s2") (JStr "Jane Doe, engineer"))) with
      | Some _ =>
          if true
          then statusCode x' = 200 ∧ field reply "status" = JStr "processing" ∧
               field reply "sessionId" =
                 AdvancedRoutes.body_sessionId
                   (AdvancedRoutes.mkAnalyzeBody (JStr "s2") (JStr "Jane Doe, engineer")) ∧
               AdvancedRoutes.postAnalyze
                 (AdvancedRoutes.mkAnalyzeBody (JStr "s2") (JStr "Jane Doe, engineer"))
                 true Sample.resolving 7 Demo.world =
                 AdvancedRoutes.performAdvancedAnalysis
                   (AdvancedRoutes.body_sessionId
                      (AdvancedRoutes.mkAnalyzeBody (JStr "s2") (JStr "Jane Doe, engineer")))
                   Sample.resolving w1
          else statusCode x' = 500 ∧
               field reply "code" = JStr "ADVANCED_ANALYSIS_ERROR" ∧
               AdvancedRoutes.postAnalyze
                 (AdvancedRoutes.mkAnalyzeBody (JStr "s2") (JStr "Jane Doe, engineer"))
                 true Sample.resolving 7 Demo.world = Ret tt w1
      | None =>
          statusCode x' = 404 ∧ field reply "code" = JStr "SESSION_NOT_FOUND" ∧
          AdvancedRoutes.postAnalyze
            (AdvancedRoutes.mkAnalyzeBody (JStr "s2") (JStr "Jane Doe, engineer"))
            true Sample.resolving 7 Demo.world = Ret tt w1
      end
    else
      statusCode x' = 400 ∧ field reply "code" = JStr "MISSING_PARAMETERS" ∧
      AdvancedRoutes.postAnalyze
        (AdvancedRoutes.mkAnalyzeBody (JStr "s2") (JStr "Jane Doe, engineer"))
        true Sample.resolving 7 Demo.world = Ret tt w1.
Proof.
  apply (analyze_request Demo.world
           (AdvancedRoutes.mkAnalyzeBody (JStr "s2") (JStr "Jane Doe, engineer"))
           true Sample.resolving 7 freshResponse).
  reflexivity.
Defined.
(** ** The general session update *)


Lemma assoc_absent (ps : list (string * JsVal)) (k : string) :
  k ∉ ps.*1 → assoc k ps = JUndefined.
Proof.
  induction ps as [|[k0 v0] ps IH]; simpl; [done|].
  intros [Hne Hin]%not_elem_of_cons.
  apply String.eqb_neq in Hne. rewrite Hne. by apply IH.
Qed.



(** ** The cleanup of uploaded files *)

Lemma deleteFile_other (dir : FileCleanup.Dir) (file name : string) :
  name ≠ file → (FileCleanup.deleteFile file dir).2 !! name = dir !! name.
Proof.
  intros Hne. unfold FileCleanup.deleteFile.
  destruct (dir !! file) as [e|]; [|done].
  destruct (FileCleanup.found e), (FileCleanup.unlinks e); cbn [snd]; try done.
  by apply lookup_delete_ne.
Qed.

Lemma deleteFile_same (dir : FileCleanup.Dir) (file : string) (e : FileCleanup.Entry) :
  dir !! file = Some e →
  (FileCleanup.deleteFile file dir).2 !! file = if removable e then None else Some e.
Proof.
  intros He. unfold FileCleanup.deleteFile, removable. rewrite He.
  destruct (FileCleanup.found e), (FileCleanup.unlinks e); cbn [snd andb]; try done.
  by apply lookup_delete_eq.
Qed.

(** The loop over the listing [l] of a directory. *)
Lemma sweep_listing (now : Z) (l : list (string * FileCleanup.Entry)) :
  NoDup l.*1 →
  ∀ (dir : FileCleanup.Dir) (n : Z),
    (∀ file e, (file, e) ∈ l → dir !! file = Some e) →
    (FileCleanup.sweep now l.*1 dir n).1 =
      n + Z.of_nat (length (filter (λ kv, due now kv.1 kv.2 = true) l)) ∧
    ∀ name,
      (FileCleanup.sweep now l.*1 dir n).2 !! name =
        match dir !! name with
        | Some e =>
            if bool_decide (name ∈ l.*1) && due now name e && removable e
            then None else Some e
        | None => None
        end.
Proof.
  induction l as [|[file e] l IH]; intros Hnd dir n Hl.
  { simpl. split; [lia|]. intros name. by destruct (dir !! name). }
  rewrite fmap_cons in Hnd. apply NoDup_cons in Hnd as [Hfile Hnd]. cbn [fst] in Hfile.
  assert (dir !! file = Some e) as He by (apply Hl; apply list_elem_of_here).
  assert (∀ dir' : FileCleanup.Dir, (∀ name, name ≠ file → dir' !! name = dir !! name) →
          ∀ f e', (f, e') ∈ l → dir' !! f = Some e') as Hrest.
  { intros dir' Hsame f e' Hin. rewrite Hsame.
    - apply Hl. by apply list_elem_of_further.
    - intros ->. apply Hfile. apply list_elem_of_fmap. by exists (file, e'). }
  assert (∀ name, bool_decide (name ∈ file :: l.*1) =
                  bool_decide (name = file) || bool_decide (name ∈ l.*1)) as Hmem.
  { intros name.
    destruct (decide (name = file)) as [->|Hne].
    - rewrite (bool_decide_eq_true_2 (file ∈ file :: l.*1)) by apply list_elem_of_here.
      by rewrite (bool_decide_eq_true_2 (file = file)).
    - rewrite (bool_decide_eq_false_2 (name = file)) by done. cbn [orb].
      apply bool_decide_ext. rewrite elem_of_cons. naive_solver. }
  rewrite fmap_cons. cbn [fst FileCleanup.sweep]. rewrite filter_cons. cbn [fst snd].
  rewrite He. cbn [mbind option_bind].
  assert (due now file e = false →
          (FileCleanup.sweep now l.*1 dir n).1 =
            n + Z.of_nat (length
                  (if decide (due now file e = true)
                   then (file, e) :: filter (λ kv, due now kv.1 kv.2 = true) l
                   else filter (λ kv, due now kv.1 kv.2 = true) l)) ∧
          ∀ name,
            (FileCleanup.sweep now l.*1 dir n).2 !! name =
              match dir !! name with
              | Some e0 =>
                  if bool_decide (name ∈ file :: l.*1) && due now name e0 && removable e0
                  then None else Some e0
              | None => None
              end) as Hskip.
  { intros Hdue. rewrite decide_False by (rewrite Hdue; done).
    destruct (IH Hnd dir n (Hrest dir (λ _ _, eq_refl))) as [Hn Hd].
    split; [exact Hn|]. intros name. rewrite Hd.
    rewrite Hmem.
    destruct (dir !! name) as [e'|] eqn:He'; [|done].
    destruct (decide (name = file)) as [->|Hne].
    - assert (e' = e) as -> by congruence.
      rewrite Hdue. by rewrite !andb_false_r.
    - by rewrite (bool_decide_eq_false_2 (name = file)). }
  destruct (FileCleanup.startsWithDot file) eqn:Hdot.
  { apply Hskip. unfold due. by rewrite Hdot. }
  destruct (FileCleanup.mtime e) as [m|] eqn:Hm.
  2:{ apply Hskip. unfold due. rewrite Hm. by rewrite andb_false_r. }
  destruct (FileCleanup.maxFileAge <? now - m) eqn:Hold.
  2:{ apply Hskip. unfold due. rewrite Hm, Hold. by rewrite andb_false_r. }
  assert (due now file e = true) as Hdue by (unfold due; by rewrite Hdot, Hm, Hold).
  rewrite decide_True by done.
  destruct (IH Hnd (FileCleanup.deleteFile file dir).2 (n + 1)
              (Hrest _ (λ name Hne, deleteFile_other dir file name Hne))) as [Hn Hd].
  split; [rewrite Hn; simpl; lia|].
  intros name. rewrite Hd, Hmem.
  destruct (decide (name = file)) as [->|Hne].
  - rewrite (deleteFile_same dir file e He), He.
    rewrite (bool_decide_eq_false_2 (file ∈ l.*1)) by done.
    rewrite bool_decide_eq_true_2 by done.
    rewrite Hdue. simpl.
    by destruct (removable e).
  - rewrite deleteFile_other by done.
    by rewrite (bool_decide_eq_false_2 (name = file)).
Qed.

Lemma NoDup_filter_fst {A} (P : string * A → Prop) `{!∀ x, Decision (P x)}
    (l : list (string * A)) :
  NoDup l.*1 → NoDup (filter P l).*1.
Proof.
  induction l as [|[k a] l IH]; [done|].
  rewrite fmap_cons. intros [Hk Hnd]%NoDup_cons. cbn [fst] in Hk. rewrite filter_cons.
  destruct (decide (P (k, a))); [|by apply IH].
  cbn [fmap list_fmap fst]. apply NoDup_cons. split; [|by apply IH].
  intros ([k' a'] & -> & Hin)%list_elem_of_fmap.
  apply list_elem_of_filter in Hin as [_ Hin]. apply Hk.
  apply list_elem_of_fmap. by exists (k', a').
Qed.

Lemma size_filter_listing {A} (P : string * A → Prop) `{!∀ x, Decision (P x)}
    (m : gmap string A) :
  size (filter P m) = length (filter P (map_to_list m)).
Proof.
  rewrite map_filter_alt. apply map_size_list_to_map.
  apply NoDup_filter_fst, NoDup_fst_map_to_list.
Qed.

(** What one cleanup does to an existing uploads directory. *)
Lemma cleanupOldFiles_spec (now : Z) (dir : FileCleanup.Dir) :
  FileCleanup.cleanupOldFiles now (Some dir) =
    (Z.of_nat (size (filter (λ kv, due now kv.1 kv.2 = true) dir)),
     Some (filter (λ kv, due now kv.1 kv.2 && removable kv.2 = false) dir)).
Proof.
  unfold FileCleanup.cleanupOldFiles, FileCleanup.readdirSync.
  destruct (sweep_listing now (map_to_list dir) (NoDup_fst_map_to_list dir) dir 0)
    as [Hn Hd].
  { intros file e. apply elem_of_map_to_list. }
  destruct (FileCleanup.sweep now (map_to_list dir).*1 dir 0) as [n dir'].
  simpl in Hn, Hd. f_equal.
  - rewrite Hn, size_filter_listing. lia.
  - f_equal. apply map_eq. intros name. rewrite Hd, map_lookup_filter.
    destruct (dir !! name) as [e|] eqn:He; [|done]. simpl.
    assert (name ∈ (map_to_list dir).*1) as Hin.
    { apply list_elem_of_fmap. exists (name, e). split; [done|].
      by apply elem_of_map_to_list. }
    rewrite bool_decide_eq_true_2 by done. simpl.
    destruct (due now name e && removable e) eqn:Hr.
    + by rewrite option_guard_False by (simpl; congruence).
    + by rewrite option_guard_True.
Qed.
Lemma listing_split (now : Z) (l : list (string * FileCleanup.Entry)) :
  length l =
    (length (filter (λ kv, due now kv.1 kv.2 && removable kv.2 = false) l)
     + (length (filter (λ kv, due now kv.1 kv.2 = true) l)
        - length (filter (λ kv, stuck now kv.1 kv.2 = true) l)))%nat ∧
  (length (filter (λ kv, stuck now kv.1 kv.2 = true) l)
   ≤ length (filter (λ kv, due now kv.1 kv.2 = true) l))%nat.
Proof.
  induction l as [|[file e] l [IH1 IH2]]; [done|].
  rewrite !filter_cons. cbn [fst snd].
  repeat case_decide; unfold stuck in *;
    destruct (due now file e), (removable e); simpl in *; try done; lia.
Qed.

(** X14. One cleanup of the uploads directory at the time [now] removes
    exactly the files that are not hidden, were modified more than ten
    minutes before, and can be unlinked; every other entry stays as it is
    and no entry appears. *)
Theorem cleanup_removes_exactly (now : Z) (dir : FileCleanup.Dir) :
  ∃ n dir',
    FileCleanup.cleanupOldFiles now (Some dir) = (n, Some dir') ∧
    ∀ name,
      dir' !! name =
        match dir !! name with
        | Some e => if due now name e && removable e then None else Some e
        | None => None
        end.
Proof.
  eexists _, _. split; [apply cleanupOldFiles_spec|].
  intros name. rewrite map_lookup_filter.
  destruct (dir !! name) as [e|]; [|done]. simpl.
  destruct (due now name e && removable e) eqn:Hr.
  - by rewrite option_guard_False by (simpl; congruence).
  - by rewrite option_guard_True.
Qed.

(** X15. The number a cleanup returns counts the deletions it attempted,
    not the ones that succeeded: it is the number of files that left the
    directory plus the number of due files that could not be deleted. *)
Theorem cleanup_counts_attempts (now : Z) (dir : FileCleanup.Dir) :
  ∃ n dir',
    FileCleanup.cleanupOldFiles now (Some dir) = (n, Some dir') ∧
    n = Z.of_nat (size dir - size dir')
        + Z.of_nat (size (filter (λ kv, stuck now kv.1 kv.2 = true) dir)).
Proof.
  eexists _, _. split; [apply cleanupOldFiles_spec|].
  destruct (listing_split now (map_to_list dir)) as [H1 H2].
  rewrite !size_filter_listing, <- length_map_to_list. lia.
Qed.

(** X16. A second cleanup at the same time changes nothing: it leaves the
    directory as the first one left it, and returns the number of files
    that could not be deleted, counting them once more. *)
Theorem cleanup_settles (now : Z) (dir : FileCleanup.Dir) :
  ∃ n dir',
    FileCleanup.cleanupOldFiles now (Some dir) = (n, Some dir') ∧
    FileCleanup.cleanupOldFiles now (Some dir') =
      (Z.of_nat (size (filter (λ kv, stuck now kv.1 kv.2 = true) dir)), Some dir').
Proof.
  eexists _, _. split; [apply cleanupOldFiles_spec|].
  rewrite cleanupOldFiles_spec. f_equal.
  - f_equal. f_equal. rewrite map_filter_filter. apply map_filter_ext.
    intros file e _. unfold stuck. simpl.
    destruct (due now file e), (removable e); simpl; naive_solver.
  - f_equal. apply map_filter_filter_l. naive_solver.
Qed.
(** ** Parsing the replies of the model *)

(** X17. [parseResponse] never throws, and whatever the reply was, what it
    returns passes [validateFeedbackStructure]: it is either the fallback
    feedback or what [JSON.parse] made of the text between the first
    opening and the last closing brace of the trimmed reply. *)
Theorem parse_response_valid (trim : string → string)
    (JSON_parse : string → option GeminiService.Json) (response : string) :
  GeminiService.validateFeedbackStructure
    (GeminiService.parseResponse trim JSON_parse response) = GeminiService.Ok tt ∧
  (GeminiService.parseResponse trim JSON_parse response
     = GeminiService.getFallbackFeedback ∨
   JSON_parse (jsonSpan (trim response))
     = Some (GeminiService.parseResponse trim JSON_parse response)).
Proof.
  unfold GeminiService.parseResponse, jsonSpan. cbv zeta.
  destruct ((GeminiService.indexOf "{" (trim response) =? -1)
            || (GeminiService.lastIndexOf "}" (trim response) =? -1)).
  { split; [reflexivity|by left]. }
  destruct (JSON_parse _) as [parsed|] eqn:Hp; [|split; [reflexivity|by left]].
  destruct (GeminiService.validateFeedbackStructure parsed) as [[]|m] eqn:Hv; simpl.
  - split; [exact Hv|by right].
  - split; [reflexivity|by left].
Qed.

(** X18. [parseAdvancedResponse] never throws, and what it returns passes
    [validateAdvancedFeedbackStructure]; in particular it has an overall
    score that is not 0, a reply with the score 0 being replaced by the
    fallback. *)
Theorem parse_advanced_response_valid (trim : string → string)
    (JSON_parse : string → option GeminiService.Json) (response : string) :
  GeminiService.validateAdvancedFeedbackStructure
    (GeminiService.parseAdvancedResponse trim JSON_parse response)
    = GeminiService.Ok tt ∧
  (∃ score,
     GeminiService.get (GeminiService.parseAdvancedResponse trim JSON_parse response)
       "overallScore" = GeminiService.Ok (Some score) ∧
     GeminiService.truthy (Some score) = true) ∧
  (GeminiService.parseAdvancedResponse trim JSON_parse response
     = GeminiService.getAdvancedFallbackFeedback ∨
   JSON_parse (jsonSpan (trim response))
     = Some (GeminiService.parseAdvancedResponse trim JSON_parse response)).
Proof.
  assert (∀ v, GeminiService.validateAdvancedFeedbackStructure v = GeminiService.Ok tt →
               ∃ score,
                 GeminiService.get v "overallScore" = GeminiService.Ok (Some score) ∧
                 GeminiService.truthy (Some score) = true) as Hscore.
  { intros v Hv. unfold GeminiService.validateAdvancedFeedbackStructure in Hv.
    cbn [GeminiService.requireFields] in Hv.
    destruct (GeminiService.get v "overallScore") as [[score|]|]; try discriminate Hv.
    cbn [GeminiService.and_then] in Hv.
    destruct (GeminiService.truthy (Some score)) eqn:Ht; [|discriminate Hv].
    by exists score. }
  assert (GeminiService.validateAdvancedFeedbackStructure
            GeminiService.getAdvancedFallbackFeedback = GeminiService.Ok tt) as Hfb
    by reflexivity.
  unfold GeminiService.parseAdvancedResponse, jsonSpan. cbv zeta.
  destruct ((GeminiService.indexOf "{" (trim response) =? -1)
            || (GeminiService.lastIndexOf "}" (trim response) =? -1)).
  { split_and!; [done|by apply Hscore|by left]. }
  destruct (JSON_parse _) as [parsed|] eqn:Hp;
    [|split_and!; [done|by apply Hscore|by left]].
  destruct (GeminiService.validateAdvancedFeedbackStructure parsed) as [[]|m] eqn:Hv;
    cbn [GeminiService.and_then].
  - split_and!; [done|by apply Hscore|by right].
  - split_and!; [done|by apply Hscore|by left].
Qed.
Lemma string_length_append (a b : string) :
  String.length (a +:+ b) = (String.length a + String.length b)%nat.
Proof.
  induction a as [|c a IH]; [done|].
  change (S (String.length (a +:+ b)) = S (String.length a + String.length b)).
  by rewrite IH.
Qed.

Lemma cons_append (c : Ascii.ascii) (a b : string) :
  String c a +:+ b = String c (a +:+ b).
Proof. reflexivity. Qed.

Lemma one_append (c : Ascii.ascii) (rest : string) : String c "" +:+ rest = String c rest.
Proof. reflexivity. Qed.

Lemma substring_skip (a b : string) (m : nat) :
  String.substring (String.length a) m (a +:+ b) = String.substring 0 m b.
Proof. induction a as [|c a IH]; [done|]. exact IH. Qed.

Lemma substring_take (x y : string) :
  String.substring 0 (String.length x) (x +:+ y) = x.
Proof.
  induction x as [|c x IH]; [by destruct y|].
  change (String c (String.substring 0 (String.length x) (x +:+ y)) = String c x).
  by rewrite IH.
Qed.

Lemma append_split (a b c d : string) :
  a +:+ b = c +:+ d → (String.length a ≤ String.length c)%nat →
  ∃ m, c = a +:+ m ∧ b = m +:+ d.
Proof.
  revert c. induction a as [|x a IH]; intros c Heq Hle.
  - by exists c.
  - destruct c as [|y c]; [simpl in Hle; lia|].
    change (String x (a +:+ b) = String y (c +:+ d)) in Heq.
    injection Heq as -> Heq.
    destruct (IH c Heq) as (m & -> & ->); [simpl in Hle; lia|].
    by exists m.
Qed.

Lemma prefix_one (s : string) (c : Ascii.ascii) :
  String.prefix (String c "") s = true ↔ ∃ rest, s = String c rest.
Proof.
  destruct s as [|c' s]; simpl; [split; [done|by intros [? ?]]|].
  destruct (Ascii.ascii_dec c c') as [->|Hne].
  - split; [by exists s|]. by destruct s.
  - split; [done|]. intros [rest [= ? _]]. done.
Qed.

Lemma indexOf_range (needle s : string) :
  GeminiService.indexOf needle s = -1 ∨ 0 ≤ GeminiService.indexOf needle s.
Proof.
  induction s as [|c s IH]; cbn [GeminiService.indexOf].
  - destruct (String.prefix needle ""); [right; lia|by left].
  - destruct (String.prefix needle (String c s)); [right; lia|].
    destruct (GeminiService.indexOf needle s <? 0) eqn:H; [by left|].
    right. apply Z.ltb_ge in H. lia.
Qed.

Lemma lastIndexOf_range (needle s : string) :
  GeminiService.lastIndexOf needle s = -1 ∨ 0 ≤ GeminiService.lastIndexOf needle s.
Proof.
  induction s as [|c s IH]; cbn [GeminiService.lastIndexOf].
  - destruct (String.prefix needle ""); [right; lia|by left].
  - destruct (0 <=? GeminiService.lastIndexOf needle s) eqn:H.
    + right. apply Z.leb_le in H. lia.
    + destruct (String.prefix needle (String c s)); [right; lia|by left].
Qed.

(** The first occurrence of a character splits the text. *)
Lemma indexOf_split (c : Ascii.ascii) (s : string) :
  GeminiService.indexOf (String c "") s ≠ -1 →
  ∃ pre rest,
    s = pre +:+ String c rest ∧
    Z.of_nat (String.length pre) = GeminiService.indexOf (String c "") s ∧
    GeminiService.indexOf (String c "") pre = -1.
Proof.
  induction s as [|c' s IH]; [done|].
  cbn [GeminiService.indexOf].
  destruct (String.prefix (String c "") (String c' s)) eqn:Hp.
  - intros _. apply prefix_one in Hp as [rest [= -> ->]].
    by exists "", rest.
  - destruct (GeminiService.indexOf (String c "") s <? 0) eqn:Hlt; [done|].
    intros _. apply Z.ltb_ge in Hlt.
    destruct IH as (pre & rest & -> & Hlen & Hpre); [lia|].
    exists (String c' pre), rest. split_and!.
    + done.
    + rewrite <- Hlen. simpl. lia.
    + cbn [GeminiService.indexOf]. rewrite Hpre.
      destruct (String.prefix (String c "") (String c' pre)) eqn:Hp'; [|done].
      apply prefix_one in Hp' as [rest' [= -> _]].
      assert (String.prefix (String c "") (String c (pre +:+ String c rest)) = true)
        as Hyes by (apply prefix_one; eauto).
      change (String c pre +:+ String c rest)
        with (String c (pre +:+ String c rest)) in Hp.
      congruence.
Qed.

(** The last occurrence of a character splits the text. *)
Lemma lastIndexOf_split (c : Ascii.ascii) (s : string) :
  GeminiService.lastIndexOf (String c "") s ≠ -1 →
  ∃ pre post,
    s = pre +:+ String c post ∧
    Z.of_nat (String.length pre) = GeminiService.lastIndexOf (String c "") s ∧
    GeminiService.lastIndexOf (String c "") post = -1.
Proof.
  induction s as [|c' s IH]; [done|].
  cbn [GeminiService.lastIndexOf].
  destruct (0 <=? GeminiService.lastIndexOf (String c "") s) eqn:Hle.
  - intros _. apply Z.leb_le in Hle.
    destruct IH as (pre & post & -> & Hlen & Hpost); [lia|].
    exists (String c' pre), post. split_and!; [done| |done].
    rewrite <- Hlen. simpl. lia.
  - apply Z.leb_gt in Hle.
    destruct (String.prefix (String c "") (String c' s)) eqn:Hp; [|done].
    intros _. apply prefix_one in Hp as [rest [= -> ->]].
    exists "", rest. split_and!; [done|done|].
    destruct (lastIndexOf_range (String c "") rest); [done|lia].
Qed.
(** X19. When the first opening brace of the trimmed reply does not come
    after its last closing brace, the text handed to [JSON.parse] is the
    span from the one to the other, both included: nothing before it holds
    an opening brace and nothing after it a closing one. *)
Theorem json_span_outermost (s : string) :
  GeminiService.indexOf "{" s ≠ -1 →
  GeminiService.lastIndexOf "}" s ≠ -1 →
  GeminiService.indexOf "{" s ≤ GeminiService.lastIndexOf "}" s →
  ∃ pre mid post,
    s = pre +:+ jsonSpan s +:+ post ∧
    jsonSpan s = "{" +:+ mid +:+ "}" ∧
    GeminiService.indexOf "{" pre = -1 ∧
    GeminiService.lastIndexOf "}" post = -1.
Proof.
  intros Hi Hj Hle.
  destruct (indexOf_split _ s Hi) as (pre & rest & Hs1 & Hlen1 & Hpre).
  destruct (lastIndexOf_split _ s Hj) as (pre2 & post & Hs2 & Hlen2 & Hpost).
  change (s = pre +:+ ("{" +:+ rest)) in Hs1.
  change (s = pre2 +:+ ("}" +:+ post)) in Hs2.
  destruct (append_split pre ("{" +:+ rest) pre2 ("}" +:+ post)) as (m & -> & Hm).
  { by rewrite <- Hs1. }
  { lia. }
  destruct m as [|c m]; [discriminate Hm|].
  rewrite one_append, cons_append in Hm. injection Hm as <- ->.
  rewrite <- (one_append _ m) in *.
  exists pre, m, post.
  assert (jsonSpan s = "{" +:+ m +:+ "}") as Hspan.
  { assert (String.length s
            = (String.length pre + (1 + (String.length m + (1 + String.length post))))%nat)
      as Hlen by (rewrite Hs1; by rewrite !string_length_append).
    assert (String.length ("{" +:+ m +:+ "}") = S (S (String.length m))) as Hmid.
    { rewrite !string_length_append. simpl. lia. }
    rewrite string_length_append, string_length_append in Hlen2. simpl in Hlen2.
    unfold jsonSpan, GeminiService.substring. cbv zeta.
    rewrite <- Hlen1, <- Hlen2, Hlen.
    match goal with
    | |- String.substring ?a ?b s = _ =>
        replace a with (String.length pre) by lia;
        replace b with (String.length ("{" +:+ m +:+ "}")) by (rewrite Hmid; lia)
    end.
    rewrite Hs1, substring_skip.
    rewrite <- (string_append_assoc m "}" post), <- (string_append_assoc "{" (m +:+ "}") post).
    apply substring_take. }
  split_and!; [|done|done|done].
  rewrite Hspan, Hs1 at 1.
  by rewrite !string_append_assoc.
Qed.

Lemma json_span_outermost_witness :
  ∃ pre mid post,
    "Sure: {x} end" = pre +:+ jsonSpan "Sure: {x} end" +:+ post ∧
    jsonSpan "Sure: {x} end" = "{" +:+ mid +:+ "}" ∧
    GeminiService.indexOf "{" pre = -1 ∧
    GeminiService.lastIndexOf "}" post = -1.
Proof.
  apply (json_span_outermost "Sure: {x} end").
  - vm_compute. discriminate.
  - vm_compute. discriminate.
  - vm_compute. discriminate.
Defined.
(** X20. When the last closing brace of the trimmed reply comes before its
    first opening brace, [substring] swaps its two indices, and the text
    handed to [JSON.parse] is the one strictly between the two braces. *)
Theorem json_span_swapped (s : string) :
  GeminiService.indexOf "{" s ≠ -1 →
  GeminiService.lastIndexOf "}" s ≠ -1 →
  GeminiService.lastIndexOf "}" s < GeminiService.indexOf "{" s →
  ∃ pre mid post,
    s = pre +:+ "}" +:+ mid +:+ "{" +:+ post ∧
    jsonSpan s = mid ∧
    GeminiService.indexOf "{" (pre +:+ "}" +:+ mid) = -1 ∧
    GeminiService.lastIndexOf "}" (mid +:+ "{" +:+ post) = -1.
Proof.
  intros Hi Hj Hlt.
  destruct (indexOf_split _ s Hi) as (pre1 & rest & Hs1 & Hlen1 & Hpre).
  destruct (lastIndexOf_split _ s Hj) as (pre & post2 & Hs2 & Hlen2 & Hpost).
  change (s = pre1 +:+ ("{" +:+ rest)) in Hs1.
  change (s = pre +:+ ("}" +:+ post2)) in Hs2.
  destruct (append_split pre ("}" +:+ post2) pre1 ("{" +:+ rest)) as (m & -> & Hm).
  { by rewrite <- Hs2. }
  { lia. }
  destruct m as [|c m]; [discriminate Hm|].
  rewrite one_append, cons_append in Hm. injection Hm as <- ->.
  rewrite <- (one_append _ m) in *.
  exists pre, m, rest. split_and!; [by rewrite Hs2| |done|done].
  assert (String.length s
          = (String.length pre + (1 + (String.length m + (1 + String.length rest))))%nat)
    as Hlen by (rewrite Hs2; by rewrite !string_length_append).
  rewrite string_length_append, string_length_append in Hlen1. simpl in Hlen1.
  unfold jsonSpan, GeminiService.substring. cbv zeta.
  rewrite <- Hlen1, <- Hlen2, Hlen.
  match goal with
  | |- String.substring ?a ?b s = _ =>
      replace a with (String.length (pre +:+ "}")) by
        (rewrite string_length_append; simpl; lia);
      replace b with (String.length m) by lia
  end.
  rewrite Hs2, <- (string_append_assoc pre "}" _), substring_skip.
  apply substring_take.
Qed.

Lemma json_span_swapped_witness :
  ∃ pre mid post,
    "a} null {b" = pre +:+ "}" +:+ mid +:+ "{" +:+ post ∧
    jsonSpan "a} null {b" = mid ∧
    GeminiService.indexOf "{" (pre +:+ "}" +:+ mid) = -1 ∧
    GeminiService.lastIndexOf "}" (mid +:+ "{" +:+ post) = -1.
Proof.
  apply (json_span_swapped "a} null {b").
  - vm_compute. discriminate.
  - vm_compute. discriminate.
  - vm_compute. reflexivity.
Defined.
